(** * CareerFairKiosk: the poll-and-reconcile loop of the kiosk display

    The repository holds four successive versions of the kiosk script:

    - [Redirect]   : src/script.js, first document (iframe with redirect
                     fallback);
    - [IframeOnly] : src/script.js, second document;
    - [Adaptive]   : src/unnamed/part_000 (adaptive polling, warm iframe,
                     polling paused while the tab is hidden);
    - [FastMode]   : src/unnamed/part_001 (re-optimised version).

    Each version is embedded as functions over an explicit world made of the
    script's [state] object and of the part of the browser the script talks
    to ([Host]): the [hidden] class of the page's elements, the iframe, the
    table of live timers, the clock and the fetches in flight. *)

From stdpp Require Import base numbers option strings gmap fin_maps.

Local Open Scope Z_scope.

(** ** Status records and what a fetch can settle with *)

Record StatusRecord := mkStatus {
  active : bool;
  itemId : option string;
  formUrl : option string;
}.

(** The body of an HTTP response: either it does not parse as JSON
    ([res.json()] rejects), or it is a JSON value; [None] stands for the
    JSON value [null], for which [!data] holds. *)
Inductive Body :=
| Unparsable
| JsonValue (data : option StatusRecord).

Inductive FetchResult :=
| NetworkFailure
| HttpResponse (status : Z) (body : Body).

(** [res.ok] *)
Definition ok (status : Z) : bool :=
  bool_decide (200 <= status) && bool_decide (status <= 299).

(** ** Exceptions and the state-and-exception monad of the scripts *)

Inductive Exn :=
| FetchRejected
| HttpError (status : Z)
| JsonRejected.

Module Js.
(** A computation reads and writes a store [S] and either returns a value
    or throws; what was written before a throw stays written. *)
Definition M (S A : Type) : Type := S -> (Exn + A) * S.

Definition ret {S A} (a : A) : M S A := fun s => (inr a, s).

Definition throw {S A} (e : Exn) : M S A := fun s => (inl e, s).

Definition bind {S A B} (m : M S A) (k : A -> M S B) : M S B :=
  fun s =>
    match m s with
    | (inl e, s') => (inl e, s')
    | (inr a, s') => k a s'
    end.

(** a statement that only updates the store *)
Definition exec {S} (f : S -> S) : M S unit := fun s => (inr tt, f s).

(** [try { body } catch (err) { handler err }] *)
Definition try_catch {S A} (body : M S A) (handler : Exn -> M S A) : M S A :=
  fun s =>
    match body s with
    | (inl e, s') => handler e s'
    | (inr a, s') => (inr a, s')
    end.

(** what an [await] of a settled promise gives *)
Definition await {S A} (settled : Exn + A) : M S A :=
  match settled with
  | inl e => throw e
  | inr a => ret a
  end.
End Js.

Declare Scope js_scope.
Delimit Scope js_scope with js.
Notation "x <- m ;; k" := (Js.bind m (fun x => k))
  (at level 100, m at next level, right associativity) : js_scope.
Notation "m ;; k" := (Js.bind m (fun _ => k))
  (at level 100, right associativity) : js_scope.

(** [fetchActive], identical in the first three versions (src/script.js
    lines 155-159 and 290-294, part_000 lines 119-123); the last version
    inlines the same three steps in [pollOnce]. The argument is what the
    network does with the request. *)
Definition fetchActive (r : FetchResult) : Exn + option StatusRecord :=
  match r with
  | NetworkFailure => inl FetchRejected
  | HttpResponse status body =>
      if negb (ok status) then inl (HttpError status)
      else match body with
           | Unparsable => inl JsonRejected
           | JsonValue data => inr data
           end
  end.

(** JavaScript truthiness of an optional string: [undefined], [null] and the
    empty string are falsy. *)
Definition truthy (v : option string) : bool :=
  match v with
  | Some s => negb (bool_decide (s = EmptyString))
  | None => false
  end.

(** [v || "unknown"] *)
Definition or_unknown (v : option string) : string :=
  match v with
  | Some s => if bool_decide (s = EmptyString) then "unknown"%string else s
  | None => "unknown"%string
  end.

(** Template-literal interpolation of a field that may be missing: a missing
    key reads [undefined]. (A field sent as JSON [null] is falsy like a
    missing one and is not told apart from it by [StatusRecord]; it would
    print as "null". Only the text of the debug badge depends on this.) *)
Definition interpolate (v : option string) : string :=
  match v with
  | Some s => s
  | None => "undefined"%string
  end.

(** ** The browser side *)

Inductive Element :=
| els_idle | els_active | els_loading | els_frame | els_redirectMode | els_badge.

(** Which elements carry the class [hidden]. *)
Record Hidden := mkHidden {
  hid_idle : bool;
  hid_active : bool;
  hid_loading : bool;
  hid_frame : bool;
  hid_redirectMode : bool;
  hid_badge : bool;
}.

Definition contains_hidden (e : Element) (c : Hidden) : bool :=
  match e with
  | els_idle => hid_idle c
  | els_active => hid_active c
  | els_loading => hid_loading c
  | els_frame => hid_frame c
  | els_redirectMode => hid_redirectMode c
  | els_badge => hid_badge c
  end.

Definition set_hidden (e : Element) (b : bool) (c : Hidden) : Hidden :=
  match e with
  | els_idle => mkHidden b (hid_active c) (hid_loading c) (hid_frame c) (hid_redirectMode c) (hid_badge c)
  | els_active => mkHidden (hid_idle c) b (hid_loading c) (hid_frame c) (hid_redirectMode c) (hid_badge c)
  | els_loading => mkHidden (hid_idle c) (hid_active c) b (hid_frame c) (hid_redirectMode c) (hid_badge c)
  | els_frame => mkHidden (hid_idle c) (hid_active c) (hid_loading c) b (hid_redirectMode c) (hid_badge c)
  | els_redirectMode => mkHidden (hid_idle c) (hid_active c) (hid_loading c) (hid_frame c) b (hid_badge c)
  | els_badge => mkHidden (hid_idle c) (hid_active c) (hid_loading c) (hid_frame c) (hid_redirectMode c) b
  end.

(** The functions the scripts hand to [setTimeout] and [setInterval]:
    [() => showIdle()], the grace-period closure of the first version (it
    captures [formUrl]), and the poll function. *)
Inductive Callback :=
| cb_showIdle
| cb_grace (formUrl : string)
| cb_poll.

Inductive Kind := Inactivity | Grace | Poll.

Definition kind_of (cb : Callback) : Kind :=
  match cb with
  | cb_showIdle => Inactivity
  | cb_grace _ => Grace
  | cb_poll => Poll
  end.

#[global] Instance Kind_eq_dec : EqDecision Kind.
Proof. solve_decision. Defined.

(** A live timer: what to call, when it is due, and for an interval timer
    its period. *)
Record Timer := mkTimer {
  tm_callback : Callback;
  tm_due : Z;
  tm_every : option Z;
}.

(** The [onload] closures all capture the [itemId] they were created for. *)
Inductive Handler := onload_for (itemId : option string).

(** The embedding surface: the iframe. [src_writes] records every assignment
    [els.frame.src = url], most recent first; [frame_src] is the content
    attribute the assignments set and [removeAttribute] removes. *)
Record Surface := mkSurface {
  frame_src : option string;
  frame_onload : option Handler;
  src_writes : list string;
  frame_hidden : bool;
}.

Record Host := mkHost {
  hidden : Hidden;
  badge_text : string;
  frame_attr : option string;       (* the iframe's src attribute *)
  onload : option Handler;          (* els.frame.onload *)
  writes : list string;             (* assignments to els.frame.src *)
  link_href : option string;        (* els.openFormLink.href *)
  location_href : option string;    (* Some url once window.location.href was assigned *)
  timers : gmap positive Timer;     (* live timers by handle *)
  next_handle : positive;
  now : Z;
  inflight : nat;                   (* fetches issued and not yet settled *)
  resolve : string -> string;       (* the document's URL parser and serialiser *)
}.

Definition surface (h : Host) : Surface :=
  mkSurface (frame_attr h) (onload h) (writes h) (hid_frame (hidden h)).

Definition set_classes (c : Hidden) (h : Host) : Host :=
  mkHost c (badge_text h) (frame_attr h) (onload h) (writes h) (link_href h)
         (location_href h) (timers h) (next_handle h) (now h) (inflight h) (resolve h).

Definition set_badge_text (t : string) (h : Host) : Host :=
  mkHost (hidden h) t (frame_attr h) (onload h) (writes h) (link_href h)
         (location_href h) (timers h) (next_handle h) (now h) (inflight h) (resolve h).

(** [els.frame.src = url] *)
Definition assign_src (url : string) (h : Host) : Host :=
  mkHost (hidden h) (badge_text h) (Some url) (onload h) (url :: writes h) (link_href h)
         (location_href h) (timers h) (next_handle h) (now h) (inflight h) (resolve h).

(** Reading [els.frame.src]: the getter reflects the content attribute as a
    URL, that is, resolved against the document and serialised, and gives
    the empty string when the attribute is missing. *)
Definition get_src (h : Host) : string :=
  match frame_attr h with
  | Some url => resolve h url
  | None => EmptyString
  end.

(** The iframe is on [url]: the attribute holds [url] as it was assigned, or
    reads back as [url]. *)
Definition frame_shows (h : Host) (url : string) : Prop :=
  frame_attr h = Some url \/ get_src h = url.

(** [els.frame.removeAttribute("src")] *)
Definition removeAttribute_src (h : Host) : Host :=
  mkHost (hidden h) (badge_text h) None (onload h) (writes h) (link_href h)
         (location_href h) (timers h) (next_handle h) (now h) (inflight h) (resolve h).

(** [els.frame.onload = handler] *)
Definition set_onload (k : Handler) (h : Host) : Host :=
  mkHost (hidden h) (badge_text h) (frame_attr h) (Some k) (writes h) (link_href h)
         (location_href h) (timers h) (next_handle h) (now h) (inflight h) (resolve h).

(** [els.openFormLink.href = url] *)
Definition set_link_href (url : string) (h : Host) : Host :=
  mkHost (hidden h) (badge_text h) (frame_attr h) (onload h) (writes h) (Some url)
         (location_href h) (timers h) (next_handle h) (now h) (inflight h) (resolve h).

(** [window.location.href = url] *)
Definition navigate (url : string) (h : Host) : Host :=
  mkHost (hidden h) (badge_text h) (frame_attr h) (onload h) (writes h) (link_href h)
         (Some url) (timers h) (next_handle h) (now h) (inflight h) (resolve h).

Definition set_timers (ts : gmap positive Timer) (h : Host) : Host :=
  mkHost (hidden h) (badge_text h) (frame_attr h) (onload h) (writes h) (link_href h)
         (location_href h) ts (next_handle h) (now h) (inflight h) (resolve h).

Definition set_next_handle (n : positive) (h : Host) : Host :=
  mkHost (hidden h) (badge_text h) (frame_attr h) (onload h) (writes h) (link_href h)
         (location_href h) (timers h) n (now h) (inflight h) (resolve h).

Definition set_now (t : Z) (h : Host) : Host :=
  mkHost (hidden h) (badge_text h) (frame_attr h) (onload h) (writes h) (link_href h)
         (location_href h) (timers h) (next_handle h) t (inflight h) (resolve h).

Definition set_inflight (n : nat) (h : Host) : Host :=
  mkHost (hidden h) (badge_text h) (frame_attr h) (onload h) (writes h) (link_href h)
         (location_href h) (timers h) (next_handle h) (now h) n (resolve h).

(** [function show(el) { el.classList.remove("hidden"); }] *)
Definition show (e : Element) (h : Host) : Host :=
  set_classes (set_hidden e false (hidden h)) h.

(** [function hide(el) { el.classList.add("hidden"); }] *)
Definition hide (e : Element) (h : Host) : Host :=
  set_classes (set_hidden e true (hidden h)) h.

(** [setBadge]: the same in every version; [enabled] is
    [CONFIG.SHOW_DEBUG_BADGE]. *)
Definition setBadge (enabled : bool) (text : string) (h : Host) : Host :=
  if negb enabled then h
  else show els_badge (set_badge_text text h).

(** [setTimeout(cb, delay)]: the handle is a fresh positive integer. *)
Definition setTimeout (cb : Callback) (delay : Z) (h : Host) : positive * Host :=
  let id := next_handle h in
  (id, set_next_handle (id + 1)%positive
         (set_timers (<[id := mkTimer cb (now h + delay) None]> (timers h)) h)).

(** [setInterval(cb, period)] *)
Definition setInterval (cb : Callback) (period : Z) (h : Host) : positive * Host :=
  let id := next_handle h in
  (id, set_next_handle (id + 1)%positive
         (set_timers (<[id := mkTimer cb (now h + period) (Some period)]> (timers h)) h)).

(** [clearTimeout(id)] and [clearInterval(id)] *)
Definition clearTimeout (id : positive) (h : Host) : Host :=
  set_timers (delete id (timers h)) h.

Definition clearInterval (id : positive) (h : Host) : Host :=
  set_timers (delete id (timers h)) h.

(** [if (slot) clearTimeout(slot);] a handle is a positive integer, hence
    truthy; [null] is not. *)
Definition clear_if_set (slot : option positive) (h : Host) : Host :=
  match slot with
  | Some id => clearTimeout id h
  | None => h
  end.

(** The browser runs a due timer: a timeout leaves the table, an interval is
    scheduled again one period later. Gives the callback to run. *)
Definition fire (id : positive) (h : Host) : option (Callback * Host) :=
  match timers h !! id with
  | Some t =>
      if bool_decide (tm_due t <= now h) then
        Some (tm_callback t,
              match tm_every t with
              | None => set_timers (delete id (timers h)) h
              | Some p => set_timers (<[id := mkTimer (tm_callback t) (now h + p) (Some p)]> (timers h)) h
              end)
      else None
  | None => None
  end.

(** The page as the markup gives it to the script, with the way its
    document resolves and serialises URLs (it depends on the document's
    base URL). Neither is part of the sources, so every property below
    holds for any [Page]. *)
Record Page := mkPage {
  page_hidden : Hidden;
  page_badge_text : string;
  page_frame_src : option string;
  page_link_href : option string;
  page_time : Z;
  page_resolve : string -> string;
}.

Definition load (p : Page) : Host :=
  mkHost (page_hidden p) (page_badge_text p) (page_frame_src p) None [] (page_link_href p)
         None ∅ 1%positive (page_time p) 0%nat (page_resolve p).

(** ** Display state and session, as the spec names them *)

Inductive DisplayState := Idle | ActiveLoading | ActiveLoaded.

#[global] Instance DisplayState_eq_dec : EqDecision DisplayState.
Proof. solve_decision. Defined.

(** What the screen shows: the idle view when [els.idle] is not hidden;
    otherwise the active view, loading while the [els.loading] overlay is
    shown. *)
Definition displayState (h : Host) : DisplayState :=
  if negb (hid_idle (hidden h)) then Idle
  else if negb (hid_loading (hidden h)) then ActiveLoading
  else ActiveLoaded.

(** The session is the pair [(state.lastItemId, state.lastFormUrl)]. *)
Definition Session : Type := option string * option string.

Definition empty_session : Session := (None, None).

(** Events of the browser's event loop that reach the scripts. *)
Inductive Event :=
| Tick (dt : Z)                    (* time passes *)
| TimerFires (id : positive)       (* a due timer runs its callback *)
| FetchSettles (r : FetchResult)   (* a fetch in flight settles *)
| FrameLoads                       (* the iframe's load event *)
| VisibilityChanges (hidden_now : bool).

(** [state.lastItemId === itemId] for a slot holding [null] or a string. *)
Definition strict_eq (slot : option string) (v : string) : bool :=
  bool_decide (slot = Some v).

(** [pollLoop]/[pollOnce] up to its first [await]: the request leaves. *)
Definition issue_fetch (h : Host) : Host := set_inflight (S (inflight h)) h.

(** ** First version: src/script.js, lines 1-195 *)

Module Redirect.

Definition POLL_INTERVAL_MS : Z := 1000.
Definition ACTIVE_TIMEOUT_MS : Z := 120000.
Definition IFRAME_LOAD_GRACE_MS : Z := 2500.
Definition SHOW_DEBUG_BADGE : bool := true.

Record State := mkState {
  lastItemId : option string;
  lastFormUrl : option string;
  activeSince : option Z;
  activeTimer : option positive;
  iframeLoadTimer : option positive;
  redirecting : bool;
}.

Record World := mkWorld { state : State; host : Host }.

Definition initial_state : State := mkState None None None None None false.

Definition on_host (f : Host -> Host) (w : World) : World :=
  mkWorld (state w) (f (host w)).

Definition session (w : World) : Session :=
  (lastItemId (state w), lastFormUrl (state w)).

(** lines 59-82 *)
Definition showIdle (w : World) : World :=
  let s := state w in
  let h := host w in
  (* Clear timers *)
  let h := clear_if_set (activeTimer s) h in
  let h := clear_if_set (iframeLoadTimer s) h in
  (* Reset active UI, show idle screen *)
  let h := removeAttribute_src h in
  let h := hide els_frame h in
  let h := hide els_redirectMode h in
  let h := hide els_loading h in
  let h := show els_idle h in
  let h := hide els_active h in
  let h := if SHOW_DEBUG_BADGE then setBadge SHOW_DEBUG_BADGE "Idle" h else h in
  mkWorld (mkState None None None None None false) h.

(** lines 140-153 *)
Definition switchToRedirect (formUrl : string) (w : World) : World :=
  let s := state w in
  let h := host w in
  let h := hide els_frame h in
  let h := hide els_loading h in
  let h := show els_redirectMode h in
  let h := set_link_href formUrl h in
  let h := if SHOW_DEBUG_BADGE then setBadge SHOW_DEBUG_BADGE "Active (redirect)" h else h in
  (* Full takeover: navigate the tab to the form *)
  let h := navigate formUrl h in
  mkWorld (mkState (lastItemId s) (lastFormUrl s) (activeSince s)
                   (activeTimer s) (iframeLoadTimer s) true) h.

(** lines 84-138 *)
Definition showActive (formUrl itemId : string) (w : World) : World :=
  let s := state w in
  (* If already showing same form, do nothing (prevents flicker) *)
  if strict_eq (lastItemId s) itemId && strict_eq (lastFormUrl s) formUrl then w
  else
    let h := host w in
    let since := now h in
    let h := hide els_idle h in
    let h := show els_active h in
    let h := show els_loading h in
    let h := hide els_redirectMode h in
    (* Attempt iframe mode first *)
    let h := assign_src formUrl h in
    let h := show els_frame h in
    let h := clear_if_set (iframeLoadTimer s) h in
    let '(grace, h) := setTimeout (cb_grace formUrl) IFRAME_LOAD_GRACE_MS h in
    let h := set_onload (onload_for (Some itemId)) h in
    (* Local timeout back to idle *)
    let h := clear_if_set (activeTimer s) h in
    let '(alive, h) := setTimeout cb_showIdle ACTIVE_TIMEOUT_MS h in
    let h := if SHOW_DEBUG_BADGE
             then setBadge SHOW_DEBUG_BADGE ("Active (loading) • item " +:+ itemId) h
             else h in
    mkWorld (mkState (Some itemId) (Some formUrl) (Some since)
                     (Some alive) (Some grace) false) h.

(** The grace-period closure, lines 111-118. *)
Definition grace_callback (formUrl : string) (w : World) : World :=
  if negb (redirecting (state w)) then switchToRedirect formUrl w else w.

(** The [onload] closure, lines 122-129. *)
Definition frame_onload_handler (k : Handler) (w : World) : World :=
  let 'onload_for itemId := k in
  let s := state w in
  let h := hide els_loading (host w) in
  let h := if SHOW_DEBUG_BADGE
           then setBadge SHOW_DEBUG_BADGE ("Active (iframe) • item " +:+ interpolate itemId) h
           else h in
  match iframeLoadTimer s with
  | Some t =>
      mkWorld (mkState (lastItemId s) (lastFormUrl s) (activeSince s)
                       (activeTimer s) None (redirecting s))
              (clearTimeout t h)
  | None => mkWorld s h
  end.

(** lines 161-190, from the point where the fetch has settled with [r]. *)
Definition pollLoop (r : FetchResult) : Js.M World unit :=
  Js.try_catch
    (data <- Js.await (fetchActive r) ;;
     match data with
     | Some d =>
         if negb (active d) then Js.exec showIdle
         else
           let itemId := or_unknown (itemId d) in
           if negb (truthy (formUrl d)) then
             (Js.exec showIdle ;;
              Js.exec (on_host (fun h =>
                if SHOW_DEBUG_BADGE
                then setBadge SHOW_DEBUG_BADGE ("Idle (no formUrl) • item " +:+ itemId) h
                else h)))
           else Js.exec (showActive (default EmptyString (formUrl d)) itemId)
     | None => Js.exec showIdle
     end)%js
    (fun err =>
       (* On errors, stay idle (safe default). Keep polling. *)
       Js.exec showIdle ;;
       Js.exec (on_host (fun h =>
         if SHOW_DEBUG_BADGE then setBadge SHOW_DEBUG_BADGE "Idle (fetch error)" h else h)))%js.

(** lines 192-195: [showIdle(); setInterval(pollLoop, ...); pollLoop();] *)
Definition startup (p : Page) : World :=
  let w := showIdle (mkWorld initial_state (load p)) in
  let '(_, h) := setInterval cb_poll POLL_INTERVAL_MS (host w) in
  mkWorld (state w) (issue_fetch h).

Definition run_callback (cb : Callback) (w : World) : World :=
  match cb with
  | cb_showIdle => showIdle w
  | cb_grace formUrl => grace_callback formUrl w
  | cb_poll => on_host issue_fetch w
  end.

(** One turn of the event loop. Once the tab has been sent to another
    address no event reaches the script any more. *)
Definition step (ev : Event) (w : World) : option World :=
  match location_href (host w) with
  | Some _ => None
  | None =>
      match ev with
      | Tick dt =>
          if bool_decide (0 <= dt) then Some (on_host (fun h => set_now (now h + dt) h) w)
          else None
      | TimerFires id =>
          match fire id (host w) with
          | Some (cb, h) => Some (run_callback cb (mkWorld (state w) h))
          | None => None
          end
      | FetchSettles r =>
          match inflight (host w) with
          | S n => Some (snd (pollLoop r (on_host (set_inflight n) w)))
          | O => None
          end
      | FrameLoads =>
          match onload (host w) with
          | Some k => Some (frame_onload_handler k w)
          | None => Some w
          end
      | VisibilityChanges _ => Some w
      end
  end.

End Redirect.

(** ** Second version: src/script.js, lines 196-326 *)

Module IframeOnly.

Definition POLL_INTERVAL_MS : Z := 1000.
Definition ACTIVE_TIMEOUT_MS : Z := 120000.
Definition SHOW_DEBUG_BADGE : bool := true.

Record State := mkState {
  lastItemId : option string;
  lastFormUrl : option string;
  activeTimer : option positive;
}.

Record World := mkWorld { state : State; host : Host }.

Definition initial_state : State := mkState None None None.

Definition on_host (f : Host -> Host) (w : World) : World :=
  mkWorld (state w) (f (host w)).

Definition session (w : World) : Session :=
  (lastItemId (state w), lastFormUrl (state w)).

(** lines 238-243 *)
Definition resetActiveTimer (w : World) : World :=
  let s := state w in
  let h := clear_if_set (activeTimer s) (host w) in
  let '(t, h) := setTimeout cb_showIdle ACTIVE_TIMEOUT_MS h in
  mkWorld (mkState (lastItemId s) (lastFormUrl s) (Some t)) h.

(** lines 245-260 *)
Definition showIdle (w : World) : World :=
  let h := clear_if_set (activeTimer (state w)) (host w) in
  let h := removeAttribute_src h in
  let h := hide els_frame h in
  let h := hide els_loading h in
  let h := show els_idle h in
  let h := hide els_active h in
  let h := setBadge SHOW_DEBUG_BADGE "Idle" h in
  mkWorld (mkState None None None) h.

(** lines 262-288 *)
Definition showActive (formUrl itemId : string) (w : World) : World :=
  let s := state w in
  (* Prevent flicker / reload if same form is already displayed *)
  if strict_eq (lastItemId s) itemId && strict_eq (lastFormUrl s) formUrl
  then resetActiveTimer w
  else
    let h := host w in
    let h := hide els_idle h in
    let h := show els_active h in
    (* Show loading until iframe fires onload *)
    let h := show els_loading h in
    let h := set_onload (onload_for (Some itemId)) h in
    let h := assign_src formUrl h in
    let h := show els_frame h in
    let w := resetActiveTimer (mkWorld (mkState (Some itemId) (Some formUrl) (activeTimer s)) h) in
    on_host (setBadge SHOW_DEBUG_BADGE ("Active (loading) • item " +:+ itemId)) w.

(** The [onload] closure, lines 278-281. *)
Definition frame_onload_handler (k : Handler) (w : World) : World :=
  let 'onload_for itemId := k in
  on_host (fun h => setBadge SHOW_DEBUG_BADGE ("Active • item " +:+ interpolate itemId)
                      (hide els_loading h)) w.

(** lines 296-321, from the point where the fetch has settled with [r]. *)
Definition pollOnce (r : FetchResult) : Js.M World unit :=
  Js.try_catch
    (data <- Js.await (fetchActive r) ;;
     match data with
     | Some d =>
         if negb (active d) then Js.exec showIdle
         else
           let itemId := or_unknown (itemId d) in
           if negb (truthy (formUrl d)) then
             (* Safe default: idle if we can't load a form *)
             (Js.exec showIdle ;;
              Js.exec (on_host (setBadge SHOW_DEBUG_BADGE ("Idle (no formUrl) • item " +:+ itemId))))
           else Js.exec (showActive (default EmptyString (formUrl d)) itemId)
     | None => Js.exec showIdle
     end)%js
    (fun err =>
       Js.exec showIdle ;;
       Js.exec (on_host (setBadge SHOW_DEBUG_BADGE "Idle (fetch error)")))%js.

(** lines 323-326: [showIdle(); setInterval(pollOnce, ...); pollOnce();] *)
Definition startup (p : Page) : World :=
  let w := showIdle (mkWorld initial_state (load p)) in
  let '(_, h) := setInterval cb_poll POLL_INTERVAL_MS (host w) in
  mkWorld (state w) (issue_fetch h).

Definition run_callback (cb : Callback) (w : World) : World :=
  match cb with
  | cb_showIdle => showIdle w
  | cb_grace _ => w
  | cb_poll => on_host issue_fetch w
  end.

Definition step (ev : Event) (w : World) : option World :=
  match ev with
  | Tick dt =>
      if bool_decide (0 <= dt) then Some (on_host (fun h => set_now (now h + dt) h) w)
      else None
  | TimerFires id =>
      match fire id (host w) with
      | Some (cb, h) => Some (run_callback cb (mkWorld (state w) h))
      | None => None
      end
  | FetchSettles r =>
      match inflight (host w) with
      | S n => Some (snd (pollOnce r (on_host (set_inflight n) w)))
      | O => None
      end
  | FrameLoads =>
      match onload (host w) with
      | Some k => Some (frame_onload_handler k w)
      | None => Some w
      end
  | VisibilityChanges _ => Some w
  end.

End IframeOnly.

(** ** Third version: src/unnamed/part_000 *)

Module Adaptive.

Definition IDLE_POLL_MS : Z := 3000.
Definition ACTIVE_POLL_MS : Z := 500.
Definition ACTIVE_TIMEOUT_MS : Z := 120000.
Definition SHOW_DEBUG_BADGE : bool := true.

Record State := mkState {
  lastItemId : option string;
  lastFormUrl : option string;
  activeTimer : option positive;
  pollTimer : option positive;
  currentPollMs : Z;
  isActive : bool;
}.

Record World := mkWorld { state : State; host : Host }.

Definition initial_state : State := mkState None None None None IDLE_POLL_MS false.

Definition on_host (f : Host -> Host) (w : World) : World :=
  mkWorld (state w) (f (host w)).

Definition session (w : World) : Session :=
  (lastItemId (state w), lastFormUrl (state w)).

(** lines 47-51 *)
Definition startPolling (interval : Z) (w : World) : World :=
  let s := state w in
  let h := match pollTimer s with
           | Some t => clearInterval t (host w)
           | None => host w
           end in
  let '(t, h) := setInterval cb_poll interval h in
  mkWorld (mkState (lastItemId s) (lastFormUrl s) (activeTimer s)
                   (Some t) interval (isActive s)) h.

(** lines 53-56 *)
Definition stopPolling (w : World) : World :=
  let s := state w in
  let h := match pollTimer s with
           | Some t => clearInterval t (host w)
           | None => host w
           end in
  mkWorld (mkState (lastItemId s) (lastFormUrl s) (activeTimer s)
                   None (currentPollMs s) (isActive s)) h.

(** lines 58-63 *)
Definition resetActiveTimer (w : World) : World :=
  let s := state w in
  let h := clear_if_set (activeTimer s) (host w) in
  let '(t, h) := setTimeout cb_showIdle ACTIVE_TIMEOUT_MS h in
  mkWorld (mkState (lastItemId s) (lastFormUrl s) (Some t)
                   (pollTimer s) (currentPollMs s) (isActive s)) h.

(** lines 65-84 *)
Definition showIdle (w : World) : World :=
  let s := state w in
  if negb (isActive s) && negb (contains_hidden els_idle (hidden (host w))) then w
  else
    let h := clear_if_set (activeTimer s) (host w) in
    (* Do NOT destroy iframe, just hide it (keeps it warm) *)
    let h := hide els_frame h in
    let h := hide els_loading h in
    let h := show els_idle h in
    let h := hide els_active h in
    let h := setBadge SHOW_DEBUG_BADGE "Idle" h in
    startPolling IDLE_POLL_MS
      (mkWorld (mkState None None None (pollTimer s) (currentPollMs s) false) h).

(** lines 86-117 *)
Definition showActive (formUrl itemId : string) (w : World) : World :=
  let s := state w in
  (* If same form already showing, just keep timers alive *)
  if isActive s && strict_eq (lastItemId s) itemId && strict_eq (lastFormUrl s) formUrl
  then resetActiveTimer w
  else
    let h := host w in
    let h := hide els_idle h in
    let h := show els_active h in
    let h := show els_loading h in
    let h := set_onload (onload_for (Some itemId)) h in
    (* Only update src if it changed *)
    let h := if negb (bool_decide (get_src h = formUrl)) then assign_src formUrl h else h in
    let h := show els_frame h in
    let w := mkWorld (mkState (Some itemId) (Some formUrl) (activeTimer s)
                              (pollTimer s) (currentPollMs s) true) h in
    let w := resetActiveTimer w in
    let w := startPolling ACTIVE_POLL_MS w in
    on_host (setBadge SHOW_DEBUG_BADGE ("Active (loading) • " +:+ itemId)) w.

(** The [onload] closure, lines 102-105. *)
Definition frame_onload_handler (k : Handler) (w : World) : World :=
  let 'onload_for itemId := k in
  on_host (fun h => setBadge SHOW_DEBUG_BADGE ("Active • " +:+ interpolate itemId)
                      (hide els_loading h)) w.

(** lines 125-150, from the point where the fetch has settled with [r]. *)
Definition pollOnce (r : FetchResult) : Js.M World unit :=
  Js.try_catch
    (data <- Js.await (fetchActive r) ;;
     match data with
     | Some d =>
         if negb (active d) then Js.exec showIdle
         else
           let itemId := or_unknown (itemId d) in
           if negb (truthy (formUrl d)) then
             (* If active but no formUrl yet, stay idle visually *)
             (Js.exec showIdle ;;
              Js.exec (on_host (setBadge SHOW_DEBUG_BADGE ("Idle (waiting for form) • " +:+ itemId))))
           else Js.exec (showActive (default EmptyString (formUrl d)) itemId)
     | None => Js.exec showIdle
     end)%js
    (fun err =>
       Js.exec showIdle ;;
       Js.exec (on_host (setBadge SHOW_DEBUG_BADGE "Idle (fetch error)")))%js.

(** The [visibilitychange] listener, lines 153-159. *)
Definition on_visibilitychange (document_hidden : bool) (w : World) : World :=
  if document_hidden then stopPolling w
  else startPolling (if isActive (state w) then ACTIVE_POLL_MS else IDLE_POLL_MS) w.

(** lines 161-164: [showIdle(); startPolling(CONFIG.IDLE_POLL_MS); pollOnce();] *)
Definition startup (p : Page) : World :=
  let w := showIdle (mkWorld initial_state (load p)) in
  let w := startPolling IDLE_POLL_MS w in
  on_host issue_fetch w.

Definition run_callback (cb : Callback) (w : World) : World :=
  match cb with
  | cb_showIdle => showIdle w
  | cb_grace _ => w
  | cb_poll => on_host issue_fetch w
  end.

Definition step (ev : Event) (w : World) : option World :=
  match ev with
  | Tick dt =>
      if bool_decide (0 <= dt) then Some (on_host (fun h => set_now (now h + dt) h) w)
      else None
  | TimerFires id =>
      match fire id (host w) with
      | Some (cb, h) => Some (run_callback cb (mkWorld (state w) h))
      | None => None
      end
  | FetchSettles r =>
      match inflight (host w) with
      | S n => Some (snd (pollOnce r (on_host (set_inflight n) w)))
      | O => None
      end
  | FrameLoads =>
      match onload (host w) with
      | Some k => Some (frame_onload_handler k w)
      | None => Some w
      end
  | VisibilityChanges document_hidden => Some (on_visibilitychange document_hidden w)
  end.

End Adaptive.

(** ** Fourth version: src/unnamed/part_001 *)

Module FastMode.

Definition IDLE_POLL_MS : Z := 1000.
Definition ACTIVE_POLL_MS : Z := 500.
Definition ACTIVE_TIMEOUT_MS : Z := 120000.
Definition SHOW_DEBUG_BADGE : bool := true.

Record State := mkState {
  lastItemId : option string;
  lastFormUrl : option string;
  activeTimer : option positive;
  pollTimer : option positive;
  currentPollMs : Z;
  isActive : bool;
}.

Record World := mkWorld { state : State; host : Host }.

Definition initial_state : State := mkState None None None None IDLE_POLL_MS false.

Definition on_host (f : Host -> Host) (w : World) : World :=
  mkWorld (state w) (f (host w)).

Definition session (w : World) : Session :=
  (lastItemId (state w), lastFormUrl (state w)).

(** lines 45-49 *)
Definition startPolling (interval : Z) (w : World) : World :=
  let s := state w in
  let h := match pollTimer s with
           | Some t => clearInterval t (host w)
           | None => host w
           end in
  let '(t, h) := setInterval cb_poll interval h in
  mkWorld (mkState (lastItemId s) (lastFormUrl s) (activeTimer s)
                   (Some t) interval (isActive s)) h.

(** lines 51-54 *)
Definition stopPolling (w : World) : World :=
  let s := state w in
  let h := match pollTimer s with
           | Some t => clearInterval t (host w)
           | None => host w
           end in
  mkWorld (mkState (lastItemId s) (lastFormUrl s) (activeTimer s)
                   None (currentPollMs s) (isActive s)) h.

(** lines 56-61 *)
Definition resetActiveTimer (w : World) : World :=
  let s := state w in
  let h := clear_if_set (activeTimer s) (host w) in
  let '(t, h) := setTimeout cb_showIdle ACTIVE_TIMEOUT_MS h in
  mkWorld (mkState (lastItemId s) (lastFormUrl s) (Some t)
                   (pollTimer s) (currentPollMs s) (isActive s)) h.

(** lines 63-77; the timer handle is cleared but stays in [state]. *)
Definition showIdle (w : World) : World :=
  let s := state w in
  let w :=
    (* Only update UI if we are actually changing states *)
    if isActive s then
      let h := clear_if_set (activeTimer s) (host w) in
      let h := hide els_frame h in
      let h := hide els_loading h in
      let h := show els_idle h in
      let h := hide els_active h in
      startPolling IDLE_POLL_MS
        (mkWorld (mkState None None (activeTimer s) (pollTimer s) (currentPollMs s) false) h)
    else w in
  on_host (setBadge SHOW_DEBUG_BADGE "Idle (Waiting for Monday.com)") w.

(** lines 79-114; both arguments come straight from the record and may be
    missing. *)
Definition showActive (formUrl itemId : option string) (w : World) : World :=
  let s := state w in
  let s := mkState (lastItemId s) (lastFormUrl s) (activeTimer s)
                   (pollTimer s) (currentPollMs s) true in
  let h := host w in
  let w :=
    if truthy formUrl then
      (* If we have the URL, show the frame *)
      if negb (bool_decide (lastFormUrl s = formUrl)) then
        let h := hide els_idle h in
        let h := show els_active h in
        let h := show els_loading h in
        let h := set_onload (onload_for itemId) h in
        let h := if negb (bool_decide (Some (get_src h) = formUrl))
                 then assign_src (default EmptyString formUrl) h else h in
        let h := show els_frame h in
        mkWorld (mkState itemId formUrl (activeTimer s)
                         (pollTimer s) (currentPollMs s) true) h
      else mkWorld s h
    else
      (* We are ACTIVE but waiting for the URL (the "loading" phase) *)
      let h := hide els_idle h in
      let h := show els_active h in
      let h := show els_loading h in
      let h := setBadge SHOW_DEBUG_BADGE
                 ("Triggered! Fetching URL... • " +:+ interpolate itemId) h in
      mkWorld s h in
  let w := resetActiveTimer w in
  (* Switch to FAST polling because the data is changing *)
  if negb (bool_decide (currentPollMs (state w) = ACTIVE_POLL_MS))
  then startPolling ACTIVE_POLL_MS w
  else w.

(** The [onload] closure, lines 91-94. *)
Definition frame_onload_handler (k : Handler) (w : World) : World :=
  let 'onload_for itemId := k in
  on_host (fun h => setBadge SHOW_DEBUG_BADGE ("Active • " +:+ interpolate itemId)
                      (hide els_loading h)) w.

(** lines 116-138, from the point where the fetch has settled with [r]. *)
Definition pollOnce (r : FetchResult) : Js.M World unit :=
  Js.try_catch
    (data <- Js.await (fetchActive r) ;;
     (* If active property is true (even if formUrl is still null) *)
     match data with
     | Some d =>
         if active d then Js.exec (showActive (formUrl d) (itemId d))
         else Js.exec showIdle
     | None => Js.exec showIdle
     end)%js
    (fun err =>
       Js.exec (on_host (setBadge SHOW_DEBUG_BADGE "Connection Error - Retrying..."))).

(** The [visibilitychange] listener, lines 140-146. *)
Definition on_visibilitychange (document_hidden : bool) (w : World) : World :=
  if document_hidden then stopPolling w
  else startPolling (if isActive (state w) then ACTIVE_POLL_MS else IDLE_POLL_MS) w.

(** lines 148-151: [state.isActive = true; showIdle(); pollOnce();] *)
Definition startup (p : Page) : World :=
  let s := initial_state in
  let s := mkState (lastItemId s) (lastFormUrl s) (activeTimer s)
                   (pollTimer s) (currentPollMs s) true in
  let w := showIdle (mkWorld s (load p)) in
  on_host issue_fetch w.

Definition run_callback (cb : Callback) (w : World) : World :=
  match cb with
  | cb_showIdle => showIdle w
  | cb_grace _ => w
  | cb_poll => on_host issue_fetch w
  end.

Definition step (ev : Event) (w : World) : option World :=
  match ev with
  | Tick dt =>
      if bool_decide (0 <= dt) then Some (on_host (fun h => set_now (now h + dt) h) w)
      else None
  | TimerFires id =>
      match fire id (host w) with
      | Some (cb, h) => Some (run_callback cb (mkWorld (state w) h))
      | None => None
      end
  | FetchSettles r =>
      match inflight (host w) with
      | S n => Some (snd (pollOnce r (on_host (set_inflight n) w)))
      | O => None
      end
  | FrameLoads =>
      match onload (host w) with
      | Some k => Some (frame_onload_handler k w)
      | None => Some w
      end
  | VisibilityChanges document_hidden => Some (on_visibilitychange document_hidden w)
  end.

End FastMode.

(** ** The four versions behind one interface *)

Inductive Version := redirect | iframe_only | adaptive | fast_mode.

Record Kiosk := mkKiosk {
  world : Type;
  host_of : world -> Host;
  session_of : world -> Session;
  (** [state.activeTimer] *)
  alive_slot : world -> option positive;
  (** the [itemId] a record is accepted with *)
  accepted_id : option string -> option string;
  (** what the script does when a fetch settles *)
  poll : FetchResult -> Js.M world unit;
  (** the inactivity timer's callback *)
  on_timeout : world -> world;
  step_of : Event -> world -> option world;
  boot : Page -> world;
  inactivityTimeoutMs : Z;
  idlePollIntervalMs : Z;
  activePollIntervalMs : Z;
}.

Definition kiosk (v : Version) : Kiosk :=
  match v with
  | redirect =>
      mkKiosk Redirect.World Redirect.host Redirect.session
        (fun w => Redirect.activeTimer (Redirect.state w))
        (fun i => Some (or_unknown i))
        Redirect.pollLoop Redirect.showIdle Redirect.step Redirect.startup
        Redirect.ACTIVE_TIMEOUT_MS Redirect.POLL_INTERVAL_MS Redirect.POLL_INTERVAL_MS
  | iframe_only =>
      mkKiosk IframeOnly.World IframeOnly.host IframeOnly.session
        (fun w => IframeOnly.activeTimer (IframeOnly.state w))
        (fun i => Some (or_unknown i))
        IframeOnly.pollOnce IframeOnly.showIdle IframeOnly.step IframeOnly.startup
        IframeOnly.ACTIVE_TIMEOUT_MS IframeOnly.POLL_INTERVAL_MS IframeOnly.POLL_INTERVAL_MS
  | adaptive =>
      mkKiosk Adaptive.World Adaptive.host Adaptive.session
        (fun w => Adaptive.activeTimer (Adaptive.state w))
        (fun i => Some (or_unknown i))
        Adaptive.pollOnce Adaptive.showIdle Adaptive.step Adaptive.startup
        Adaptive.ACTIVE_TIMEOUT_MS Adaptive.IDLE_POLL_MS Adaptive.ACTIVE_POLL_MS
  | fast_mode =>
      mkKiosk FastMode.World FastMode.host FastMode.session
        (fun w => FastMode.activeTimer (FastMode.state w))
        (fun i => i)
        FastMode.pollOnce FastMode.showIdle FastMode.step FastMode.startup
        FastMode.ACTIVE_TIMEOUT_MS FastMode.IDLE_POLL_MS FastMode.ACTIVE_POLL_MS
  end.

Fixpoint run (K : Kiosk) (evs : list Event) (w : world K) : option (world K) :=
  match evs with
  | [] => Some w
  | ev :: evs' =>
      match step_of K ev w with
      | Some w' => run K evs' w'
      | None => None
      end
  end.

(** The states the loop can be in: those some sequence of events leads to
    from the start of the script on some page. *)
Definition reachable (K : Kiosk) (w : world K) : Prop :=
  exists p evs, run K evs (boot K p) = Some w.

(** The world a poll cycle leaves behind. *)
Definition after_poll (K : Kiosk) (r : FetchResult) (w : world K) : world K :=
  snd (poll K r w).

Definition display (K : Kiosk) (w : world K) : DisplayState :=
  displayState (host_of K w).

(** The fetch fails: transport error, non-success status, or a body that
    does not parse. *)
Definition fetch_fails (r : FetchResult) : Prop :=
  exists e, fetchActive r = inl e.

(** The fetch gives no record, or a record with [active = false]. *)
Definition reports_inactive (r : FetchResult) : Prop :=
  fetchActive r = inr None \/
  exists d, fetchActive r = inr (Some d) /\ active d = false.

(** The fetch gives the active record [d], which carries a URL. *)
Definition reports_active (r : FetchResult) (d : StatusRecord) : Prop :=
  fetchActive r = inr (Some d) /\ active d = true /\ truthy (formUrl d) = true.

(** The fetch gives an active record without URL. *)
Definition reports_active_without_url (r : FetchResult) : Prop :=
  exists d, fetchActive r = inr (Some d) /\ active d = true /\ truthy (formUrl d) = false.

(** The session a record stands for. *)
Definition session_of_record (K : Kiosk) (d : StatusRecord) : Session :=
  (accepted_id K (itemId d), formUrl d).

(** Live timers of a kind. *)
Definition live (K : Kiosk) (w : world K) (k : Kind) (id : positive) (t : Timer) : Prop :=
  timers (host_of K w) !! id = Some t /\ kind_of (tm_callback t) = k.

Definition terminated (K : Kiosk) (w : world K) : Prop :=
  forall ev, step_of K ev w = None.

(** What an onlooker and the browser can tell apart, the debug badge and the
    clock left out. *)
Definition observable (K : Kiosk) (w : world K)
  : DisplayState * Session * Surface * gmap positive Timer :=
  (display K w, session_of K w, surface (host_of K w), timers (host_of K w)).

(** ** Invariants of the timer table *)

(** Every live handle has been handed out. *)
Definition fresh_tbl (tm : gmap positive Timer) (n : positive) : Prop :=
  forall id t, tm !! id = Some t -> (id < n)%positive.

(** The live timers of kind [k] are those, if any, whose handle sits in
    [slot]; a handle in [slot] has been handed out. *)
Definition keyed_tbl (k : Kind) (slot : option positive)
    (tm : gmap positive Timer) (n : positive) : Prop :=
  (forall id, slot = Some id -> (id < n)%positive) /\
  (forall id t, tm !! id = Some t ->
     (kind_of (tm_callback t) = k <-> slot = Some id)).

(** Timeouts are one-shot, the poll timer is an interval of period [c]. *)
Definition timed (c : Z) (t : Timer) : Prop :=
  match tm_callback t with
  | cb_poll => tm_every t = Some c
  | _ => tm_every t = None
  end.

Definition timed_tbl (c : Z) (tm : gmap positive Timer) : Prop :=
  forall id t, tm !! id = Some t -> timed c t.

Definition handles_fresh (h : Host) : Prop := fresh_tbl (timers h) (next_handle h).

Definition keyed (k : Kind) (slot : option positive) (h : Host) : Prop :=
  keyed_tbl k slot (timers h) (next_handle h).

(** ** Invariants of the four loops *)

Record Redirect_Inv (w : Redirect.World) : Prop := {
  rd_fresh : handles_fresh (Redirect.host w);
  rd_alive : keyed Inactivity (Redirect.activeTimer (Redirect.state w)) (Redirect.host w);
  rd_grace : keyed Grace (Redirect.iframeLoadTimer (Redirect.state w)) (Redirect.host w);
  rd_poll : keyed Poll (Some 1%positive) (Redirect.host w);
  rd_poll_live : is_Some (timers (Redirect.host w) !! 1%positive);
  rd_timed : timed_tbl Redirect.POLL_INTERVAL_MS (timers (Redirect.host w));
  rd_view :
    hid_active (hidden (Redirect.host w)) = negb (hid_idle (hidden (Redirect.host w)));
  rd_idle :
    hid_idle (hidden (Redirect.host w)) = false ->
    Redirect.state w = Redirect.initial_state /\
    frame_attr (Redirect.host w) = None /\
    hid_frame (hidden (Redirect.host w)) = true;
  rd_session :
    hid_idle (hidden (Redirect.host w)) = true ->
    exists i u, Redirect.session w = (Some i, Some u);
  rd_redirecting :
    Redirect.redirecting (Redirect.state w) = true ->
    is_Some (location_href (Redirect.host w));
  rd_grace_url :
    forall g t,
      Redirect.iframeLoadTimer (Redirect.state w) = Some g ->
      timers (Redirect.host w) !! g = Some t ->
      exists u since,
        Redirect.lastFormUrl (Redirect.state w) = Some u /\
        Redirect.activeSince (Redirect.state w) = Some since /\
        t = mkTimer (cb_grace u) (since + Redirect.IFRAME_LOAD_GRACE_MS) None;
}.

Record IframeOnly_Inv (w : IframeOnly.World) : Prop := {
  io_fresh : handles_fresh (IframeOnly.host w);
  io_alive : keyed Inactivity (IframeOnly.activeTimer (IframeOnly.state w)) (IframeOnly.host w);
  io_poll : keyed Poll (Some 1%positive) (IframeOnly.host w);
  io_poll_live : is_Some (timers (IframeOnly.host w) !! 1%positive);
  io_timed : timed_tbl IframeOnly.POLL_INTERVAL_MS (timers (IframeOnly.host w));
  io_view :
    hid_active (hidden (IframeOnly.host w)) = negb (hid_idle (hidden (IframeOnly.host w)));
  io_idle :
    hid_idle (hidden (IframeOnly.host w)) = false ->
    IframeOnly.state w = IframeOnly.initial_state /\
    frame_attr (IframeOnly.host w) = None /\
    hid_frame (hidden (IframeOnly.host w)) = true;
  io_session :
    hid_idle (hidden (IframeOnly.host w)) = true ->
    exists i u, IframeOnly.session w = (Some i, Some u);
}.

Record Adaptive_Inv (w : Adaptive.World) : Prop := {
  ad_fresh : handles_fresh (Adaptive.host w);
  ad_alive : keyed Inactivity (Adaptive.activeTimer (Adaptive.state w)) (Adaptive.host w);
  ad_poll : keyed Poll (Adaptive.pollTimer (Adaptive.state w)) (Adaptive.host w);
  ad_timed :
    timed_tbl (if Adaptive.isActive (Adaptive.state w)
               then Adaptive.ACTIVE_POLL_MS else Adaptive.IDLE_POLL_MS)
              (timers (Adaptive.host w));
  ad_view : hid_idle (hidden (Adaptive.host w)) = Adaptive.isActive (Adaptive.state w);
  ad_idle :
    Adaptive.isActive (Adaptive.state w) = false ->
    Adaptive.session w = empty_session /\ Adaptive.activeTimer (Adaptive.state w) = None;
  ad_session :
    Adaptive.isActive (Adaptive.state w) = true ->
    exists i u, Adaptive.session w = (Some i, Some u) /\
                frame_shows (Adaptive.host w) u;
}.

Record FastMode_Inv (w : FastMode.World) : Prop := {
  fm_fresh : handles_fresh (FastMode.host w);
  fm_alive : keyed Inactivity (FastMode.activeTimer (FastMode.state w)) (FastMode.host w);
  fm_poll : keyed Poll (FastMode.pollTimer (FastMode.state w)) (FastMode.host w);
  fm_timed : timed_tbl (FastMode.currentPollMs (FastMode.state w)) (timers (FastMode.host w));
  fm_cadence :
    FastMode.currentPollMs (FastMode.state w) =
    if FastMode.isActive (FastMode.state w)
    then FastMode.ACTIVE_POLL_MS else FastMode.IDLE_POLL_MS;
  fm_view : hid_idle (hidden (FastMode.host w)) = FastMode.isActive (FastMode.state w);
  fm_active : hid_active (hidden (FastMode.host w)) = negb (FastMode.isActive (FastMode.state w));
  fm_idle :
    FastMode.isActive (FastMode.state w) = false ->
    FastMode.session w = empty_session /\ keyed Inactivity None (FastMode.host w);
  fm_warm :
    forall u, FastMode.lastFormUrl (FastMode.state w) = Some u ->
              frame_shows (FastMode.host w) u;
}.

Definition Inv (v : Version) : world (kiosk v) -> Prop :=
  match v with
  | redirect => Redirect_Inv
  | iframe_only => IframeOnly_Inv
  | adaptive => Adaptive_Inv
  | fast_mode => FastMode_Inv
  end.

(** The world a list of events leads to from the start of the script on page
    [p]; the start itself if some event is not enabled. *)
Definition replay (K : Kiosk) (evs : list Event) (p : Page) : world K :=
  default (boot K p) (run K evs (boot K p)).

(** The resolver of the example pages. It does what the URL standard does on
    the URLs the examples use: an absolute URL with a path is in serialised
    form already, and the origin ["https://x"] serialises with the path
    ["/"]. *)
Definition example_resolve (url : string) : string :=
  if bool_decide (url = "https://x"%string) then "https://x/"%string else url.

(** A page whose markup shows the idle view, loaded at time 0. *)
Definition blank_page : Page :=
  mkPage (mkHidden false true true true true true) EmptyString None None 0 example_resolve.

Definition answer (d : StatusRecord) : FetchResult := HttpResponse 200 (JsonValue (Some d)).

Definition form_f : StatusRecord := mkStatus true (Some "42") (Some "https://x/f").
Definition form_g : StatusRecord := mkStatus true (Some "43") (Some "https://x/g").
Definition inactive_record : StatusRecord := mkStatus false None None.
Definition active_without_url : StatusRecord := mkStatus true (Some "42") None.

(** Versions that keep the iframe's content when they go idle. *)
Definition keeps_frame_warm (v : Version) : bool :=
  match v with
  | adaptive | fast_mode => true
  | _ => false
  end.

(** Worlds used as examples: each version after its first poll found the
    form [form_f] active, half a second or a second later, with the next
    poll on its way. *)
Definition first_form_shown (v : Version) : world (kiosk v) :=
  replay (kiosk v) [FetchSettles (answer form_f)] blank_page.

Definition redirect_polling_again : world (kiosk redirect) :=
  replay (kiosk redirect)
    [FetchSettles (answer form_f); Tick 1000; TimerFires 1%positive] blank_page.

(** The third version after a session for [form_f] has ended. *)
Definition adaptive_back_to_idle : world (kiosk adaptive) :=
  replay (kiosk adaptive)
    [FetchSettles (answer form_f); Tick 500; TimerFires 3%positive;
     FetchSettles (answer inactive_record); Tick 3000; TimerFires 4%positive] blank_page.

(** The fourth version after an active record without URL. *)
Definition fast_mode_waiting_for_url : world (kiosk fast_mode) :=
  replay (kiosk fast_mode) [FetchSettles (answer active_without_url)] blank_page.

(** A fetch settling is the one event that brings a poll response. *)
Definition brings_response (ev : Event) : bool :=
  match ev with
  | FetchSettles _ => true
  | _ => false
  end.

(** The world when the script has been read and its last three statements
    are about to run: [state] as its literal gives it (in the fourth
    version with [isActive] just set to [true]) on the page as loaded. *)
Definition script_loaded (v : Version) (p : Page) : world (kiosk v) :=
  match v with
  | redirect => Redirect.mkWorld Redirect.initial_state (load p)
  | iframe_only => IframeOnly.mkWorld IframeOnly.initial_state (load p)
  | adaptive => Adaptive.mkWorld Adaptive.initial_state (load p)
  | fast_mode =>
      FastMode.mkWorld (FastMode.mkState None None None None FastMode.IDLE_POLL_MS true) (load p)
  end.

(** The third version two minutes after its first poll found [form_f]
    active, with no poll answered since. *)
Definition adaptive_form_left_alone : world (kiosk adaptive) :=
  replay (kiosk adaptive) [FetchSettles (answer form_f); Tick 120000] blank_page.

(** The first version five seconds after it assigned [form_f]'s URL to the
    iframe, which has not loaded. *)
Definition redirect_frame_stalled : world (kiosk redirect) :=
  replay (kiosk redirect) [FetchSettles (answer form_f); Tick 5000] blank_page.

(** Two records for the same form, its URL given as an origin and in
    serialised form. *)
Definition form_x : StatusRecord := mkStatus true (Some "42") (Some "https://x").
Definition form_x_slash : StatusRecord := mkStatus true (Some "42") (Some "https://x/").

(** The third version after its first poll found [form_x] active. *)
Definition adaptive_origin_shown : world (kiosk adaptive) :=
  replay (kiosk adaptive) [FetchSettles (answer form_x)] blank_page.

(** Versions that listen to [visibilitychange]. *)
Definition pauses_when_hidden (v : Version) : bool :=
  match v with
  | adaptive | fast_mode => true
  | _ => false
  end.

(** The third version with [form_f] on screen, the tab hidden since, two
    minutes on. *)
Definition adaptive_hidden_and_left_alone : world (kiosk adaptive) :=
  replay (kiosk adaptive)
    [FetchSettles (answer form_f); VisibilityChanges true; Tick 120000] blank_page.


(** What a poll cycle comes down to, by what the fetch settled with. *)
Definition redirect_cycle (r : FetchResult) (w : Redirect.World) : Redirect.World :=
  match fetchActive r with
  | inl _ =>
      Redirect.on_host (setBadge Redirect.SHOW_DEBUG_BADGE "Idle (fetch error)")
        (Redirect.showIdle w)
  | inr None => Redirect.showIdle w
  | inr (Some d) =>
      if negb (active d) then Redirect.showIdle w
      else if negb (truthy (formUrl d)) then
        Redirect.on_host
          (setBadge Redirect.SHOW_DEBUG_BADGE
             ("Idle (no formUrl) • item " +:+ or_unknown (itemId d)))
          (Redirect.showIdle w)
      else Redirect.showActive (default EmptyString (formUrl d)) (or_unknown (itemId d)) w
  end.

Definition iframe_only_cycle (r : FetchResult) (w : IframeOnly.World) : IframeOnly.World :=
  match fetchActive r with
  | inl _ =>
      IframeOnly.on_host (setBadge IframeOnly.SHOW_DEBUG_BADGE "Idle (fetch error)")
        (IframeOnly.showIdle w)
  | inr None => IframeOnly.showIdle w
  | inr (Some d) =>
      if negb (active d) then IframeOnly.showIdle w
      else if negb (truthy (formUrl d)) then
        IframeOnly.on_host
          (setBadge IframeOnly.SHOW_DEBUG_BADGE
             ("Idle (no formUrl) • item " +:+ or_unknown (itemId d)))
          (IframeOnly.showIdle w)
      else IframeOnly.showActive (default EmptyString (formUrl d)) (or_unknown (itemId d)) w
  end.

Definition adaptive_cycle (r : FetchResult) (w : Adaptive.World) : Adaptive.World :=
  match fetchActive r with
  | inl _ =>
      Adaptive.on_host (setBadge Adaptive.SHOW_DEBUG_BADGE "Idle (fetch error)")
        (Adaptive.showIdle w)
  | inr None => Adaptive.showIdle w
  | inr (Some d) =>
      if negb (active d) then Adaptive.showIdle w
      else if negb (truthy (formUrl d)) then
        Adaptive.on_host
          (setBadge Adaptive.SHOW_DEBUG_BADGE
             ("Idle (waiting for form) • " +:+ or_unknown (itemId d)))
          (Adaptive.showIdle w)
      else Adaptive.showActive (default EmptyString (formUrl d)) (or_unknown (itemId d)) w
  end.

Definition fast_mode_cycle (r : FetchResult) (w : FastMode.World) : FastMode.World :=
  match fetchActive r with
  | inl _ =>
      FastMode.on_host (setBadge FastMode.SHOW_DEBUG_BADGE "Connection Error - Retrying...") w
  | inr None => FastMode.showIdle w
  | inr (Some d) =>
      if active d then FastMode.showActive (formUrl d) (itemId d) w
      else FastMode.showIdle w
  end.

Definition idle_and_empty (v : Version) (w : world (kiosk v)) : Prop :=
  display (kiosk v) w = Idle /\ session_of (kiosk v) w = empty_session.

(** What the refresh comes down to in each version. *)
Definition refresh (v : Version) : world (kiosk v) -> world (kiosk v) :=
  match v with
  | redirect => fun w => w
  | iframe_only => IframeOnly.resetActiveTimer
  | adaptive => Adaptive.resetActiveTimer
  | fast_mode => FastMode.resetActiveTimer
  end.

(** The record names the session on screen: same URL and, except in the
    fourth version, which only compares URLs, same item. *)
Definition on_screen (v : Version) (d : StatusRecord) (w : world (kiosk v)) : Prop :=
  formUrl d = snd (session_of (kiosk v) w) /\
  (v <> fast_mode -> accepted_id (kiosk v) (itemId d) = fst (session_of (kiosk v) w)).

Definition has_poll_timer (h : Host) : Prop :=
  exists id t, timers h !! id = Some t /\ kind_of (tm_callback t) = Poll.


(** * Properties *)

(** ** Timer tables *)

Ltac map_cases :=
  repeat match goal with
  | H : (<[_ := _]> _) !! _ = Some _ |- _ =>
      apply lookup_insert_Some in H; destruct H as [[? ?]|[? H]]
  | H : (delete _ _) !! _ = Some _ |- _ =>
      apply lookup_delete_Some in H; destruct H as [? H]
  | H : ∅ !! _ = Some _ |- _ => by rewrite lookup_empty in H
  end.

Section tables.
Context (tm : gmap positive Timer) (n : positive).

Lemma fresh_delete a : fresh_tbl tm n -> fresh_tbl (delete a tm) n.
Proof. intros H id t Ht. map_cases. eauto. Qed.

Lemma fresh_insert t : fresh_tbl tm n -> fresh_tbl (<[n := t]> tm) (n + 1).
Proof. intros H id t' Ht. map_cases; [lia|]. apply H in Ht. lia. Qed.

Lemma fresh_reschedule id t0 t :
  fresh_tbl tm n -> tm !! id = Some t0 -> fresh_tbl (<[id := t]> tm) n.
Proof. intros H H0 id' t' Ht. map_cases; subst; eauto. Qed.

Lemma fresh_lookup : fresh_tbl tm n -> tm !! n = None.
Proof.
  intros H. destruct (tm !! n) eqn:E; [|done]. apply H in E. lia.
Qed.

Lemma keyed_delete k slot a : keyed_tbl k slot tm n -> keyed_tbl k slot (delete a tm) n.
Proof. intros [H1 H2]. split; [done|]. intros id t Ht. map_cases. eauto. Qed.

Lemma keyed_clear k a : keyed_tbl k (Some a) tm n -> keyed_tbl k None (delete a tm) n.
Proof.
  intros [H1 H2]. split; [done|]. intros id t Ht. map_cases.
  pose proof (H2 _ _ Ht) as Hiff. split; [|done]. intros Hk.
  apply Hiff in Hk. congruence.
Qed.

Lemma keyed_arm k cb due every :
  keyed_tbl k None tm n -> fresh_tbl tm n -> kind_of cb = k ->
  keyed_tbl k (Some n) (<[n := mkTimer cb due every]> tm) (n + 1).
Proof.
  intros [H1 H2] Hf Hk. split; [intros ? [= <-]; lia|]. intros id t Ht. map_cases; subst.
  - done.
  - pose proof (H2 _ _ Ht) as Hiff. split; [|congruence].
    intros Hk. apply Hiff in Hk. done.
Qed.

Lemma keyed_other k slot cb due every :
  keyed_tbl k slot tm n -> fresh_tbl tm n -> kind_of cb <> k ->
  keyed_tbl k slot (<[n := mkTimer cb due every]> tm) (n + 1).
Proof.
  intros [H1 H2] Hf Hk. split; [intros ? Hs; apply H1 in Hs; lia|].
  intros id t Ht. map_cases; subst; [|eauto].
  simpl. split; [done|]. intros Hs. apply H1 in Hs. lia.
Qed.

Lemma keyed_reschedule k slot id t due every :
  keyed_tbl k slot tm n -> tm !! id = Some t ->
  keyed_tbl k slot (<[id := mkTimer (tm_callback t) due every]> tm) n.
Proof.
  intros [H1 H2] H0. split; [done|]. intros id' t' Ht. map_cases; subst; simpl; eauto.
Qed.

(** A spent handle may stay in the slot. *)
Lemma keyed_spent k a : keyed_tbl k (Some a) tm n -> keyed_tbl k (Some a) (delete a tm) n.
Proof. apply keyed_delete. Qed.

Lemma keyed_forget k a :
  keyed_tbl k (Some a) tm n -> tm !! a = None -> keyed_tbl k None tm n.
Proof.
  intros [H1 H2] Ha. split; [done|]. intros id t Ht.
  pose proof (H2 _ _ Ht) as Hiff. split; [|done].
  intros Hk. apply Hiff in Hk. congruence.
Qed.

Lemma keyed_unique k slot i j ti tj :
  keyed_tbl k slot tm n -> tm !! i = Some ti -> tm !! j = Some tj ->
  kind_of (tm_callback ti) = k -> kind_of (tm_callback tj) = k -> i = j.
Proof.
  intros [_ H] Hi Hj Ki Kj.
  apply (H _ _ Hi) in Ki. apply (H _ _ Hj) in Kj. congruence.
Qed.

Lemma keyed_none k id t :
  keyed_tbl k None tm n -> tm !! id = Some t -> kind_of (tm_callback t) <> k.
Proof. intros [_ H] Ht Hk. apply (H _ _ Ht) in Hk. done. Qed.

Lemma keyed_slot k a id t :
  keyed_tbl k (Some a) tm n -> tm !! id = Some t -> kind_of (tm_callback t) <> k -> id <> a.
Proof. intros [_ H] Ht Hk ->. apply Hk, (H _ _ Ht). done. Qed.

Lemma timed_delete c a : timed_tbl c tm -> timed_tbl c (delete a tm).
Proof. intros H id t Ht. map_cases. eauto. Qed.

Lemma timed_insert c id t : timed_tbl c tm -> timed c t -> timed_tbl c (<[id := t]> tm).
Proof. intros H Ht id' t' Ht'. map_cases; subst; eauto. Qed.

(** Changing the cadence is sound once no poll timer is left. *)
Lemma timed_retime c c' : timed_tbl c tm -> keyed_tbl Poll None tm n -> timed_tbl c' tm.
Proof.
  intros H [_ Hk] id t Ht. pose proof (H _ _ Ht) as Hc. pose proof (Hk _ _ Ht) as Hiff.
  unfold timed in *. destruct (tm_callback t); try done.
  simpl in Hiff. destruct Hiff as [Hiff _]. by specialize (Hiff eq_refl).
Qed.

Lemma timed_restart c c' p :
  timed_tbl c tm -> keyed_tbl Poll (Some p) tm n -> timed_tbl c' (delete p tm).
Proof.
  intros H [_ Hk] id t Ht. map_cases. pose proof (H _ _ Ht) as Hc.
  pose proof (Hk _ _ Ht) as Hiff. unfold timed in *.
  destruct (tm_callback t); try done.
  simpl in Hiff. destruct Hiff as [Hiff _]. specialize (Hiff eq_refl). congruence.
Qed.

Lemma live_delete k a id : keyed_tbl k (Some a) tm n ->
  forall t, tm !! id = Some t -> kind_of (tm_callback t) <> k -> delete a tm !! id = Some t.
Proof.
  intros Hk t Ht Hne. rewrite lookup_delete_ne; [done|].
  intros ->. by eapply keyed_slot.
Qed.

Lemma live_insert id t t' : fresh_tbl tm n -> tm !! id = Some t -> <[n := t']> tm !! id = Some t.
Proof.
  intros Hf Ht. rewrite lookup_insert_ne; [done|]. apply Hf in Ht. lia.
Qed.

Lemma is_Some_delete k a p :
  keyed_tbl Poll (Some p) tm n -> keyed_tbl k (Some a) tm n -> k <> Poll ->
  is_Some (tm !! p) -> is_Some (delete a tm !! p).
Proof.
  intros [_ Hp] [_ Hk] Hne [t Ht]. exists t. rewrite lookup_delete_ne; [done|].
  intros ->. apply Hne.
  destruct (Hk _ _ Ht) as [_ H1]. destruct (Hp _ _ Ht) as [_ H2].
  rewrite <- H1, <- H2; done.
Qed.

Lemma is_Some_insert id p t : is_Some (tm !! p) -> is_Some (<[id := t]> tm !! p).
Proof. intros H. apply lookup_insert_is_Some'. by right. Qed.

Lemma keyed_bound k a : keyed_tbl k (Some a) tm n -> (a < n)%positive.
Proof. intros [H _]. by apply H. Qed.

Lemma keyed_apart k k' a b :
  keyed_tbl k (Some a) tm n -> keyed_tbl k' (Some b) tm n -> k <> k' ->
  is_Some (tm !! b) -> a <> b.
Proof.
  intros [_ Hk] [_ Hk'] Hne [t Ht] ->. apply Hne.
  destruct (Hk _ _ Ht) as [_ H1]. destruct (Hk' _ _ Ht) as [_ H2].
  rewrite <- H1, <- H2; done.
Qed.

Lemma timed_interval c id t p :
  timed_tbl c tm -> tm !! id = Some t -> tm_every t = Some p ->
  tm_callback t = cb_poll /\ p = c.
Proof.
  intros H Ht Hp. apply H in Ht. unfold timed in Ht.
  destruct (tm_callback t); split; congruence.
Qed.

Lemma timed_oneshot c id t :
  timed_tbl c tm -> tm !! id = Some t -> tm_every t = None ->
  kind_of (tm_callback t) <> Poll.
Proof.
  intros H Ht Hp. apply H in Ht. unfold timed in Ht.
  destruct (tm_callback t); simpl; congruence.
Qed.

Lemma timed_kind c id t :
  timed_tbl c tm -> tm !! id = Some t -> kind_of (tm_callback t) <> Poll ->
  tm_every t = None.
Proof.
  intros H Ht Hp. apply H in Ht. unfold timed in Ht.
  destruct (tm_callback t); simpl in *; congruence.
Qed.

Lemma timed_reschedule c id t due :
  timed_tbl c tm -> tm !! id = Some t -> is_Some (tm_every t) ->
  timed_tbl c (<[id := mkTimer (tm_callback t) due (Some c)]> tm).
Proof.
  intros H Ht [p Hp]. destruct (timed_interval _ _ _ _ H Ht Hp) as [Hcb ->].
  apply timed_insert; [done|]. unfold timed. simpl. by rewrite Hcb.
Qed.

Lemma keyed_id k a id t :
  keyed_tbl k (Some a) tm n -> tm !! id = Some t -> kind_of (tm_callback t) = k -> id = a.
Proof. intros [_ H] Ht Hk. apply (H _ _ Ht) in Hk. congruence. Qed.

Lemma fresh_bound id : fresh_tbl tm n -> is_Some (tm !! id) -> (id < n)%positive.
Proof. intros H [t Ht]. eauto. Qed.
End tables.

Lemma fresh_empty n : fresh_tbl ∅ n.
Proof. intros id t Ht. map_cases. Qed.

Lemma keyed_empty k n : keyed_tbl k None ∅ n.
Proof. split; [done|]. intros id t Ht. map_cases. Qed.

Lemma timed_empty c : timed_tbl c ∅.
Proof. intros id t Ht. map_cases. Qed.

Create HintDb timers.
#[local] Hint Resolve fresh_empty keyed_empty timed_empty : timers.
#[local] Hint Resolve fresh_delete fresh_insert fresh_reschedule keyed_delete keyed_clear
  keyed_arm keyed_other keyed_reschedule timed_delete timed_insert timed_reschedule : timers.
#[local] Hint Extern 2 (is_Some (delete _ _ !! _)) => eapply is_Some_delete : timers.
#[local] Hint Extern 2 (is_Some (<[_ := _]> _ !! _)) => apply is_Some_insert : timers.
#[local] Hint Extern 3 (timed_tbl _ (delete _ _)) => eapply timed_restart : timers.
#[local] Hint Extern 3 (timed_tbl _ ?tm) =>
  is_var tm;
  match goal with H : timed_tbl _ tm |- _ => eapply (timed_retime _ _ _ _ H) end : timers.
#[local] Hint Extern 1 (kind_of _ = _) => reflexivity : timers.
#[local] Hint Extern 1 (_ <> Poll) => discriminate : timers.
#[local] Hint Extern 1 (kind_of _ <> _) => discriminate : timers.
#[local] Hint Extern 1 (timed _ _) => reflexivity : timers.

(** Facts about the handles in play, put among the hypotheses. *)
Ltac note P tac :=
  lazymatch goal with
  | _ : P |- _ => fail
  | _ => assert P by tac
  end.

Ltac slot_facts :=
  repeat match goal with
  | H : keyed_tbl _ (Some ?a) _ ?n |- _ =>
      note (a < n)%positive ltac:(exact (keyed_bound _ _ _ _ H))
  | H : fresh_tbl ?tm ?n, L : is_Some (?tm !! ?b) |- _ =>
      note (b < n)%positive ltac:(exact (fresh_bound _ _ _ H L))
  | H : fresh_tbl ?tm ?n, L : ?tm !! ?b = Some _ |- _ =>
      note (b < n)%positive ltac:(exact (H _ _ L))
  | H : keyed_tbl ?k (Some ?a) ?tm ?n, H' : keyed_tbl ?k' (Some ?b) ?tm ?n,
    L : is_Some (?tm !! ?b) |- _ =>
      note (a <> b) ltac:(apply (keyed_apart _ _ _ _ _ _ H H'); [discriminate | exact L])
  end.

Ltac lookup_norm :=
  repeat first
    [ rewrite lookup_insert_eq
    | rewrite lookup_insert_ne by lia
    | rewrite lookup_delete_ne by lia
    | rewrite lookup_delete_eq ].

Ltac lookup_norm_in H :=
  repeat first
    [ rewrite lookup_insert_eq in H
    | rewrite lookup_insert_ne in H by lia
    | rewrite lookup_delete_ne in H by lia
    | rewrite lookup_delete_eq in H ].

Ltac tbl_auto :=
  lazymatch goal with
  | |- fresh_tbl _ _ => eauto 10 with timers
  | |- keyed_tbl _ _ _ _ => eauto 10 with timers
  | |- timed_tbl _ _ => eauto 10 with timers
  | |- is_Some (_ !! _) => eauto 10 with timers
  | |- _ => eauto 6
  end.

Ltac use_hyps :=
  intros;
  repeat match goal with
  | H : ?a = ?a -> _ |- _ => specialize (H eq_refl)
  | H : ?P -> _, H' : ?P |- _ => specialize (H H')
  | H : _ /\ _ |- _ => destruct H
  | H : exists _, _ |- _ => destruct H
  end;
  simplify_eq;
  repeat match goal with |- _ /\ _ => split end;
  tbl_auto.

Ltac timers_auto :=
  first
    [ done
    | by tbl_auto
    | by (slot_facts; lookup_norm)
    | by (slot_facts; intros ? ? [= <-] ?Hlk; lookup_norm_in Hlk; simplify_eq; eauto 8)
    | by (slot_facts; intros ? ? [= <-] ?Hlk; map_cases; simplify_eq; eauto 8)
    | by use_hyps ].

(** ** Unfolding the scripts *)

Ltac red_host :=
  lazy beta iota zeta delta
    [handles_fresh keyed clear_if_set clearTimeout clearInterval setTimeout setInterval
     setBadge show hide removeAttribute_src assign_src set_onload set_link_href navigate
     issue_fetch set_classes set_badge_text set_timers set_next_handle set_now set_inflight
     hidden badge_text frame_attr onload writes link_href location_href timers next_handle
     now inflight resolve get_src frame_shows surface displayState load
     hid_idle hid_active hid_loading hid_frame hid_redirectMode hid_badge set_hidden
     contains_hidden negb andb orb fst snd strict_eq empty_session
     page_hidden page_badge_text page_frame_src page_link_href page_time page_resolve
     Redirect.showIdle Redirect.showActive Redirect.switchToRedirect Redirect.grace_callback
     Redirect.frame_onload_handler Redirect.on_host Redirect.session Redirect.startup
     Redirect.run_callback Redirect.initial_state
     Redirect.SHOW_DEBUG_BADGE Redirect.state Redirect.host Redirect.lastItemId
     Redirect.lastFormUrl Redirect.activeSince Redirect.activeTimer Redirect.iframeLoadTimer
     Redirect.redirecting
     IframeOnly.showIdle IframeOnly.showActive IframeOnly.resetActiveTimer
     IframeOnly.frame_onload_handler IframeOnly.on_host IframeOnly.session IframeOnly.startup
     IframeOnly.run_callback IframeOnly.initial_state
     IframeOnly.SHOW_DEBUG_BADGE IframeOnly.state IframeOnly.host IframeOnly.lastItemId
     IframeOnly.lastFormUrl IframeOnly.activeTimer
     Adaptive.showIdle Adaptive.showActive Adaptive.resetActiveTimer Adaptive.startPolling
     Adaptive.stopPolling Adaptive.on_visibilitychange
     Adaptive.frame_onload_handler Adaptive.on_host Adaptive.session Adaptive.startup
     Adaptive.run_callback Adaptive.initial_state
     Adaptive.SHOW_DEBUG_BADGE Adaptive.state Adaptive.host Adaptive.lastItemId
     Adaptive.lastFormUrl Adaptive.activeTimer Adaptive.pollTimer Adaptive.currentPollMs
     Adaptive.isActive
     FastMode.showIdle FastMode.showActive FastMode.resetActiveTimer FastMode.startPolling
     FastMode.stopPolling FastMode.on_visibilitychange
     FastMode.frame_onload_handler FastMode.on_host FastMode.session FastMode.startup
     FastMode.run_callback FastMode.initial_state
     FastMode.SHOW_DEBUG_BADGE FastMode.state FastMode.host FastMode.lastItemId
     FastMode.lastFormUrl FastMode.activeTimer FastMode.pollTimer FastMode.currentPollMs
     FastMode.isActive] in *.

Ltac cbn_host :=
  cbn beta iota zeta delta
    [handles_fresh keyed clear_if_set clearTimeout clearInterval setTimeout setInterval
     setBadge show hide removeAttribute_src assign_src set_onload set_link_href navigate
     issue_fetch set_classes set_badge_text set_timers set_next_handle set_now set_inflight
     hidden badge_text frame_attr onload writes link_href location_href timers next_handle
     now inflight resolve get_src frame_shows surface displayState load
     hid_idle hid_active hid_loading hid_frame hid_redirectMode hid_badge set_hidden
     contains_hidden negb andb orb fst snd strict_eq empty_session
     page_hidden page_badge_text page_frame_src page_link_href page_time page_resolve
     Redirect.showIdle Redirect.showActive Redirect.switchToRedirect Redirect.grace_callback
     Redirect.frame_onload_handler Redirect.on_host Redirect.session Redirect.startup
     Redirect.run_callback Redirect.initial_state
     Redirect.SHOW_DEBUG_BADGE Redirect.state Redirect.host Redirect.lastItemId
     Redirect.lastFormUrl Redirect.activeSince Redirect.activeTimer Redirect.iframeLoadTimer
     Redirect.redirecting
     IframeOnly.showIdle IframeOnly.showActive IframeOnly.resetActiveTimer
     IframeOnly.frame_onload_handler IframeOnly.on_host IframeOnly.session IframeOnly.startup
     IframeOnly.run_callback IframeOnly.initial_state
     IframeOnly.SHOW_DEBUG_BADGE IframeOnly.state IframeOnly.host IframeOnly.lastItemId
     IframeOnly.lastFormUrl IframeOnly.activeTimer
     Adaptive.showIdle Adaptive.showActive Adaptive.resetActiveTimer Adaptive.startPolling
     Adaptive.stopPolling Adaptive.on_visibilitychange
     Adaptive.frame_onload_handler Adaptive.on_host Adaptive.session Adaptive.startup
     Adaptive.run_callback Adaptive.initial_state
     Adaptive.SHOW_DEBUG_BADGE Adaptive.state Adaptive.host Adaptive.lastItemId
     Adaptive.lastFormUrl Adaptive.activeTimer Adaptive.pollTimer Adaptive.currentPollMs
     Adaptive.isActive
     FastMode.showIdle FastMode.showActive FastMode.resetActiveTimer FastMode.startPolling
     FastMode.stopPolling FastMode.on_visibilitychange
     FastMode.frame_onload_handler FastMode.on_host FastMode.session FastMode.startup
     FastMode.run_callback FastMode.initial_state
     FastMode.SHOW_DEBUG_BADGE FastMode.state FastMode.host FastMode.lastItemId
     FastMode.lastFormUrl FastMode.activeTimer FastMode.pollTimer FastMode.currentPollMs
     FastMode.isActive] in *.

Ltac open_host h :=
  destruct h as [[?hi ?ha ?hl ?hf ?hr ?hb] ?bt ?fa ?ol ?wr ?lk ?loc ?tm ?n ?t0 ?fl ?rs].

Ltac open_rd w :=
  let h := fresh "h" in
  destruct w as [[?li ?lu ?since [?a|] [?g|] ?red] h]; open_host h.

Ltac inv_auto := split; red_host; try timers_auto.

Lemma redirect_showIdle_inv w : Redirect_Inv w -> Redirect_Inv (Redirect.showIdle w).
Proof.
  intros [Hf Ha Hg Hp Hl Ht Hv Hi Hs Hr Hu]. open_rd w; red_host.
  all: inv_auto.
Qed.

Lemma redirect_badge_inv w b t :
  Redirect_Inv w -> Redirect_Inv (Redirect.on_host (setBadge b t) w).
Proof.
  intros [Hf Ha Hg Hp Hl Ht Hv Hi Hs Hr Hu]. open_rd w; destruct b; red_host.
  all: inv_auto.
Qed.

Lemma redirect_showActive_inv w u i :
  Redirect_Inv w -> Redirect_Inv (Redirect.showActive u i w).
Proof.
  intros [Hf Ha Hg Hp Hl Ht Hv Hi Hs Hr Hu]. unfold Redirect.showActive.
  case_match; [by split|]. clear H.
  open_rd w; red_host.
  all: inv_auto.
Qed.

Lemma redirect_grace_callback_inv w u :
  Redirect_Inv w -> hid_idle (hidden (Redirect.host w)) = true ->
  Redirect_Inv (Redirect.grace_callback u w).
Proof.
  intros [Hf Ha Hg Hp Hl Ht Hv Hi Hs Hr Hu] Hact. open_rd w; destruct red; red_host.
  all: subst; inv_auto.
Qed.

Lemma redirect_onload_inv w k :
  Redirect_Inv w -> Redirect_Inv (Redirect.frame_onload_handler k w).
Proof.
  intros [Hf Ha Hg Hp Hl Ht Hv Hi Hs Hr Hu]. destruct k. open_rd w; red_host.
  all: inv_auto.
Qed.

Lemma fire_Some id h cb h' :
  fire id h = Some (cb, h') ->
  exists t, timers h !! id = Some t /\ tm_due t <= now h /\ cb = tm_callback t /\
    h' = match tm_every t with
         | None => set_timers (delete id (timers h)) h
         | Some p => set_timers (<[id := mkTimer (tm_callback t) (now h + p) (Some p)]> (timers h)) h
         end.
Proof.
  unfold fire. destruct (timers h !! id) as [t|]; [|done].
  case_bool_decide; [|done]. intros [= <- <-]. eauto.
Qed.

(** Firing a timer changes nothing but the table. *)
Lemma fire_only_timers id h cb h' :
  fire id h = Some (cb, h') -> h' = set_timers (timers h') h.
Proof.
  intros (t & _ & _ & _ & ->)%fire_Some. by destruct (tm_every t), h.
Qed.

Lemma redirect_fire_inv w id cb h' :
  Redirect_Inv w -> fire id (Redirect.host w) = Some (cb, h') ->
  Redirect_Inv (Redirect.mkWorld (Redirect.state w) h').
Proof.
  intros [Hf Ha Hg Hp Hl Ht Hv Hi Hs Hr Hu] (t & Hid & Hdue & -> & ->)%fire_Some.
  open_rd w; red_host.
  all: destruct (tm_every t) as [p|] eqn:He;
    [ destruct (timed_interval _ _ _ _ _ Ht Hid He) as [Hcb ->];
      assert (id = 1%positive) as -> by (eapply keyed_id; [exact Hp|exact Hid|by rewrite Hcb])
    | pose proof (timed_oneshot _ _ _ _ Ht Hid He) as Hcb;
      pose proof (keyed_slot _ _ _ _ _ _ Hp Hid Hcb) ].
  all: inv_auto.
Qed.

Lemma redirect_pollLoop_eq r w : Redirect.pollLoop r w = (inr tt, redirect_cycle r w).
Proof.
  unfold Redirect.pollLoop, redirect_cycle, Js.try_catch, Js.bind, Js.await, Js.exec,
    Js.throw, Js.ret.
  destruct (fetchActive r) as [e|[d|]]; try reflexivity.
  destruct (active d); simpl; [|reflexivity].
  destruct (truthy (formUrl d)); reflexivity.
Qed.

Lemma redirect_cycle_inv r w : Redirect_Inv w -> Redirect_Inv (redirect_cycle r w).
Proof.
  intros H. unfold redirect_cycle.
  repeat case_match; eauto using redirect_showIdle_inv, redirect_badge_inv, redirect_showActive_inv.
Qed.

Lemma redirect_tick_inv w dt :
  Redirect_Inv w -> Redirect_Inv (Redirect.on_host (fun h => set_now (now h + dt) h) w).
Proof.
  intros [Hf Ha Hg Hp Hl Ht Hv Hi Hs Hr Hu]. open_rd w; red_host.
  all: inv_auto.
Qed.

Lemma redirect_issue_inv w : Redirect_Inv w -> Redirect_Inv (Redirect.on_host issue_fetch w).
Proof.
  intros [Hf Ha Hg Hp Hl Ht Hv Hi Hs Hr Hu]. open_rd w; red_host.
  all: inv_auto.
Qed.

Lemma redirect_settle_inv w k :
  Redirect_Inv w -> Redirect_Inv (Redirect.on_host (set_inflight k) w).
Proof.
  intros [Hf Ha Hg Hp Hl Ht Hv Hi Hs Hr Hu]. open_rd w; red_host.
  all: inv_auto.
Qed.

Lemma redirect_live_grace_active w id t :
  Redirect_Inv w -> timers (Redirect.host w) !! id = Some t ->
  kind_of (tm_callback t) = Grace -> hid_idle (hidden (Redirect.host w)) = true.
Proof.
  intros [Hf Ha [_ Hg] Hp Hl Ht Hv Hi Hs Hr Hu] Hid Hk.
  destruct (hid_idle (hidden (Redirect.host w))) eqn:E; [done|].
  destruct (Hi eq_refl) as (Hst & _). apply (Hg _ _ Hid) in Hk.
  rewrite Hst in Hk. done.
Qed.

Lemma redirect_step_inv ev w w' :
  Redirect_Inv w -> Redirect.step ev w = Some w' -> Redirect_Inv w'.
Proof.
  intros HI. unfold Redirect.step.
  destruct (location_href (Redirect.host w)); [done|].
  destruct ev as [dt|id|r| |vis].
  - case_bool_decide; [|done]. intros [= <-]. by apply redirect_tick_inv.
  - destruct (fire id (Redirect.host w)) as [[cb h']|] eqn:Hfire; [|done].
    intros [= <-]. pose proof (redirect_fire_inv _ _ _ _ HI Hfire) as HI'.
    pose proof (fire_only_timers _ _ _ _ Hfire) as Hh'.
    apply fire_Some in Hfire as (t & Hid & _ & -> & _).
    destruct (tm_callback t) eqn:Hcb; simpl.
    + by apply redirect_showIdle_inv.
    + apply redirect_grace_callback_inv; [done|]. simpl. rewrite Hh'. simpl.
      eapply redirect_live_grace_active; [done..|]. by rewrite Hcb.
    + by apply redirect_issue_inv.
  - destruct (inflight (Redirect.host w)) as [|k]; [done|]. intros [= <-].
    rewrite redirect_pollLoop_eq. simpl. by apply redirect_cycle_inv, redirect_settle_inv.
  - destruct (onload (Redirect.host w)); intros [= <-]; [|done].
    by apply redirect_onload_inv.
  - by intros [= <-].
Qed.

Lemma redirect_startup_inv p : Redirect_Inv (Redirect.startup p).
Proof.
  destruct p as [[hi ha hl hf hr hb] bt fa lk t0 rs]. red_host.
  inv_auto.
Qed.

Lemma run_invariant (K : Kiosk) (I : world K -> Prop) :
  (forall p, I (boot K p)) ->
  (forall ev w w', I w -> step_of K ev w = Some w' -> I w') ->
  forall w, reachable K w -> I w.
Proof.
  intros Hboot Hstep w (p & evs & Hrun).
  revert Hrun. generalize (Hboot p). generalize (boot K p).
  induction evs as [|ev evs IH]; intros w0 H0; simpl.
  - by intros [= <-].
  - destruct (step_of K ev w0) as [w1|] eqn:E; [|done]. eauto.
Qed.

(** ** The second version keeps its invariant *)

Ltac open_io w :=
  let h := fresh "h" in
  destruct w as [[?li ?lu [?a|]] h]; open_host h.

Ltac io_auto H w :=
  destruct H as [Hf Ha Hp Hl Ht Hv Hi Hs]; open_io w; red_host; inv_auto.

Lemma iframe_only_showIdle_inv w : IframeOnly_Inv w -> IframeOnly_Inv (IframeOnly.showIdle w).
Proof. intros H. io_auto H w. Qed.

Lemma iframe_only_badge_inv w b t :
  IframeOnly_Inv w -> IframeOnly_Inv (IframeOnly.on_host (setBadge b t) w).
Proof. intros H. destruct b; io_auto H w. Qed.

Lemma iframe_only_resetActiveTimer_inv w :
  IframeOnly_Inv w -> hid_idle (hidden (IframeOnly.host w)) = true ->
  IframeOnly_Inv (IframeOnly.resetActiveTimer w).
Proof. intros H Hact. io_auto H w. Qed.

Lemma iframe_only_showActive_inv w u i :
  IframeOnly_Inv w -> IframeOnly_Inv (IframeOnly.showActive u i w).
Proof.
  intros H. unfold IframeOnly.showActive. case_match.
  - apply iframe_only_resetActiveTimer_inv; [done|].
    destruct (hid_idle (hidden (IframeOnly.host w))) eqn:E; [done|].
    destruct (io_idle _ H E) as [Hst _]. rewrite Hst in *. done.
  - clear H0. io_auto H w.
Qed.

Lemma iframe_only_onload_inv w k :
  IframeOnly_Inv w -> IframeOnly_Inv (IframeOnly.frame_onload_handler k w).
Proof. intros H. destruct k. io_auto H w. Qed.

Lemma iframe_only_fire_inv w id cb h' :
  IframeOnly_Inv w -> fire id (IframeOnly.host w) = Some (cb, h') ->
  IframeOnly_Inv (IframeOnly.mkWorld (IframeOnly.state w) h').
Proof.
  intros [Hf Ha Hp Hl Ht Hv Hi Hs] (t & Hid & Hdue & -> & ->)%fire_Some.
  open_io w; red_host.
  all: destruct (tm_every t) as [p|] eqn:He;
    [ destruct (timed_interval _ _ _ _ _ Ht Hid He) as [Hcb ->];
      assert (id = 1%positive) as -> by (eapply keyed_id; [exact Hp|exact Hid|by rewrite Hcb])
    | pose proof (timed_oneshot _ _ _ _ Ht Hid He) as Hcb;
      pose proof (keyed_slot _ _ _ _ _ _ Hp Hid Hcb) ].
  all: inv_auto.
Qed.

Lemma iframe_only_pollOnce_eq r w :
  IframeOnly.pollOnce r w = (inr tt, iframe_only_cycle r w).
Proof.
  unfold IframeOnly.pollOnce, iframe_only_cycle, Js.try_catch, Js.bind, Js.await, Js.exec,
    Js.throw, Js.ret.
  destruct (fetchActive r) as [e|[d|]]; try reflexivity.
  destruct (active d); simpl; [|reflexivity].
  destruct (truthy (formUrl d)); reflexivity.
Qed.

Lemma iframe_only_cycle_inv r w : IframeOnly_Inv w -> IframeOnly_Inv (iframe_only_cycle r w).
Proof.
  intros H. unfold iframe_only_cycle.
  repeat case_match;
    eauto using iframe_only_showIdle_inv, iframe_only_badge_inv, iframe_only_showActive_inv.
Qed.

Lemma iframe_only_tick_inv w dt :
  IframeOnly_Inv w -> IframeOnly_Inv (IframeOnly.on_host (fun h => set_now (now h + dt) h) w).
Proof. intros H. io_auto H w. Qed.

Lemma iframe_only_issue_inv w :
  IframeOnly_Inv w -> IframeOnly_Inv (IframeOnly.on_host issue_fetch w).
Proof. intros H. io_auto H w. Qed.

Lemma iframe_only_settle_inv w k :
  IframeOnly_Inv w -> IframeOnly_Inv (IframeOnly.on_host (set_inflight k) w).
Proof. intros H. io_auto H w. Qed.

Lemma iframe_only_step_inv ev w w' :
  IframeOnly_Inv w -> IframeOnly.step ev w = Some w' -> IframeOnly_Inv w'.
Proof.
  intros HI. unfold IframeOnly.step.
  destruct ev as [dt|id|r| |vis].
  - case_bool_decide; [|done]. intros [= <-]. by apply iframe_only_tick_inv.
  - destruct (fire id (IframeOnly.host w)) as [[cb h']|] eqn:Hfire; [|done].
    intros [= <-]. pose proof (iframe_only_fire_inv _ _ _ _ HI Hfire) as HI'.
    destruct cb; simpl.
    + by apply iframe_only_showIdle_inv.
    + done.
    + by apply iframe_only_issue_inv.
  - destruct (inflight (IframeOnly.host w)) as [|k]; [done|]. intros [= <-].
    rewrite iframe_only_pollOnce_eq. simpl.
    by apply iframe_only_cycle_inv, iframe_only_settle_inv.
  - destruct (onload (IframeOnly.host w)); intros [= <-]; [|done].
    by apply iframe_only_onload_inv.
  - by intros [= <-].
Qed.

Lemma iframe_only_startup_inv p : IframeOnly_Inv (IframeOnly.startup p).
Proof.
  destruct p as [[hi ha hl hf hr hb] bt fa lk t0 rs]. red_host. inv_auto.
Qed.

(** ** The third version keeps its invariant *)

Ltac open_ad w :=
  let h := fresh "h" in
  destruct w as [[?li ?lu [?a|] [?p|] ?cur [|]] h]; open_host h.

Ltac ad_auto H w :=
  destruct H as [Hf Ha Hp Ht Hv Hi Hs]; open_ad w; red_host; subst;
  try case_bool_decide; red_host; inv_auto.

Lemma adaptive_startPolling_inv w :
  Adaptive_Inv w ->
  Adaptive_Inv (Adaptive.startPolling
    (if Adaptive.isActive (Adaptive.state w)
     then Adaptive.ACTIVE_POLL_MS else Adaptive.IDLE_POLL_MS) w).
Proof. intros H. ad_auto H w. Qed.

Lemma adaptive_stopPolling_inv w : Adaptive_Inv w -> Adaptive_Inv (Adaptive.stopPolling w).
Proof. intros H. ad_auto H w. Qed.

Lemma adaptive_showIdle_inv w : Adaptive_Inv w -> Adaptive_Inv (Adaptive.showIdle w).
Proof. intros H. ad_auto H w. Qed.

Lemma adaptive_badge_inv w b t :
  Adaptive_Inv w -> Adaptive_Inv (Adaptive.on_host (setBadge b t) w).
Proof. intros H. destruct b; ad_auto H w. Qed.

Lemma adaptive_showActive_inv w u i :
  Adaptive_Inv w -> Adaptive_Inv (Adaptive.showActive u i w).
Proof.
  intros H. unfold Adaptive.showActive. case_match.
  - ad_auto H w.
  - clear H0. ad_auto H w.
Qed.

Lemma adaptive_resetActiveTimer_inv w :
  Adaptive_Inv w -> Adaptive.isActive (Adaptive.state w) = true ->
  Adaptive_Inv (Adaptive.resetActiveTimer w).
Proof. intros H Hact. ad_auto H w. Qed.

Lemma adaptive_onload_inv w k :
  Adaptive_Inv w -> Adaptive_Inv (Adaptive.frame_onload_handler k w).
Proof. intros H. destruct k. ad_auto H w. Qed.

Lemma adaptive_visibility_inv w b :
  Adaptive_Inv w -> Adaptive_Inv (Adaptive.on_visibilitychange b w).
Proof.
  intros H. destruct b; simpl.
  - by apply adaptive_stopPolling_inv.
  - by apply adaptive_startPolling_inv.
Qed.

Lemma adaptive_fire_inv w id cb h' :
  Adaptive_Inv w -> fire id (Adaptive.host w) = Some (cb, h') ->
  Adaptive_Inv (Adaptive.mkWorld (Adaptive.state w) h').
Proof.
  intros [Hf Ha Hp Ht Hv Hi Hs] (t & Hid & Hdue & -> & ->)%fire_Some.
  open_ad w; red_host; subst; red_host.
  all: destruct (tm_every t) as [c|] eqn:He;
    [ destruct (timed_interval _ _ _ _ _ Ht Hid He) as [Hcb ->]
    | pose proof (timed_oneshot _ _ _ _ Ht Hid He) as Hcb ].
  all: inv_auto.
Qed.

Lemma adaptive_pollOnce_eq r w : Adaptive.pollOnce r w = (inr tt, adaptive_cycle r w).
Proof.
  unfold Adaptive.pollOnce, adaptive_cycle, Js.try_catch, Js.bind, Js.await, Js.exec,
    Js.throw, Js.ret.
  destruct (fetchActive r) as [e|[d|]]; try reflexivity.
  destruct (active d); simpl; [|reflexivity].
  destruct (truthy (formUrl d)); reflexivity.
Qed.

Lemma adaptive_cycle_inv r w : Adaptive_Inv w -> Adaptive_Inv (adaptive_cycle r w).
Proof.
  intros H. unfold adaptive_cycle.
  repeat case_match;
    eauto using adaptive_showIdle_inv, adaptive_badge_inv, adaptive_showActive_inv.
Qed.

Lemma adaptive_tick_inv w dt :
  Adaptive_Inv w -> Adaptive_Inv (Adaptive.on_host (fun h => set_now (now h + dt) h) w).
Proof. intros H. ad_auto H w. Qed.

Lemma adaptive_issue_inv w : Adaptive_Inv w -> Adaptive_Inv (Adaptive.on_host issue_fetch w).
Proof. intros H. ad_auto H w. Qed.

Lemma adaptive_settle_inv w k :
  Adaptive_Inv w -> Adaptive_Inv (Adaptive.on_host (set_inflight k) w).
Proof. intros H. ad_auto H w. Qed.

Lemma adaptive_step_inv ev w w' :
  Adaptive_Inv w -> Adaptive.step ev w = Some w' -> Adaptive_Inv w'.
Proof.
  intros HI. unfold Adaptive.step.
  destruct ev as [dt|id|r| |vis].
  - case_bool_decide; [|done]. intros [= <-]. by apply adaptive_tick_inv.
  - destruct (fire id (Adaptive.host w)) as [[cb h']|] eqn:Hfire; [|done].
    intros [= <-]. pose proof (adaptive_fire_inv _ _ _ _ HI Hfire) as HI'.
    destruct cb; simpl.
    + by apply adaptive_showIdle_inv.
    + done.
    + by apply adaptive_issue_inv.
  - destruct (inflight (Adaptive.host w)) as [|k]; [done|]. intros [= <-].
    rewrite adaptive_pollOnce_eq. simpl.
    by apply adaptive_cycle_inv, adaptive_settle_inv.
  - destruct (onload (Adaptive.host w)); intros [= <-]; [|done].
    by apply adaptive_onload_inv.
  - intros [= <-]. by apply adaptive_visibility_inv.
Qed.

Lemma adaptive_startup_inv p : Adaptive_Inv (Adaptive.startup p).
Proof.
  destruct p as [[[|] ha hl hf hr hb] bt fa lk t0 rs]; red_host; inv_auto.
Qed.

(** ** The fourth version keeps its invariant *)

Ltac open_fm w :=
  let h := fresh "h" in
  destruct w as [[?li ?lu [?a|] [?p|] ?cur [|]] h]; open_host h.

Ltac fm_auto H w :=
  destruct H as [Hf Ha Hp Ht Hc Hv Hact Hi Hw]; open_fm w; cbn_host; subst;
  repeat (case_bool_decide; cbn_host); inv_auto.

Lemma fast_mode_startPolling_inv w :
  FastMode_Inv w ->
  FastMode_Inv (FastMode.startPolling
    (if FastMode.isActive (FastMode.state w)
     then FastMode.ACTIVE_POLL_MS else FastMode.IDLE_POLL_MS) w).
Proof. intros H. fm_auto H w.
Qed.

Lemma fast_mode_stopPolling_inv w : FastMode_Inv w -> FastMode_Inv (FastMode.stopPolling w).
Proof. intros H. fm_auto H w.
 Qed.

Lemma fast_mode_showIdle_inv w : FastMode_Inv w -> FastMode_Inv (FastMode.showIdle w).
Proof. intros H. fm_auto H w.
 Qed.

Lemma fast_mode_badge_inv w b t :
  FastMode_Inv w -> FastMode_Inv (FastMode.on_host (setBadge b t) w).
Proof. intros H. destruct b; fm_auto H w. Qed.

Lemma fast_mode_showActive_inv w u i :
  FastMode_Inv w -> FastMode_Inv (FastMode.showActive u i w).
Proof.
  intros H. unfold FastMode.showActive, truthy. destruct u as [u|].
  - fm_auto H w.
  - fm_auto H w.
Qed.

Lemma fast_mode_resetActiveTimer_inv w :
  FastMode_Inv w -> FastMode.isActive (FastMode.state w) = true ->
  FastMode_Inv (FastMode.resetActiveTimer w).
Proof. intros H Hact'. fm_auto H w. Qed.

Lemma fast_mode_onload_inv w k :
  FastMode_Inv w -> FastMode_Inv (FastMode.frame_onload_handler k w).
Proof. intros H. destruct k. fm_auto H w. Qed.

Lemma fast_mode_visibility_inv w b :
  FastMode_Inv w -> FastMode_Inv (FastMode.on_visibilitychange b w).
Proof.
  intros H. destruct b; simpl.
  - by apply fast_mode_stopPolling_inv.
  - rewrite <- (fm_cadence _ H).
    destruct H as [Hf Ha Hp Ht Hc Hv Hact Hi Hw]; open_fm w; cbn_host; subst; inv_auto.
Qed.

Lemma fast_mode_fire_inv w id cb h' :
  FastMode_Inv w -> fire id (FastMode.host w) = Some (cb, h') ->
  FastMode_Inv (FastMode.mkWorld (FastMode.state w) h').
Proof.
  intros [Hf Ha Hp Ht Hc Hv Hact Hi Hw] (t & Hid & Hdue & -> & ->)%fire_Some.
  open_fm w; red_host; subst; red_host.
  all: destruct (tm_every t) as [c|] eqn:He;
    [ destruct (timed_interval _ _ _ _ _ Ht Hid He) as [Hcb ->]
    | pose proof (timed_oneshot _ _ _ _ Ht Hid He) as Hcb ].
  all: inv_auto.
Qed.

Lemma fast_mode_pollOnce_eq r w : FastMode.pollOnce r w = (inr tt, fast_mode_cycle r w).
Proof.
  unfold FastMode.pollOnce, fast_mode_cycle, Js.try_catch, Js.bind, Js.await, Js.exec,
    Js.throw, Js.ret.
  destruct (fetchActive r) as [e|[d|]]; try reflexivity.
  destruct (active d); reflexivity.
Qed.

Lemma fast_mode_cycle_inv r w : FastMode_Inv w -> FastMode_Inv (fast_mode_cycle r w).
Proof.
  intros H. unfold fast_mode_cycle.
  repeat case_match;
    eauto using fast_mode_showIdle_inv, fast_mode_badge_inv, fast_mode_showActive_inv.
Qed.

Lemma fast_mode_tick_inv w dt :
  FastMode_Inv w -> FastMode_Inv (FastMode.on_host (fun h => set_now (now h + dt) h) w).
Proof. intros H. fm_auto H w. Qed.

Lemma fast_mode_issue_inv w : FastMode_Inv w -> FastMode_Inv (FastMode.on_host issue_fetch w).
Proof. intros H. fm_auto H w. Qed.

Lemma fast_mode_settle_inv w k :
  FastMode_Inv w -> FastMode_Inv (FastMode.on_host (set_inflight k) w).
Proof. intros H. fm_auto H w. Qed.

Lemma fast_mode_step_inv ev w w' :
  FastMode_Inv w -> FastMode.step ev w = Some w' -> FastMode_Inv w'.
Proof.
  intros HI. unfold FastMode.step.
  destruct ev as [dt|id|r| |vis].
  - case_bool_decide; [|done]. intros [= <-]. by apply fast_mode_tick_inv.
  - destruct (fire id (FastMode.host w)) as [[cb h']|] eqn:Hfire; [|done].
    intros [= <-]. pose proof (fast_mode_fire_inv _ _ _ _ HI Hfire) as HI'.
    destruct cb; simpl.
    + by apply fast_mode_showIdle_inv.
    + done.
    + by apply fast_mode_issue_inv.
  - destruct (inflight (FastMode.host w)) as [|k]; [done|]. intros [= <-].
    rewrite fast_mode_pollOnce_eq. simpl.
    by apply fast_mode_cycle_inv, fast_mode_settle_inv.
  - destruct (onload (FastMode.host w)); intros [= <-]; [|done].
    by apply fast_mode_onload_inv.
  - intros [= <-]. by apply fast_mode_visibility_inv.
Qed.

Lemma fast_mode_startup_inv p : FastMode_Inv (FastMode.startup p).
Proof.
  destruct p as [[hi ha hl hf hr hb] bt fa lk t0 rs]; red_host; inv_auto.
Qed.

(** ** Every reachable state satisfies its version's invariant *)

Lemma reachable_Inv v w : reachable (kiosk v) w -> Inv v w.
Proof.
  apply (run_invariant (kiosk v) (Inv v)); destruct v; simpl.
  - apply redirect_startup_inv.
  - apply iframe_only_startup_inv.
  - apply adaptive_startup_inv.
  - apply fast_mode_startup_inv.
  - intros ev w0 w1 H0 H1. eapply redirect_step_inv; eauto.
  - intros ev w0 w1 H0 H1. eapply iframe_only_step_inv; eauto.
  - intros ev w0 w1 H0 H1. eapply adaptive_step_inv; eauto.
  - intros ev w0 w1 H0 H1. eapply fast_mode_step_inv; eauto.
Qed.

Lemma after_poll_eq v r w :
  after_poll (kiosk v) r w =
  match v return world (kiosk v) -> world (kiosk v) with
  | redirect => redirect_cycle r
  | iframe_only => iframe_only_cycle r
  | adaptive => adaptive_cycle r
  | fast_mode => fast_mode_cycle r
  end w.
Proof.
  unfold after_poll. destruct v; simpl.
  - by rewrite redirect_pollLoop_eq.
  - by rewrite iframe_only_pollOnce_eq.
  - by rewrite adaptive_pollOnce_eq.
  - by rewrite fast_mode_pollOnce_eq.
Qed.

Lemma after_poll_Inv v r w : Inv v w -> Inv v (after_poll (kiosk v) r w).
Proof.
  rewrite after_poll_eq. destruct v; simpl.
  - apply redirect_cycle_inv.
  - apply iframe_only_cycle_inv.
  - apply adaptive_cycle_inv.
  - apply fast_mode_cycle_inv.
Qed.

(** ** The Idle transition *)

Lemma redirect_showIdle_idle w : idle_and_empty redirect (Redirect.showIdle w).
Proof. by open_rd w. Qed.

Lemma iframe_only_showIdle_idle w : idle_and_empty iframe_only (IframeOnly.showIdle w).
Proof. by open_io w. Qed.

Lemma adaptive_showIdle_idle w : Adaptive_Inv w -> idle_and_empty adaptive (Adaptive.showIdle w).
Proof.
  intros [Hf Ha Hp Ht Hv Hi Hs]. open_ad w; red_host; subst; red_host; try done.
  all: unfold idle_and_empty, display; simpl; split; [done|]; by destruct (Hi eq_refl).
Qed.

Lemma fast_mode_showIdle_idle w : FastMode_Inv w -> idle_and_empty fast_mode (FastMode.showIdle w).
Proof.
  intros [Hf Ha Hp Ht Hc Hv Hact Hi Hw]. open_fm w; red_host; subst; red_host; try done.
  all: unfold idle_and_empty, display; simpl; split; [done|]; by destruct (Hi eq_refl).
Qed.

Lemma badge_idle_and_empty v w b t :
  idle_and_empty v w ->
  match v return world (kiosk v) -> Prop with
  | redirect => fun w => idle_and_empty redirect (Redirect.on_host (setBadge b t) w)
  | iframe_only => fun w => idle_and_empty iframe_only (IframeOnly.on_host (setBadge b t) w)
  | adaptive => fun w => idle_and_empty adaptive (Adaptive.on_host (setBadge b t) w)
  | fast_mode => fun w => idle_and_empty fast_mode (FastMode.on_host (setBadge b t) w)
  end w.
Proof.
  destruct v, b; simpl; try done.
Qed.

Lemma replay_reachable K evs p w : run K evs (boot K p) = Some w -> reachable K (replay K evs p).
Proof. intros H. exists p, evs. unfold replay. by rewrite H. Qed.

(** ** Polls that report no activity, polls that fail *)

Lemma inactive_poll_idles v w r :
  Inv v w -> reports_inactive r -> idle_and_empty v (after_poll (kiosk v) r w).
Proof.
  intros HI Hr. rewrite after_poll_eq.
  destruct v; simpl in *;
    unfold redirect_cycle, iframe_only_cycle, adaptive_cycle, fast_mode_cycle;
    destruct Hr as [->|(d & -> & Hd)]; rewrite ?Hd; simpl;
    eauto using redirect_showIdle_idle, iframe_only_showIdle_idle,
      adaptive_showIdle_idle, fast_mode_showIdle_idle.
Qed.

Lemma failed_poll_idles v w r :
  Inv v w -> fetch_fails r -> v <> fast_mode -> idle_and_empty v (after_poll (kiosk v) r w).
Proof.
  intros HI [e He] Hv. rewrite after_poll_eq.
  destruct v; simpl in *; try done;
    unfold redirect_cycle, iframe_only_cycle, adaptive_cycle; rewrite He.
  - apply (badge_idle_and_empty redirect), redirect_showIdle_idle.
  - apply (badge_idle_and_empty iframe_only), iframe_only_showIdle_idle.
  - by apply (badge_idle_and_empty adaptive), adaptive_showIdle_idle.
Qed.

Lemma failed_poll_fast_mode w r :
  fetch_fails r ->
  display (kiosk fast_mode) (after_poll (kiosk fast_mode) r w) = display (kiosk fast_mode) w /\
  session_of (kiosk fast_mode) (after_poll (kiosk fast_mode) r w) = session_of (kiosk fast_mode) w /\
  surface (host_of (kiosk fast_mode) (after_poll (kiosk fast_mode) r w))
    = surface (host_of (kiosk fast_mode) w) /\
  timers (host_of (kiosk fast_mode) (after_poll (kiosk fast_mode) r w))
    = timers (host_of (kiosk fast_mode) w).
Proof.
  intros [e He]. rewrite (after_poll_eq fast_mode). simpl. unfold fast_mode_cycle. rewrite He.
  by open_fm w.
Qed.

(** ** An active record for the session already on screen *)

Lemma truthy_Some v : truthy v = true -> exists u, v = Some u /\ u <> EmptyString.
Proof.
  destruct v as [u|]; [|done]. simpl. case_bool_decide; [done|]. eauto.
Qed.

Lemma same_session_on_screen v d w :
  session_of_record (kiosk v) d = session_of (kiosk v) w -> on_screen v d w.
Proof. unfold session_of_record, on_screen. intros <-. done. Qed.

Lemma refresh_eq v w r d :
  Inv v w -> reports_active r d -> on_screen v d w ->
  after_poll (kiosk v) r w = refresh v w.
Proof.
  intros HI (Hr & Hact & (u & Hu & Hne)%truthy_Some) [Hs1 Hs2]. rewrite after_poll_eq.
  destruct d as [act it fu]. simpl in *. subst act fu.
  destruct v; simpl in *; try specialize (Hs2 ltac:(done));
    unfold redirect_cycle, iframe_only_cycle, adaptive_cycle, fast_mode_cycle;
    rewrite Hr; simpl; rewrite ?bool_decide_eq_false_2 by done; simpl.
  - unfold Redirect.showActive, Redirect.session, strict_eq in *.
    destruct w as [[] ?]; simpl in *. simplify_eq.
    by rewrite !bool_decide_eq_true_2 by done.
  - unfold IframeOnly.showActive, IframeOnly.session, strict_eq in *.
    destruct w as [[] ?]; simpl in *. simplify_eq.
    by rewrite !bool_decide_eq_true_2 by done.
  - unfold Adaptive.showActive, Adaptive.session, strict_eq in *.
    destruct HI as [_ _ _ _ _ Hi _].
    destruct w as [[? ? ? ? ? [|]] ?]; simpl in *; simplify_eq.
    + by rewrite !bool_decide_eq_true_2 by done.
    + by destruct (Hi eq_refl).
  - destruct HI as [Hf Ha Hp Ht Hc Hv Hact Hi Hw].
    unfold FastMode.session in *.
    destruct w as [[? ? ? ? ? [|]] ?]; simpl in *; simplify_eq.
    + unfold FastMode.showActive, FastMode.resetActiveTimer. simpl.
      rewrite !(bool_decide_eq_false_2 (u = EmptyString)) by done. simpl.
      rewrite !(bool_decide_eq_true_2 (Some u = Some u)) by done. simpl.
      done.
    + by destruct (Hi eq_refl).
Qed.

Lemma refresh_surface v w :
  surface (host_of (kiosk v) (refresh v w)) = surface (host_of (kiosk v) w).
Proof.
  destruct v; simpl; [done|..].
  - by open_io w.
  - by open_ad w.
  - by open_fm w.
Qed.

Lemma refresh_display_session v w :
  display (kiosk v) (refresh v w) = display (kiosk v) w /\
  session_of (kiosk v) (refresh v w) = session_of (kiosk v) w.
Proof.
  destruct v; simpl; [done|..].
  - by open_io w.
  - by open_ad w.
  - by open_fm w.
Qed.

Lemma refresh_rearms v w :
  v <> redirect ->
  let w' := refresh v w in
  alive_slot (kiosk v) w' = Some (next_handle (host_of (kiosk v) w)) /\
  timers (host_of (kiosk v) w') !! next_handle (host_of (kiosk v) w) =
    Some (mkTimer cb_showIdle
            (now (host_of (kiosk v) w') + inactivityTimeoutMs (kiosk v)) None).
Proof.
  intros Hv. destruct v; simpl; [done|..].
  - open_io w; red_host; by rewrite lookup_insert_eq.
  - open_ad w; red_host; by rewrite lookup_insert_eq.
  - open_fm w; red_host; by rewrite lookup_insert_eq.
Qed.

Lemma Inv_alive_unique v w id t :
  Inv v w -> live (kiosk v) w Inactivity id t -> alive_slot (kiosk v) w = Some id.
Proof.
  intros HI [Hid Hk].
  destruct v; simpl in *.
  - destruct (rd_alive _ HI) as [_ H]. by apply (H _ _ Hid).
  - destruct (io_alive _ HI) as [_ H]. by apply (H _ _ Hid).
  - destruct (ad_alive _ HI) as [_ H]. by apply (H _ _ Hid).
  - destruct (fm_alive _ HI) as [_ H]. by apply (H _ _ Hid).
Qed.

(** ** An active record with another URL than the session's *)

Lemma change_effect v w r d u :
  Inv v w -> reports_active r d -> formUrl d = Some u ->
  formUrl d <> snd (session_of (kiosk v) w) ->
  let w' := after_poll (kiosk v) r w in
  writes (host_of (kiosk v) w') =
    (if keeps_frame_warm v && bool_decide (get_src (host_of (kiosk v) w) = u)
     then writes (host_of (kiosk v) w)
     else u :: writes (host_of (kiosk v) w)) /\
  frame_attr (host_of (kiosk v) w') =
    (if keeps_frame_warm v && bool_decide (get_src (host_of (kiosk v) w) = u)
     then frame_attr (host_of (kiosk v) w)
     else Some u) /\
  session_of (kiosk v) w' = session_of_record (kiosk v) d /\
  display (kiosk v) w' = ActiveLoading /\
  onload (host_of (kiosk v) w') = Some (onload_for (accepted_id (kiosk v) (itemId d))) /\
  location_href (host_of (kiosk v) w') = location_href (host_of (kiosk v) w).
Proof.
  intros HI (Hr & Hact & (u' & Hu' & Hne)%truthy_Some) Hu Hs. rewrite after_poll_eq.
  destruct d as [act it fu]. simpl in *. subst act fu. simplify_eq.
  destruct v; simpl in *;
    unfold redirect_cycle, iframe_only_cycle, adaptive_cycle, fast_mode_cycle,
      session_of_record;
    rewrite Hr; simpl; rewrite ?bool_decide_eq_false_2 by done; simpl.
  - unfold Redirect.showActive, strict_eq.
    rewrite (bool_decide_eq_false_2 (_ = Some u)) by done. rewrite andb_false_r.
    open_rd w; red_host; done.
  - unfold IframeOnly.showActive, strict_eq.
    rewrite (bool_decide_eq_false_2 (_ = Some u)) by done. rewrite andb_false_r.
    open_io w; red_host; done.
  - unfold Adaptive.showActive, strict_eq.
    rewrite (bool_decide_eq_false_2 (_ = Some u)) by done. rewrite andb_false_r.
    open_ad w; cbn_host; unfold get_src; cbn_host; case_bool_decide; red_host; done.
  - unfold FastMode.showActive. simpl.
    rewrite !(bool_decide_eq_false_2 (u = EmptyString)) by done. simpl.
    open_fm w; cbn_host; unfold get_src; cbn_host.
    all: rewrite !(bool_decide_eq_false_2 (lu = Some u)) by done; cbn_host.
    all: repeat (case_bool_decide; cbn_host); first [done | congruence].
Qed.

(** ** When the loading overlay goes away *)

Ltac red_kiosk :=
  lazy beta iota zeta delta
    [display host_of session_of alive_slot accepted_id on_timeout step_of boot
     inactivityTimeoutMs idlePollIntervalMs activePollIntervalMs kiosk world
     idle_and_empty observable live] in *.

Lemma redirect_showActive_display u i w :
  displayState (Redirect.host (Redirect.showActive u i w)) = displayState (Redirect.host w) \/
  displayState (Redirect.host (Redirect.showActive u i w)) = ActiveLoading.
Proof.
  unfold Redirect.showActive. case_match; [by left|right]. by open_rd w.
Qed.

Lemma iframe_only_showActive_display u i w :
  displayState (IframeOnly.host (IframeOnly.showActive u i w)) = displayState (IframeOnly.host w) \/
  displayState (IframeOnly.host (IframeOnly.showActive u i w)) = ActiveLoading.
Proof.
  unfold IframeOnly.showActive. case_match; [left|right]; by open_io w.
Qed.

Lemma adaptive_showActive_display u i w :
  displayState (Adaptive.host (Adaptive.showActive u i w)) = displayState (Adaptive.host w) \/
  displayState (Adaptive.host (Adaptive.showActive u i w)) = ActiveLoading.
Proof.
  unfold Adaptive.showActive. case_match; [left|right].
  - by open_ad w.
  - open_ad w; cbn_host; case_bool_decide; by red_host.
Qed.

Lemma fast_mode_showActive_display u i w :
  displayState (FastMode.host (FastMode.showActive u i w)) = displayState (FastMode.host w) \/
  displayState (FastMode.host (FastMode.showActive u i w)) = ActiveLoading.
Proof.
  unfold FastMode.showActive, truthy. destruct u as [u|].
  - open_fm w; cbn_host; repeat (case_bool_decide; cbn_host); red_host; auto.
  - open_fm w; cbn_host; repeat (case_bool_decide; cbn_host); red_host; auto.
Qed.

Lemma badge_display b t h : displayState (setBadge b t h) = displayState h.
Proof. destruct b; [|done]. by open_host h. Qed.

Lemma redirect_showIdle_display w :
  displayState (Redirect.host (Redirect.showIdle w)) = Idle.
Proof. by open_rd w. Qed.

Lemma iframe_only_showIdle_display w :
  displayState (IframeOnly.host (IframeOnly.showIdle w)) = Idle.
Proof. by open_io w. Qed.

Lemma adaptive_showIdle_display w :
  Adaptive_Inv w -> displayState (Adaptive.host (Adaptive.showIdle w)) = Idle.
Proof. intros H. by destruct (adaptive_showIdle_idle w H). Qed.

Lemma fast_mode_showIdle_display w :
  FastMode_Inv w -> displayState (FastMode.host (FastMode.showIdle w)) = Idle.
Proof. intros H. by destruct (fast_mode_showIdle_idle w H). Qed.

(** A poll cycle leaves the display as it was, or Idle, or ActiveLoading. *)
Lemma cycle_display v r w :
  Inv v w ->
  display (kiosk v) (after_poll (kiosk v) r w) = display (kiosk v) w \/
  display (kiosk v) (after_poll (kiosk v) r w) = Idle \/
  display (kiosk v) (after_poll (kiosk v) r w) = ActiveLoading.
Proof.
  intros HI. rewrite after_poll_eq. red_kiosk.
  destruct v;
    unfold redirect_cycle, iframe_only_cycle, adaptive_cycle, fast_mode_cycle;
    repeat case_match;
    unfold Redirect.on_host, IframeOnly.on_host, Adaptive.on_host, FastMode.on_host;
    cbn [Redirect.host IframeOnly.host Adaptive.host FastMode.host];
    rewrite ?badge_display.
  all: lazymatch goal with
       | |- context [Redirect.showIdle _] => right; left; apply redirect_showIdle_display
       | |- context [IframeOnly.showIdle _] => right; left; apply iframe_only_showIdle_display
       | |- context [Adaptive.showIdle _] => right; left; by apply adaptive_showIdle_display
       | |- context [FastMode.showIdle _] => right; left; by apply fast_mode_showIdle_display
       | |- context [Redirect.showActive ?u ?i ?w] =>
           destruct (redirect_showActive_display u i w); auto
       | |- context [IframeOnly.showActive ?u ?i ?w] =>
           destruct (iframe_only_showActive_display u i w); auto
       | |- context [Adaptive.showActive ?u ?i ?w] =>
           destruct (adaptive_showActive_display u i w); auto
       | |- context [FastMode.showActive ?u ?i ?w] =>
           destruct (fast_mode_showActive_display u i w); auto
       | |- _ => by left
       end.
Qed.

Lemma fire_display id h cb h' : fire id h = Some (cb, h') -> displayState h' = displayState h.
Proof. intros H. rewrite (fire_only_timers _ _ _ _ H). by open_host h. Qed.

Lemma fire_location id h cb h' : fire id h = Some (cb, h') -> location_href h' = location_href h.
Proof. intros H. rewrite (fire_only_timers _ _ _ _ H). by open_host h. Qed.

(** The display becomes ActiveLoaded only by the iframe's load event or, in
    the first version, by the grace timer sending the tab to the form. *)
Lemma loaded_only_by_load v w ev w2 :
  Inv v w -> step_of (kiosk v) ev w = Some w2 ->
  display (kiosk v) w <> ActiveLoaded -> display (kiosk v) w2 = ActiveLoaded ->
  ev = FrameLoads \/ (v = redirect /\ is_Some (location_href (host_of (kiosk v) w2))).
Proof.
  intros HI Hstep Hw Hw2.
  destruct ev as [dt|id|r| |vis]; [exfalso|..|by left|exfalso].
  - (* time passes *)
    apply Hw. rewrite <- Hw2. clear Hw Hw2. red_kiosk.
    destruct v; simpl in Hstep; unfold Redirect.step in Hstep;
      repeat case_match; simplify_eq.
    + by open_rd w.
    + by open_io w.
    + by open_ad w.
    + by open_fm w.
  - (* a timer fires *)
    destruct v; simpl in Hstep; unfold Redirect.step in Hstep; red_kiosk.
    + destruct (location_href (Redirect.host w)) eqn:Hloc; [done|].
      destruct (fire id (Redirect.host w)) as [[cb h']|] eqn:Hfire; [|done].
      simplify_eq. pose proof (fire_display _ _ _ _ Hfire) as Hd.
      pose proof (fire_location _ _ _ _ Hfire) as Hl.
      destruct cb as [|u|];
        cbn [Redirect.run_callback IframeOnly.run_callback Adaptive.run_callback
             FastMode.run_callback] in Hw2 |- *.
      * by rewrite redirect_showIdle_display in Hw2.
      * unfold Redirect.grace_callback in *.
        cbn [Redirect.state] in *.
        destruct (Redirect.redirecting (Redirect.state w)); cbn [negb] in *.
        -- exfalso. apply Hw. by rewrite <- Hd.
        -- right. split; [done|]. by destruct h' as [[] ?].
      * exfalso. apply Hw. rewrite <- Hd, <- Hw2. by destruct h' as [[] ?].
    + exfalso.
      destruct (fire id (IframeOnly.host w)) as [[cb h']|] eqn:Hfire; [|done].
      simplify_eq. pose proof (fire_display _ _ _ _ Hfire) as Hd.
      destruct cb as [|u|];
        cbn [Redirect.run_callback IframeOnly.run_callback Adaptive.run_callback
             FastMode.run_callback] in Hw2 |- *.
      * by rewrite iframe_only_showIdle_display in Hw2.
      * apply Hw. by rewrite <- Hd.
      * apply Hw. rewrite <- Hd, <- Hw2. by destruct h' as [[] ?].
    + exfalso.
      destruct (fire id (Adaptive.host w)) as [[cb h']|] eqn:Hfire; [|done].
      simplify_eq. pose proof (fire_display _ _ _ _ Hfire) as Hd.
      pose proof (adaptive_fire_inv _ _ _ _ HI Hfire) as HI'.
      destruct cb as [|u|];
        cbn [Redirect.run_callback IframeOnly.run_callback Adaptive.run_callback
             FastMode.run_callback] in Hw2 |- *.
      * by rewrite adaptive_showIdle_display in Hw2.
      * apply Hw. by rewrite <- Hd.
      * apply Hw. rewrite <- Hd, <- Hw2. by destruct h' as [[] ?].
    + exfalso.
      destruct (fire id (FastMode.host w)) as [[cb h']|] eqn:Hfire; [|done].
      simplify_eq. pose proof (fire_display _ _ _ _ Hfire) as Hd.
      pose proof (fast_mode_fire_inv _ _ _ _ HI Hfire) as HI'.
      destruct cb as [|u|];
        cbn [Redirect.run_callback IframeOnly.run_callback Adaptive.run_callback
             FastMode.run_callback] in Hw2 |- *.
      * by rewrite fast_mode_showIdle_display in Hw2.
      * apply Hw. by rewrite <- Hd.
      * apply Hw. rewrite <- Hd, <- Hw2. by destruct h' as [[] ?].
  - (* a fetch settles *)
    exfalso.
    assert (exists w1, Inv v w1 /\ display (kiosk v) w1 = display (kiosk v) w /\
                       w2 = after_poll (kiosk v) r w1) as (w1 & HI1 & Hd1 & ->).
    { destruct v; simpl in Hstep; unfold Redirect.step in Hstep; repeat case_match; simplify_eq.
      - eexists; split; [by eapply (redirect_settle_inv w)|]. split; [|done]. by open_rd w.
      - eexists; split; [by eapply (iframe_only_settle_inv w)|]. split; [|done]. by open_io w.
      - eexists; split; [by eapply (adaptive_settle_inv w)|]. split; [|done]. by open_ad w.
      - eexists; split; [by eapply (fast_mode_settle_inv w)|]. split; [|done]. by open_fm w. }
    destruct (cycle_display v r w1 HI1) as [E|[E|E]]; rewrite E in Hw2; [congruence|done..].
  - (* visibility *)
    apply Hw. rewrite <- Hw2. clear Hw Hw2. red_kiosk.
    destruct v; simpl in Hstep; unfold Redirect.step in Hstep;
      repeat case_match; simplify_eq; try done.
    + destruct vis; by open_ad w.
    + destruct vis; by open_fm w.
Qed.

Lemma load_completes v w k :
  onload (host_of (kiosk v) w) = Some k ->
  display (kiosk v) w <> Idle ->
  location_href (host_of (kiosk v) w) = None ->
  exists w', step_of (kiosk v) FrameLoads w = Some w' /\ display (kiosk v) w' = ActiveLoaded.
Proof.
  intros Hk Hd Hloc. red_kiosk. destruct k as [i].
  destruct v; simpl; unfold Redirect.step; rewrite ?Hloc, Hk; eexists; (split; [done|]).
  - open_rd w; destruct hi; done.
  - open_io w; destruct hi; done.
  - open_ad w; destruct hi; done.
  - open_fm w; destruct hi; done.
Qed.

(** While a session is on screen, the warm iframe is on the session's URL. *)
Lemma warm_frame_is_session v w u :
  Inv v w -> keeps_frame_warm v = true -> snd (session_of (kiosk v) w) = Some u ->
  frame_shows (host_of (kiosk v) w) u.
Proof.
  intros HI Hv Hs. destruct v; try done; simpl in *.
  - destruct (Adaptive.isActive (Adaptive.state w)) eqn:E.
    + destruct (ad_session _ HI E) as (i & u' & Hs' & Hf).
      unfold Adaptive.session in Hs'. by simplify_eq.
    + destruct (ad_idle _ HI E) as [Hs' _].
      unfold Adaptive.session, empty_session in Hs'. by simplify_eq.
  - by apply (fm_warm _ HI).
Qed.

(** ** Cadence and uniqueness of the timers *)

Lemma timed_poll c tm id t :
  timed_tbl c tm -> tm !! id = Some t -> kind_of (tm_callback t) = Poll -> tm_every t = Some c.
Proof.
  intros H Ht Hk. apply H in Ht. unfold timed in Ht. by destruct (tm_callback t).
Qed.

Lemma kind_Inactivity cb : kind_of cb = Inactivity -> cb = cb_showIdle.
Proof. by destruct cb. Qed.

Lemma Inv_timed v w :
  Inv v w ->
  timed_tbl (if decide (display (kiosk v) w = Idle)
             then idlePollIntervalMs (kiosk v) else activePollIntervalMs (kiosk v))
            (timers (host_of (kiosk v) w)).
Proof.
  intros HI. unfold display, displayState. destruct v; simpl in *.
  - case_decide; apply (rd_timed _ HI).
  - case_decide; apply (io_timed _ HI).
  - pose proof (ad_timed _ HI) as Ht. rewrite (ad_view _ HI).
    destruct (Adaptive.isActive (Adaptive.state w)); simpl.
    + by destruct (hid_loading _).
    + done.
  - pose proof (fm_timed _ HI) as Ht. rewrite (fm_cadence _ HI) in Ht. rewrite (fm_view _ HI).
    destruct (FastMode.isActive (FastMode.state w)); simpl.
    + by destruct (hid_loading _).
    + done.
Qed.

Lemma Inv_fresh v w : Inv v w -> handles_fresh (host_of (kiosk v) w).
Proof.
  destruct v; simpl; intros HI.
  - apply (rd_fresh _ HI).
  - apply (io_fresh _ HI).
  - apply (ad_fresh _ HI).
  - apply (fm_fresh _ HI).
Qed.

Lemma Inv_alive v w :
  Inv v w -> keyed Inactivity (alive_slot (kiosk v) w) (host_of (kiosk v) w).
Proof.
  destruct v; simpl; intros HI.
  - apply (rd_alive _ HI).
  - apply (io_alive _ HI).
  - apply (ad_alive _ HI).
  - apply (fm_alive _ HI).
Qed.

Lemma Inv_poll v w :
  Inv v w -> exists slot, keyed Poll slot (host_of (kiosk v) w).
Proof.
  destruct v; simpl; intros HI; eexists.
  - apply (rd_poll _ HI).
  - apply (io_poll _ HI).
  - apply (ad_poll _ HI).
  - apply (fm_poll _ HI).
Qed.

Lemma keyed_live_unique k slot h i j ti tj :
  keyed k slot h -> timers h !! i = Some ti -> timers h !! j = Some tj ->
  kind_of (tm_callback ti) = k -> kind_of (tm_callback tj) = k -> i = j.
Proof. intros [_ H] Hi Hj Ki Kj. apply (H _ _ Hi) in Ki. apply (H _ _ Hj) in Kj. congruence. Qed.

(** ** Before the first response *)

Lemma displayState_Idle h : displayState h = Idle <-> hid_idle (hidden h) = false.
Proof.
  unfold displayState. destruct (hid_idle (hidden h)); simpl; [|done].
  by destruct (hid_loading (hidden h)).
Qed.

Lemma idle_no_inactivity v w :
  Inv v w -> display (kiosk v) w = Idle -> keyed Inactivity None (host_of (kiosk v) w).
Proof.
  intros HI Hd%displayState_Idle.
  destruct v; simpl in *.
  - destruct (rd_idle _ HI Hd) as [Hs _]. pose proof (rd_alive _ HI) as Ha. by rewrite Hs in Ha.
  - destruct (io_idle _ HI Hd) as [Hs _]. pose proof (io_alive _ HI) as Ha. by rewrite Hs in Ha.
  - rewrite (ad_view _ HI) in Hd.
    destruct (ad_idle _ HI Hd) as [_ Hs]. pose proof (ad_alive _ HI) as Ha. by rewrite Hs in Ha.
  - rewrite (fm_view _ HI) in Hd.
    by destruct (fm_idle _ HI Hd).
Qed.

Lemma step_Inv v ev w w' : Inv v w -> step_of (kiosk v) ev w = Some w' -> Inv v w'.
Proof.
  destruct v; simpl; intros HI Hs.
  - by eapply redirect_step_inv.
  - by eapply iframe_only_step_inv.
  - by eapply adaptive_step_inv.
  - by eapply fast_mode_step_inv.
Qed.

Lemma boot_idle v p : idle_and_empty v (boot (kiosk v) p) /\ inflight (host_of (kiosk v) (boot (kiosk v) p)) = 1%nat.
Proof.
  destruct p as [[hi ha hl hf hr hb] bt fa lk t0 rs].
  destruct v; try done. by destruct hi.
Qed.

Lemma idle_and_empty_same v w w' :
  display (kiosk v) w' = display (kiosk v) w ->
  session_of (kiosk v) w' = session_of (kiosk v) w ->
  idle_and_empty v w -> idle_and_empty v w'.
Proof. intros Hd Hs [? ?]. split; congruence. Qed.

Lemma onload_keeps_view v w k :
  match v return world (kiosk v) -> Prop with
  | redirect => fun w =>
      display (kiosk redirect) (Redirect.frame_onload_handler k w) = Idle <->
      display (kiosk redirect) w = Idle
  | iframe_only => fun w =>
      display (kiosk iframe_only) (IframeOnly.frame_onload_handler k w) = Idle <->
      display (kiosk iframe_only) w = Idle
  | adaptive => fun w =>
      display (kiosk adaptive) (Adaptive.frame_onload_handler k w) = Idle <->
      display (kiosk adaptive) w = Idle
  | fast_mode => fun w =>
      display (kiosk fast_mode) (FastMode.frame_onload_handler k w) = Idle <->
      display (kiosk fast_mode) w = Idle
  end w.
Proof.
  destruct k as [i]. destruct v; red_kiosk; rewrite !displayState_Idle.
  - by open_rd w.
  - by open_io w.
  - by open_ad w.
  - by open_fm w.
Qed.

(** Events other than a response keep an idle loop idle. *)
Lemma quiet_step_idle v ev w w' :
  Inv v w -> idle_and_empty v w -> brings_response ev = false ->
  step_of (kiosk v) ev w = Some w' -> idle_and_empty v w'.
Proof.
  intros HI HIE Hev Hstep.
  destruct ev as [dt|id|r| |vis]; [|  |done| | ].
  - (* time passes *)
    revert HIE. apply idle_and_empty_same;
      destruct v; simpl in Hstep; unfold Redirect.step in Hstep;
      repeat case_match; simplify_eq; done.
  - (* a timer fires *)
    destruct HIE as [Hd Hs].
    destruct v; simpl in Hstep; unfold Redirect.step in Hstep.
    + destruct (location_href (Redirect.host w)) eqn:Hloc; [done|].
      destruct (fire id (Redirect.host w)) as [[cb h']|] eqn:Hfire; [|done].
      simplify_eq. pose proof (fire_display _ _ _ _ Hfire) as Hd'.
      destruct (fire_Some _ _ _ _ Hfire) as (t & Hid & _ & -> & _).
      destruct (tm_callback t) as [|u|] eqn:Hcb; cbn [Redirect.run_callback].
      * apply redirect_showIdle_idle.
      * apply displayState_Idle in Hd.
        assert (hid_idle (hidden (Redirect.host w)) = true) as E
          by (eapply redirect_live_grace_active; [done..|by rewrite Hcb]).
        cbn [host_of kiosk] in Hd. congruence.
      * split; [|done]. unfold display in *. cbn [host_of kiosk] in *.
        transitivity (displayState h'); [by destruct h' as [[] ?]|by rewrite Hd'].
    + destruct (fire id (IframeOnly.host w)) as [[cb h']|] eqn:Hfire; [|done].
      simplify_eq. pose proof (fire_display _ _ _ _ Hfire) as Hd'.
      destruct cb as [|u|]; cbn [IframeOnly.run_callback].
      * apply iframe_only_showIdle_idle.
      * split; [|done]. change (displayState h' = Idle). by rewrite Hd'.
      * split; [|done]. unfold display in *. cbn [host_of kiosk] in *.
        transitivity (displayState h'); [by destruct h' as [[] ?]|by rewrite Hd'].
    + destruct (fire id (Adaptive.host w)) as [[cb h']|] eqn:Hfire; [|done].
      simplify_eq. pose proof (fire_display _ _ _ _ Hfire) as Hd'.
      pose proof (adaptive_fire_inv _ _ _ _ HI Hfire) as HI'.
      destruct cb as [|u|]; cbn [Adaptive.run_callback].
      * by apply adaptive_showIdle_idle.
      * split; [|done]. change (displayState h' = Idle). by rewrite Hd'.
      * split; [|done]. unfold display in *. cbn [host_of kiosk] in *.
        transitivity (displayState h'); [by destruct h' as [[] ?]|by rewrite Hd'].
    + destruct (fire id (FastMode.host w)) as [[cb h']|] eqn:Hfire; [|done].
      simplify_eq. pose proof (fire_display _ _ _ _ Hfire) as Hd'.
      pose proof (fast_mode_fire_inv _ _ _ _ HI Hfire) as HI'.
      destruct cb as [|u|]; cbn [FastMode.run_callback].
      * by apply fast_mode_showIdle_idle.
      * split; [|done]. change (displayState h' = Idle). by rewrite Hd'.
      * split; [|done]. unfold display in *. cbn [host_of kiosk] in *.
        transitivity (displayState h'); [by destruct h' as [[] ?]|by rewrite Hd'].
  - (* the iframe's load event *)
    destruct HIE as [Hd Hs].
    destruct v; simpl in Hstep; unfold Redirect.step in Hstep;
      repeat case_match; simplify_eq; try done.
    + split; [by apply (onload_keeps_view redirect)|].
      match goal with k : Handler |- _ => destruct k end. rewrite <- Hs. by open_rd w.
    + split; [by apply (onload_keeps_view iframe_only)|].
      match goal with k : Handler |- _ => destruct k end. rewrite <- Hs. by open_io w.
    + split; [by apply (onload_keeps_view adaptive)|].
      match goal with k : Handler |- _ => destruct k end. rewrite <- Hs. by open_ad w.
    + split; [by apply (onload_keeps_view fast_mode)|].
      match goal with k : Handler |- _ => destruct k end. rewrite <- Hs. by open_fm w.
  - (* visibility *)
    revert HIE. apply idle_and_empty_same;
      destruct v; simpl in Hstep; unfold Redirect.step in Hstep;
      repeat case_match; simplify_eq; try done; destruct vis.
    all: first [by open_ad w | by open_fm w].
Qed.

Lemma quiet_run_idle v evs w w' :
  Inv v w -> idle_and_empty v w -> forallb (fun ev => negb (brings_response ev)) evs = true ->
  run (kiosk v) evs w = Some w' -> idle_and_empty v w'.
Proof.
  revert w. induction evs as [|ev evs IH]; intros w HI HIE Hq; simpl.
  - by intros [= <-].
  - simpl in Hq. apply andb_true_iff in Hq as [Hev Hq]. apply negb_true_iff in Hev.
    destruct (step_of (kiosk v) ev w) as [w1|] eqn:E; [|done].
    apply IH; [by eapply step_Inv|by eapply quiet_step_idle|done].
Qed.

(** ** Recovery from failed polls *)

Lemma poll_returns v r w : fst (poll (kiosk v) r w) = inr tt.
Proof.
  destruct v; simpl.
  - by rewrite redirect_pollLoop_eq.
  - by rewrite iframe_only_pollOnce_eq.
  - by rewrite adaptive_pollOnce_eq.
  - by rewrite fast_mode_pollOnce_eq.
Qed.

Lemma redirect_has_poll w : Redirect_Inv w -> has_poll_timer (Redirect.host w).
Proof.
  intros HI. destruct (rd_poll_live _ HI) as [t Ht]. exists 1%positive, t. split; [done|].
  destruct (rd_poll _ HI) as [_ H]. by apply (H _ _ Ht).
Qed.

Lemma iframe_only_has_poll w : IframeOnly_Inv w -> has_poll_timer (IframeOnly.host w).
Proof.
  intros HI. destruct (io_poll_live _ HI) as [t Ht]. exists 1%positive, t. split; [done|].
  destruct (io_poll _ HI) as [_ H]. by apply (H _ _ Ht).
Qed.

Ltac poll_kept :=
  match goal with
  | Hl : ?tm !! ?id = Some ?t |- has_poll_timer _ =>
      unfold has_poll_timer; cbn [timers];
      first
        [ eexists _, _; split; [apply lookup_insert_eq|reflexivity]
        | exists id, t; split; [|assumption];
          slot_facts;
          repeat match goal with
          | H : keyed_tbl ?k (Some ?a) tm _ |- _ =>
              note (id <> a) ltac:(eapply (keyed_slot _ _ k a id t H Hl); congruence)
          end;
          lookup_norm; done ]
  end.

Lemma adaptive_showIdle_has_poll w :
  Adaptive_Inv w -> has_poll_timer (Adaptive.host w) ->
  has_poll_timer (Adaptive.host (Adaptive.showIdle w)).
Proof.
  intros [Hf Ha Hp Ht Hv Hi Hs] (id & t & Hl & Hk).
  open_ad w; red_host; subst; red_host; try (by exists id, t); poll_kept.
Qed.

Lemma fast_mode_showActive_has_poll u i w :
  FastMode_Inv w -> has_poll_timer (FastMode.host w) ->
  has_poll_timer (FastMode.host (FastMode.showActive u i w)).
Proof.
  intros [Hf Ha Hp Ht Hc Hv Hact Hi Hw] (id & t & Hl & Hk).
  unfold FastMode.showActive, truthy. destruct u as [u|].
  - open_fm w; cbn_host; subst; repeat (case_bool_decide; cbn_host); red_host; poll_kept.
  - open_fm w; cbn_host; subst; repeat (case_bool_decide; cbn_host); red_host; poll_kept.
Qed.

Lemma badge_has_poll b t h : has_poll_timer (setBadge b t h) <-> has_poll_timer h.
Proof. destruct b; [|done]. by open_host h. Qed.

(** A failed poll, or an active record without URL, leaves a poll timer. *)
Lemma recovered_has_poll v r w :
  Inv v w -> fetch_fails r \/ reports_active_without_url r ->
  has_poll_timer (host_of (kiosk v) w) ->
  has_poll_timer (host_of (kiosk v) (after_poll (kiosk v) r w)).
Proof.
  intros HI Hr Hp. pose proof (after_poll_Inv v r w HI) as HI'. revert HI'.
  rewrite after_poll_eq.
  destruct v; cbn [host_of kiosk Inv].
  - apply redirect_has_poll.
  - apply iframe_only_has_poll.
  - intros _. unfold adaptive_cycle.
    destruct Hr as [[e ->]|(d & -> & -> & ->)]; cbn [negb];
      unfold Adaptive.on_host; cbn [Adaptive.host]; apply badge_has_poll;
      by apply adaptive_showIdle_has_poll.
  - intros _. unfold fast_mode_cycle.
    destruct Hr as [[e ->]|(d & -> & -> & Hu)].
    + unfold FastMode.on_host; cbn [FastMode.host]. by apply badge_has_poll.
    + by apply fast_mode_showActive_has_poll.
Qed.

Lemma badge_location b t h : location_href (setBadge b t h) = location_href h.
Proof. destruct b; [|done]. by open_host h. Qed.

Lemma redirect_showIdle_location w :
  location_href (Redirect.host (Redirect.showIdle w)) = location_href (Redirect.host w).
Proof. by open_rd w. Qed.

Lemma iframe_only_showIdle_location w :
  location_href (IframeOnly.host (IframeOnly.showIdle w)) = location_href (IframeOnly.host w).
Proof. by open_io w. Qed.

Lemma adaptive_showIdle_location w :
  location_href (Adaptive.host (Adaptive.showIdle w)) = location_href (Adaptive.host w).
Proof. unfold Adaptive.showIdle. case_match; [done|]. by open_ad w. Qed.

Lemma fast_mode_showIdle_location w :
  location_href (FastMode.host (FastMode.showIdle w)) = location_href (FastMode.host w).
Proof. by open_fm w. Qed.

Lemma redirect_showActive_location u i w :
  location_href (Redirect.host (Redirect.showActive u i w)) = location_href (Redirect.host w).
Proof. unfold Redirect.showActive. case_match; [done|]. by open_rd w. Qed.

Lemma iframe_only_showActive_location u i w :
  location_href (IframeOnly.host (IframeOnly.showActive u i w))
  = location_href (IframeOnly.host w).
Proof. unfold IframeOnly.showActive. case_match; by open_io w. Qed.

Lemma adaptive_showActive_location u i w :
  location_href (Adaptive.host (Adaptive.showActive u i w)) = location_href (Adaptive.host w).
Proof.
  unfold Adaptive.showActive. case_match; [by open_ad w|].
  open_ad w; cbn_host; case_bool_decide; by red_host.
Qed.

Lemma fast_mode_showActive_location u i w :
  location_href (FastMode.host (FastMode.showActive u i w)) = location_href (FastMode.host w).
Proof.
  unfold FastMode.showActive, truthy. destruct u.
  - open_fm w; cbn_host; repeat (case_bool_decide; cbn_host); by red_host.
  - open_fm w; cbn_host; repeat (case_bool_decide; cbn_host); by red_host.
Qed.

(** A poll cycle never sends the tab elsewhere. *)
Lemma cycle_location v r w :
  location_href (host_of (kiosk v) (after_poll (kiosk v) r w))
  = location_href (host_of (kiosk v) w).
Proof.
  rewrite after_poll_eq.
  destruct v; cbn [host_of kiosk];
    unfold redirect_cycle, iframe_only_cycle, adaptive_cycle, fast_mode_cycle;
    repeat case_match;
    unfold Redirect.on_host, IframeOnly.on_host, Adaptive.on_host, FastMode.on_host;
    cbn [Redirect.host IframeOnly.host Adaptive.host FastMode.host];
    rewrite ?badge_location.
  all: lazymatch goal with
       | |- context [Redirect.showIdle _] => apply redirect_showIdle_location
       | |- context [IframeOnly.showIdle _] => apply iframe_only_showIdle_location
       | |- context [Adaptive.showIdle _] => apply adaptive_showIdle_location
       | |- context [FastMode.showIdle _] => apply fast_mode_showIdle_location
       | |- context [Redirect.showActive _ _ _] => apply redirect_showActive_location
       | |- context [IframeOnly.showActive _ _ _] => apply iframe_only_showActive_location
       | |- context [Adaptive.showActive _ _ _] => apply adaptive_showActive_location
       | |- context [FastMode.showActive _ _ _] => apply fast_mode_showActive_location
       | |- _ => reflexivity
       end.
Qed.

(** A due poll timer fires and sends the next request. *)
Lemma poll_timer_fires v w id t :
  live (kiosk v) w Poll id t -> location_href (host_of (kiosk v) w) = None ->
  tm_due t <= now (host_of (kiosk v) w) ->
  exists w', step_of (kiosk v) (TimerFires id) w = Some w' /\
             inflight (host_of (kiosk v) w') = S (inflight (host_of (kiosk v) w)).
Proof.
  intros [Hid Hk] Hloc Hdue. destruct (tm_callback t) eqn:Hcb; try done.
  destruct v; cbn [step_of kiosk host_of] in *;
    unfold Redirect.step, IframeOnly.step, Adaptive.step, FastMode.step, fire;
    rewrite ?Hloc, Hid, bool_decide_eq_true_2 by done; rewrite Hcb;
    eexists; (split; [reflexivity|]); by destruct (tm_every t).
Qed.

(** ** The inactivity timer *)

Lemma not_le_lt_false (a b : Z) : a < b -> bool_decide (b <= a) = false.
Proof. intros. apply bool_decide_eq_false_2. lia. Qed.

Lemma timeout_fires v w id t :
  Inv v w -> live (kiosk v) w Inactivity id t ->
  location_href (host_of (kiosk v) w) = None ->
  tm_every t = None /\
  alive_slot (kiosk v) w = Some id /\
  (now (host_of (kiosk v) w) < tm_due t -> step_of (kiosk v) (TimerFires id) w = None) /\
  (tm_due t <= now (host_of (kiosk v) w) ->
   exists w', step_of (kiosk v) (TimerFires id) w = Some w' /\
              idle_and_empty v w' /\
              keyed Inactivity None (host_of (kiosk v) w')).
Proof.
  intros HI [Hid Hk] Hloc.
  assert (tm_every t = None) as He.
  { eapply timed_kind; [apply (Inv_timed v w HI)|exact Hid|]. by rewrite Hk. }
  pose proof (kind_Inactivity _ Hk) as Hcb.
  split; [done|]. split; [by apply (Inv_alive_unique v w id t)|]. split.
  - intros Hlt.
    destruct v; cbn [step_of kiosk host_of] in *;
      unfold Redirect.step, IframeOnly.step, Adaptive.step, FastMode.step, fire;
      rewrite ?Hloc, Hid, not_le_lt_false by done; done.
  - intros Hdue.
    assert (exists w', step_of (kiosk v) (TimerFires id) w = Some w' /\ idle_and_empty v w')
      as (w' & Hstep & Hidle).
    { assert (fire id (host_of (kiosk v) w)
              = Some (cb_showIdle, set_timers (delete id (timers (host_of (kiosk v) w)))
                                     (host_of (kiosk v) w))) as Hfire.
      { unfold fire. by rewrite Hid, bool_decide_eq_true_2, Hcb, He by done. }
      destruct v; cbn [step_of kiosk host_of] in *;
        unfold Redirect.step, IframeOnly.step, Adaptive.step, FastMode.step;
        rewrite ?Hloc, Hfire; eexists; (split; [reflexivity|]);
        cbn [Redirect.run_callback IframeOnly.run_callback Adaptive.run_callback
             FastMode.run_callback].
      - apply redirect_showIdle_idle.
      - apply iframe_only_showIdle_idle.
      - apply adaptive_showIdle_idle. exact (adaptive_fire_inv _ _ _ _ HI Hfire).
      - apply fast_mode_showIdle_idle. exact (fast_mode_fire_inv _ _ _ _ HI Hfire). }
    exists w'. split; [done|]. split; [done|].
    apply idle_no_inactivity; [by eapply step_Inv|]. by destruct Hidle.
Qed.

(** An active record with a URL leaves the inactivity timer armed, due the
    timeout after the cycle; in the first version only when the record is
    not the session on screen. *)
Lemma active_poll_arms v w r d :
  Inv v w -> reports_active r d ->
  v <> redirect \/ session_of_record (kiosk v) d <> session_of (kiosk v) w ->
  exists id,
    alive_slot (kiosk v) (after_poll (kiosk v) r w) = Some id /\
    timers (host_of (kiosk v) (after_poll (kiosk v) r w)) !! id =
      Some (mkTimer cb_showIdle
              (now (host_of (kiosk v) (after_poll (kiosk v) r w)) + inactivityTimeoutMs (kiosk v))
              None).
Proof.
  intros HI (Hr & Hact & (u & Hu & Hne)%truthy_Some) Hc. rewrite after_poll_eq.
  destruct d as [act it fu]. simpl in Hact, Hu. subst act fu.
  unfold session_of_record in Hc.
  destruct v; cbn [kiosk alive_slot host_of inactivityTimeoutMs accepted_id session_of] in *;
    unfold redirect_cycle, iframe_only_cycle, adaptive_cycle, fast_mode_cycle;
    rewrite Hr; cbn [active formUrl itemId negb truthy default from_option];
    rewrite ?bool_decide_eq_false_2 by done; cbn [negb].
  - destruct Hc as [?|Hc]; [done|].
    unfold Redirect.showActive, strict_eq, Redirect.session in *.
    open_rd w; cbn_host; cbn in Hc; repeat (case_bool_decide; cbn_host);
      try (exfalso; apply Hc; subst; reflexivity);
      red_host; eexists; (split; [reflexivity|]); by rewrite lookup_insert_eq.
  - clear Hc. destruct HI as [Hf Ha Hp Hl Ht Hv Hi Hs].
    unfold IframeOnly.showActive, strict_eq.
    open_io w; cbn_host; repeat (case_bool_decide; cbn_host); red_host;
      eexists; (split; [reflexivity|]); by rewrite lookup_insert_eq.
  - clear Hc. destruct HI as [Hf Ha Hp Ht Hv Hi Hs].
    unfold Adaptive.showActive, strict_eq.
    open_ad w; cbn_host; repeat (case_bool_decide; cbn_host); red_host;
      eexists; (split; [reflexivity|]); slot_facts; lookup_norm; done.
  - clear Hc. destruct HI as [Hf Ha Hp Ht Hc Hv Hact Hi Hw].
    unfold FastMode.showActive. cbn [truthy].
    rewrite !(bool_decide_eq_false_2 (u = EmptyString)) by done. cbn [negb].
    open_fm w; cbn_host; repeat (case_bool_decide; cbn_host); red_host;
      eexists; (split; [reflexivity|]); slot_facts; lookup_norm; done.
Qed.

(** [showIdle] on an idle loop changes nothing that can be observed. *)
Lemma idle_timeout_noop v w :
  Inv v w -> display (kiosk v) w = Idle ->
  observable (kiosk v) (on_timeout (kiosk v) w) = observable (kiosk v) w.
Proof.
  intros HI Hd%displayState_Idle.
  destruct v; cbn [kiosk host_of on_timeout] in *.
  - destruct (rd_idle _ HI Hd) as (Hs & Hf & Hh).
    open_rd w; red_host; simplify_eq; done.
  - destruct (io_idle _ HI Hd) as (Hs & Hf & Hh).
    open_io w; red_host; simplify_eq; done.
  - pose proof (ad_view _ HI) as Hv. rewrite Hd in Hv.
    destruct w as [[li lu a p cur act] h]. cbn in Hv, Hd. subst act.
    open_host h. cbn in Hd. subst. reflexivity.
  - pose proof (fm_view _ HI) as Hv. rewrite Hd in Hv.
    destruct w as [[li lu a p cur act] h]. cbn in Hv. subst act.
    open_host h. reflexivity.
Qed.

(** ** The grace timer of the first version *)

Lemma redirect_not_redirecting w :
  Redirect_Inv w -> location_href (Redirect.host w) = None ->
  Redirect.redirecting (Redirect.state w) = false.
Proof.
  intros HI Hloc. destruct (Redirect.redirecting _) eqn:E; [|done].
  destruct (rd_redirecting _ HI E) as [x Hx]. congruence.
Qed.

Lemma redirect_grace_slot w g t :
  Redirect_Inv w -> timers (Redirect.host w) !! g = Some t ->
  kind_of (tm_callback t) = Grace ->
  exists u since,
    Redirect.iframeLoadTimer (Redirect.state w) = Some g /\
    Redirect.lastFormUrl (Redirect.state w) = Some u /\
    Redirect.activeSince (Redirect.state w) = Some since /\
    t = mkTimer (cb_grace u) (since + Redirect.IFRAME_LOAD_GRACE_MS) None.
Proof.
  intros HI Hid Hk.
  apply (proj2 (rd_grace _ HI) _ _ Hid) in Hk.
  destruct (rd_grace_url _ HI _ _ Hk Hid) as (u & since & Hu & Hs & Ht). eauto 6.
Qed.

Lemma session_change_arms_grace w r d u :
  Redirect_Inv w -> reports_active r d -> formUrl d = Some u ->
  session_of_record (kiosk redirect) d <> Redirect.session w ->
  writes (Redirect.host (redirect_cycle r w)) = u :: writes (Redirect.host w) /\
  exists g,
    Redirect.iframeLoadTimer (Redirect.state (redirect_cycle r w)) = Some g /\
    timers (Redirect.host (redirect_cycle r w)) !! g =
      Some (mkTimer (cb_grace u)
              (now (Redirect.host (redirect_cycle r w)) + Redirect.IFRAME_LOAD_GRACE_MS) None).
Proof.
  intros HI (Hr & Hact & (u' & Hu' & Hne)%truthy_Some) Hu Hc.
  destruct d as [act it fu]. simpl in Hact, Hu, Hu'. subst act fu. simplify_eq.
  unfold session_of_record in Hc. cbn [kiosk accepted_id formUrl itemId] in Hc.
  unfold redirect_cycle. rewrite Hr. cbn [active formUrl itemId negb truthy default from_option].
  rewrite ?bool_decide_eq_false_2 by done. cbn [negb].
  destruct HI as [Hf Ha Hg Hp Hl Ht Hv Hi Hs Hrd Hgu].
  unfold Redirect.showActive, strict_eq, Redirect.session in *.
  open_rd w; cbn_host; cbn in Hc; repeat (case_bool_decide; cbn_host);
    try (exfalso; apply Hc; subst; reflexivity);
    red_host; (split; [reflexivity|]); eexists; (split; [reflexivity|]);
    slot_facts; lookup_norm; done.
Qed.

Lemma grace_fires w g t :
  Redirect_Inv w -> timers (Redirect.host w) !! g = Some t ->
  kind_of (tm_callback t) = Grace ->
  location_href (Redirect.host w) = None ->
  exists u since,
    Redirect.lastFormUrl (Redirect.state w) = Some u /\
    Redirect.activeSince (Redirect.state w) = Some since /\
    t = mkTimer (cb_grace u) (since + Redirect.IFRAME_LOAD_GRACE_MS) None /\
    (now (Redirect.host w) < since + Redirect.IFRAME_LOAD_GRACE_MS ->
     Redirect.step (TimerFires g) w = None) /\
    (since + Redirect.IFRAME_LOAD_GRACE_MS <= now (Redirect.host w) ->
     Redirect.step (TimerFires g) w
       = Some (Redirect.switchToRedirect u
                 (Redirect.on_host (fun h => set_timers (delete g (timers h)) h) w))).
Proof.
  intros HI Hid Hk Hloc.
  destruct (redirect_grace_slot w g t HI Hid Hk) as (u & since & Hg & Hu & Hs & ->).
  pose proof (redirect_not_redirecting w HI Hloc) as Hred.
  exists u, since. split; [done|]. split; [done|]. split; [done|]. split.
  - intros Hlt. unfold Redirect.step, fire. rewrite Hloc, Hid. cbn [tm_due].
    by rewrite not_le_lt_false.
  - intros Hdue. unfold Redirect.step, fire. rewrite Hloc, Hid. cbn [tm_due].
    rewrite bool_decide_eq_true_2 by done.
    cbn [tm_every tm_callback Redirect.run_callback]. unfold Redirect.grace_callback.
    cbn [Redirect.state Redirect.redirecting]. rewrite Hred. reflexivity.
Qed.

Lemma switchToRedirect_terminal u w :
  location_href (Redirect.host (Redirect.switchToRedirect u w)) = Some u /\
  link_href (Redirect.host (Redirect.switchToRedirect u w)) = Some u /\
  terminated (kiosk redirect) (Redirect.switchToRedirect u w).
Proof.
  split; [by open_rd w|]. split; [by open_rd w|].
  intros ev. cbn [kiosk step_of]. unfold Redirect.step.
  replace (location_href (Redirect.host (Redirect.switchToRedirect u w))) with (Some u)
    by (by open_rd w).
  done.
Qed.

Lemma redirect_showActive_cases u i w :
  Redirect.showActive u i w = w \/
  Redirect.session (Redirect.showActive u i w) <> Redirect.session w.
Proof.
  unfold Redirect.showActive, strict_eq. cbv zeta.
  destruct (bool_decide (Redirect.lastItemId (Redirect.state w) = Some i)) eqn:E1;
    [destruct (bool_decide (Redirect.lastFormUrl (Redirect.state w) = Some u)) eqn:E2|];
    cbn [andb]; [by left|right..].
  - apply bool_decide_eq_false in E2. intros [= _ H]. by apply E2.
  - apply bool_decide_eq_false in E1. intros [= H _]. by apply E1.
Qed.

Lemma redirect_cycle_cases r w :
  redirect_cycle r w = w \/
  Redirect.session (redirect_cycle r w) = empty_session \/
  Redirect.session (redirect_cycle r w) <> Redirect.session w.
Proof.
  unfold redirect_cycle.
  destruct (fetchActive r) as [e|[d|]]; [by right; left| |by right; left].
  destruct (negb (active d)); [by right; left|].
  destruct (negb (truthy (formUrl d))); [by right; left|].
  destruct (redirect_showActive_cases (default EmptyString (formUrl d)) (or_unknown (itemId d)) w);
    [by left|by right; right].
Qed.

(** Until the iframe loads or the session changes, the grace timer stays as
    it was armed. *)
Lemma grace_persists w ev w' g t :
  Redirect_Inv w -> Redirect.step ev w = Some w' ->
  timers (Redirect.host w) !! g = Some t -> kind_of (tm_callback t) = Grace ->
  ev <> FrameLoads -> ev <> TimerFires g ->
  Redirect.session w' = Redirect.session w ->
  timers (Redirect.host w') !! g = Some t.
Proof.
  intros HI Hstep Hid Hk Hnl Hnf Hsess.
  destruct (redirect_grace_slot w g t HI Hid Hk) as (u & since & Hg & Hu & Hs & Ht).
  assert (Redirect.session w <> empty_session) as Hne.
  { unfold Redirect.session. rewrite Hu. done. }
  unfold Redirect.step in Hstep. destruct (location_href _); [done|].
  destruct ev as [dt|id|r| |vis].
  - case_bool_decide; [|done]. by injection Hstep as <-.
  - destruct (fire id _) as [[cb h']|] eqn:Hf; [|done]. injection Hstep as <-.
    apply fire_Some in Hf as (t' & Hid' & Hdue & -> & ->).
    assert (id <> g) as Hne' by congruence.
    destruct (tm_callback t') eqn:Hcb; cbn [Redirect.run_callback] in *.
    + exfalso. apply Hne. by rewrite <- Hsess.
    + exfalso. apply Hne'.
      assert (kind_of (tm_callback t') = Grace) as Hk' by (by rewrite Hcb).
      apply (proj2 (rd_grace _ HI) _ _ Hid') in Hk'. congruence.
    + destruct (tm_every t'); cbn.
      * by rewrite lookup_insert_ne.
      * by rewrite lookup_delete_ne.
  - destruct (inflight _); [done|]. injection Hstep as <-.
    rewrite redirect_pollLoop_eq in *. cbn [snd] in *.
    destruct (redirect_cycle_cases r (Redirect.on_host (set_inflight n) w)) as [->|[He|Hd]].
    + done.
    + exfalso. apply Hne. by rewrite <- Hsess.
    + exfalso. by apply Hd.
  - done.
  - by injection Hstep as <-.
Qed.

(** ** Pausing and resuming the poll timer *)

Lemma fire_oneshot id h t :
  timers h !! id = Some t -> tm_every t = None -> tm_due t <= now h ->
  fire id h = Some (tm_callback t, set_timers (delete id (timers h)) h).
Proof. intros Hid He Hdue. unfold fire. by rewrite Hid, bool_decide_eq_true_2, He. Qed.

Lemma live_inactivity_not_idle v w id t :
  Inv v w -> live (kiosk v) w Inactivity id t -> display (kiosk v) w <> Idle.
Proof.
  intros HI [Hid Hk] Hd. eapply keyed_none; [|exact Hid|exact Hk].
  by apply (idle_no_inactivity v w).
Qed.

Lemma pause_tbl slot tm n :
  keyed_tbl Poll slot tm n ->
  let tm' := match slot with Some p => delete p tm | None => tm end in
  (forall id t, tm' !! id = Some t -> kind_of (tm_callback t) <> Poll) /\
  (forall id t, kind_of (tm_callback t) <> Poll -> tm' !! id = Some t <-> tm !! id = Some t).
Proof.
  intros [Hb Hp]. destruct slot as [p|]; cbn.
  - split.
    + intros id t [Hne Hid]%lookup_delete_Some Hk. apply (Hp _ _ Hid) in Hk. congruence.
    + intros id t Hk. rewrite lookup_delete_Some. split; [by intros [_ ?]|].
      intros Hid. split; [|done]. intros <-. apply Hk. by apply (Hp _ _ Hid).
  - split; [|done]. intros id t Hid Hk. by apply (Hp _ _ Hid) in Hk.
Qed.

Lemma stopPolling_effect v (w : world (kiosk v)) :
  pauses_when_hidden v = true -> Inv v w ->
  exists w',
    step_of (kiosk v) (VisibilityChanges true) w = Some w' /\
    (forall id t, ~ live (kiosk v) w' Poll id t) /\
    (forall id t, live (kiosk v) w' Inactivity id t <-> live (kiosk v) w Inactivity id t) /\
    display (kiosk v) w' = display (kiosk v) w /\
    session_of (kiosk v) w' = session_of (kiosk v) w /\
    surface (host_of (kiosk v) w') = surface (host_of (kiosk v) w) /\
    inflight (host_of (kiosk v) w') = inflight (host_of (kiosk v) w).
Proof.
  intros Hv HI.
  assert (exists w' slot,
            step_of (kiosk v) (VisibilityChanges true) w = Some w' /\
            keyed Poll slot (host_of (kiosk v) w) /\
            timers (host_of (kiosk v) w')
              = match slot with
                | Some p => delete p (timers (host_of (kiosk v) w))
                | None => timers (host_of (kiosk v) w)
                end /\
            display (kiosk v) w' = display (kiosk v) w /\
            session_of (kiosk v) w' = session_of (kiosk v) w /\
            surface (host_of (kiosk v) w') = surface (host_of (kiosk v) w) /\
            inflight (host_of (kiosk v) w') = inflight (host_of (kiosk v) w))
    as (w' & slot & Hstep & Hp & Htm & Hrest).
  { destruct v; try done; cbn [kiosk step_of Inv host_of] in *.
    - exists (Adaptive.stopPolling w), (Adaptive.pollTimer (Adaptive.state w)).
      split; [done|]. split; [apply (ad_poll _ HI)|]. by open_ad w.
    - exists (FastMode.stopPolling w), (FastMode.pollTimer (FastMode.state w)).
      split; [done|]. split; [apply (fm_poll _ HI)|]. by open_fm w. }
  exists w'. split; [done|].
  destruct (pause_tbl _ _ _ Hp) as [Hno Hother]. rewrite <- Htm in Hno, Hother.
  split; [|split; [|done]].
  - intros id t [Hid Hk]. by apply (Hno _ _ Hid).
  - intros id t. unfold live. split; intros [Hid Hk]; (split; [|done]).
    + apply Hother; [by rewrite Hk|done].
    + apply Hother; [by rewrite Hk|done].
Qed.

Lemma cadence_of_display v (w : world (kiosk v)) (act : bool) :
  hid_idle (hidden (host_of (kiosk v) w)) = act ->
  (if decide (display (kiosk v) w = Idle)
   then idlePollIntervalMs (kiosk v) else activePollIntervalMs (kiosk v))
  = if act then activePollIntervalMs (kiosk v) else idlePollIntervalMs (kiosk v).
Proof.
  intros <-. unfold display. destruct (decide _) as [Hd|Hd].
  - apply displayState_Idle in Hd. by rewrite Hd.
  - destruct (hid_idle _) eqn:E; [done|]. exfalso. by apply Hd, displayState_Idle.
Qed.

Lemma resume_tbl slot tm n t :
  fresh_tbl tm n -> keyed_tbl Poll slot tm n -> kind_of (tm_callback t) = Poll ->
  let tm' := <[n := t]> (match slot with Some p => delete p tm | None => tm end) in
  tm' !! n = Some t /\
  (forall id t', tm' !! id = Some t' -> kind_of (tm_callback t') = Poll -> id = n) /\
  (forall id t', kind_of (tm_callback t') <> Poll -> tm' !! id = Some t' <-> tm !! id = Some t').
Proof.
  intros Hf Hp Hk tm'. destruct (pause_tbl _ _ _ Hp) as [Hno Hother].
  split; [apply lookup_insert_eq|]. split.
  - intros id t' Hid Hk'. destruct (decide (id = n)) as [->|Hne]; [done|].
    unfold tm' in Hid. rewrite lookup_insert_ne in Hid by done. by apply Hno in Hid.
  - intros id t' Hk'. unfold tm'. destruct (decide (id = n)) as [->|Hne].
    + rewrite lookup_insert_eq. split.
      * intros [= <-]. by rewrite Hk in Hk'.
      * intros Hid. apply Hf in Hid. lia.
    + rewrite lookup_insert_ne by done. by apply Hother.
Qed.

Lemma startPolling_effect v (w : world (kiosk v)) :
  pauses_when_hidden v = true -> Inv v w ->
  exists w' p,
    step_of (kiosk v) (VisibilityChanges false) w = Some w' /\
    live (kiosk v) w' Poll p
      (mkTimer cb_poll
         (now (host_of (kiosk v) w')
          + (if decide (display (kiosk v) w = Idle)
             then idlePollIntervalMs (kiosk v) else activePollIntervalMs (kiosk v)))
         (Some (if decide (display (kiosk v) w = Idle)
                then idlePollIntervalMs (kiosk v) else activePollIntervalMs (kiosk v)))) /\
    (forall id t, live (kiosk v) w' Poll id t -> id = p) /\
    (forall id t, live (kiosk v) w' Inactivity id t <-> live (kiosk v) w Inactivity id t) /\
    display (kiosk v) w' = display (kiosk v) w /\
    session_of (kiosk v) w' = session_of (kiosk v) w /\
    surface (host_of (kiosk v) w') = surface (host_of (kiosk v) w) /\
    inflight (host_of (kiosk v) w') = inflight (host_of (kiosk v) w).
Proof.
  intros Hv HI.
  assert (exists w' slot c,
            step_of (kiosk v) (VisibilityChanges false) w = Some w' /\
            keyed Poll slot (host_of (kiosk v) w) /\
            c = (if decide (display (kiosk v) w = Idle)
                 then idlePollIntervalMs (kiosk v) else activePollIntervalMs (kiosk v)) /\
            timers (host_of (kiosk v) w')
              = <[next_handle (host_of (kiosk v) w) :=
                    mkTimer cb_poll (now (host_of (kiosk v) w') + c) (Some c)]>
                  (match slot with
                   | Some p => delete p (timers (host_of (kiosk v) w))
                   | None => timers (host_of (kiosk v) w)
                   end) /\
            display (kiosk v) w' = display (kiosk v) w /\
            session_of (kiosk v) w' = session_of (kiosk v) w /\
            surface (host_of (kiosk v) w') = surface (host_of (kiosk v) w) /\
            inflight (host_of (kiosk v) w') = inflight (host_of (kiosk v) w))
    as (w' & slot & c & Hstep & Hp & Hc & Htm & Hrest).
  { destruct v; try done.
    - exists (Adaptive.on_visibilitychange false w), (Adaptive.pollTimer (Adaptive.state w)).
      eexists. split; [done|]. split; [apply (ad_poll _ HI)|]. split; [reflexivity|].
      rewrite (cadence_of_display adaptive w _ (ad_view _ HI)).
      cbn [kiosk host_of Inv] in *. by open_ad w.
    - exists (FastMode.on_visibilitychange false w), (FastMode.pollTimer (FastMode.state w)).
      eexists. split; [done|]. split; [apply (fm_poll _ HI)|]. split; [reflexivity|].
      rewrite (cadence_of_display fast_mode w _ (fm_view _ HI)).
      cbn [kiosk host_of Inv] in *. by open_fm w. }
  rewrite <- Hc. exists w', (next_handle (host_of (kiosk v) w)). split; [done|].
  destruct (resume_tbl slot _ _ (mkTimer cb_poll (now (host_of (kiosk v) w') + c) (Some c))
              (Inv_fresh v w HI) Hp eq_refl) as (Hnew & Huniq & Hother).
  rewrite <- Htm in Hnew, Huniq, Hother.
  split; [by split|]. split; [|split; [|done]].
  - intros id t [Hid Hk]. by eapply Huniq.
  - intros id t. unfold live. split; intros [Hid Hk]; (split; [|done]).
    + apply Hother; [by rewrite Hk|done].
    + apply Hother; [by rewrite Hk|done].
Qed.

Lemma timeout_restarts_polling v (w : world (kiosk v)) id t :
  pauses_when_hidden v = true -> Inv v w ->
  live (kiosk v) w Inactivity id t -> tm_due t <= now (host_of (kiosk v) w) ->
  exists w',
    step_of (kiosk v) (TimerFires id) w = Some w' /\
    live (kiosk v) w' Poll (next_handle (host_of (kiosk v) w))
      (mkTimer cb_poll (now (host_of (kiosk v) w') + idlePollIntervalMs (kiosk v))
         (Some (idlePollIntervalMs (kiosk v)))).
Proof.
  intros Hv HI Hl Hdue. pose proof Hl as [Hid Hk].
  assert (tm_every t = None) as He.
  { eapply timed_kind; [apply (Inv_timed v w HI)|exact Hid|]. by rewrite Hk. }
  pose proof (kind_Inactivity _ Hk) as Hcb.
  pose proof (fire_oneshot _ _ _ Hid He Hdue) as Hfire. rewrite Hcb in Hfire.
  assert (hid_idle (hidden (host_of (kiosk v) w)) = true) as Hact.
  { destruct (hid_idle _) eqn:E; [done|]. exfalso.
    apply (live_inactivity_not_idle v w id t HI Hl). by apply displayState_Idle. }
  clear Hl Hid Hk He Hcb Hdue.
  destruct v; try done; cbn [kiosk step_of host_of Inv idlePollIntervalMs] in *.
  - unfold Adaptive.step. rewrite Hfire. eexists. split; [reflexivity|].
    cbn [Adaptive.run_callback]. rewrite (ad_view _ HI) in Hact. clear Hfire HI.
    unfold live. cbn [kiosk host_of].
    open_ad w; try discriminate Hact; red_host; by rewrite lookup_insert_eq.
  - unfold FastMode.step. rewrite Hfire. eexists. split; [reflexivity|].
    cbn [FastMode.run_callback]. rewrite (fm_view _ HI) in Hact. clear Hfire HI.
    unfold live. cbn [kiosk host_of].
    open_fm w; try discriminate Hact; red_host; by rewrite lookup_insert_eq.
Qed.

(** ** Where the tab can be sent *)

Lemma iframe_only_step_location ev w w' :
  IframeOnly.step ev w = Some w' ->
  location_href (IframeOnly.host w') = location_href (IframeOnly.host w).
Proof.
  unfold IframeOnly.step. destruct ev as [dt|id|r| |vis].
  - case_bool_decide; [|done]. intros [= <-]. by open_io w.
  - destruct (fire id _) as [[cb h']|] eqn:Hfire; [|done]. intros [= <-].
    rewrite <- (fire_location _ _ _ _ Hfire).
    destruct cb; cbn [IframeOnly.run_callback].
    + by rewrite iframe_only_showIdle_location.
    + done.
    + by destruct h'.
  - destruct (inflight _) eqn:E; [done|]. intros [= <-].
    transitivity (location_href (IframeOnly.host (IframeOnly.on_host (set_inflight n) w)));
      [exact (cycle_location iframe_only r _)|by open_io w].
  - destruct (onload _) as [[k]|]; intros [= <-]; [|done]. by open_io w.
  - by intros [= <-].
Qed.

Lemma adaptive_step_location ev w w' :
  Adaptive.step ev w = Some w' ->
  location_href (Adaptive.host w') = location_href (Adaptive.host w).
Proof.
  unfold Adaptive.step. destruct ev as [dt|id|r| |vis].
  - case_bool_decide; [|done]. intros [= <-]. by open_ad w.
  - destruct (fire id _) as [[cb h']|] eqn:Hfire; [|done]. intros [= <-].
    rewrite <- (fire_location _ _ _ _ Hfire).
    destruct cb; cbn [Adaptive.run_callback].
    + by rewrite adaptive_showIdle_location.
    + done.
    + by destruct h'.
  - destruct (inflight _) eqn:E; [done|]. intros [= <-].
    transitivity (location_href (Adaptive.host (Adaptive.on_host (set_inflight n) w)));
      [exact (cycle_location adaptive r _)|by open_ad w].
  - destruct (onload _) as [[k]|]; intros [= <-]; [|done]. by open_ad w.
  - intros [= <-]. destruct vis; by open_ad w.
Qed.

Lemma fast_mode_step_location ev w w' :
  FastMode.step ev w = Some w' ->
  location_href (FastMode.host w') = location_href (FastMode.host w).
Proof.
  unfold FastMode.step. destruct ev as [dt|id|r| |vis].
  - case_bool_decide; [|done]. intros [= <-]. by open_fm w.
  - destruct (fire id _) as [[cb h']|] eqn:Hfire; [|done]. intros [= <-].
    rewrite <- (fire_location _ _ _ _ Hfire).
    destruct cb; cbn [FastMode.run_callback].
    + by rewrite fast_mode_showIdle_location.
    + done.
    + by destruct h'.
  - destruct (inflight _) eqn:E; [done|]. intros [= <-].
    transitivity (location_href (FastMode.host (FastMode.on_host (set_inflight n) w)));
      [exact (cycle_location fast_mode r _)|by open_fm w].
  - destruct (onload _) as [[k]|]; intros [= <-]; [|done]. by open_fm w.
  - intros [= <-]. destruct vis; by open_fm w.
Qed.

(** In the first version only the grace callback assigns
    [window.location.href]. *)
Lemma redirect_step_location ev w w' :
  Redirect.step ev w = Some w' ->
  location_href (Redirect.host w') = None \/
  exists g u h',
    ev = TimerFires g /\ fire g (Redirect.host w) = Some (cb_grace u, h') /\
    w' = Redirect.switchToRedirect u (Redirect.mkWorld (Redirect.state w) h').
Proof.
  unfold Redirect.step. destruct (location_href (Redirect.host w)) eqn:Hloc; [done|].
  destruct ev as [dt|id|r| |vis].
  - case_bool_decide; [|done]. intros [= <-]. left. rewrite <- Hloc. by open_rd w.
  - destruct (fire id _) as [[cb h']|] eqn:Hfire; [|done]. intros [= <-].
    pose proof (fire_location _ _ _ _ Hfire) as Hl. rewrite Hloc in Hl.
    destruct cb as [|u|]; cbn [Redirect.run_callback].
    + left. by rewrite redirect_showIdle_location.
    + unfold Redirect.grace_callback. cbn [Redirect.state].
      destruct (Redirect.redirecting (Redirect.state w)); cbn [negb].
      * by left.
      * right. by exists id, u, h'.
    + left. rewrite <- Hl. by destruct h'.
  - destruct (inflight _) eqn:E; [done|]. intros [= <-]. left.
    rewrite <- Hloc.
    transitivity (location_href (Redirect.host (Redirect.on_host (set_inflight n) w)));
      [exact (cycle_location redirect r _)|by open_rd w].
  - destruct (onload _) as [[k]|]; intros [= <-]; left; [|done].
    rewrite <- Hloc. by open_rd w.
  - intros [= <-]. by left.
Qed.

Lemma never_navigates v w :
  v <> redirect -> reachable (kiosk v) w -> location_href (host_of (kiosk v) w) = None.
Proof.
  intros Hv.
  apply (run_invariant (kiosk v) (fun w => location_href (host_of (kiosk v) w) = None)).
  - intros p. destruct v; [done|..]; by destruct p as [[[|] ? ? ? ? ?] ? ? ? ? ?].
  - intros ev w0 w1 H0 Hstep. rewrite <- H0.
    destruct v; [done|..]; cbn [kiosk step_of host_of] in *.
    + by eapply iframe_only_step_location.
    + by eapply adaptive_step_location.
    + by eapply fast_mode_step_location.
Qed.



(** ** The iframe's load event and the grace timer *)

(** [els.frame.onload] is assigned with every session and never removed. *)
Lemma redirect_onload_set w :
  reachable (kiosk redirect) w ->
  Redirect.lastFormUrl (Redirect.state w) <> None -> is_Some (onload (Redirect.host w)).
Proof.
  revert w.
  apply (run_invariant (kiosk redirect)
           (fun w => Redirect.lastFormUrl (Redirect.state w) <> None ->
                     is_Some (onload (Redirect.host w)))).
  - intros p. by destruct p as [[[|] ? ? ? ? ?] ? ? ? ? ?].
  - intros ev w0 w1 H0. cbn [kiosk step_of]. unfold Redirect.step.
    destruct (location_href (Redirect.host w0)); [done|].
    destruct ev as [dt|id|r| |vis].
    + case_bool_decide; [|done]. intros [= <-]. revert H0. by open_rd w0.
    + destruct (fire id _) as [[cb h']|] eqn:Hfire; [|done]. intros [= <-].
      rewrite (fire_only_timers _ _ _ _ Hfire). revert H0. generalize (timers h').
      intros tm'. destruct cb as [|u|]; cbn [Redirect.run_callback].
      * by open_rd w0.
      * unfold Redirect.grace_callback. cbn [Redirect.state Redirect.redirecting].
        destruct (Redirect.redirecting _); cbn [negb]; by open_rd w0.
      * by open_rd w0.
    + destruct (inflight _) eqn:E; [done|]. intros [= <-].
      rewrite redirect_pollLoop_eq. cbn [snd]. unfold redirect_cycle.
      destruct (fetchActive r) as [e|[d|]]; [by open_rd w0| |by open_rd w0].
      destruct (negb (active d)); [by open_rd w0|].
      destruct (negb (truthy (formUrl d))); [by open_rd w0|].
      unfold Redirect.showActive. cbv zeta.
      destruct (strict_eq _ _ && strict_eq _ _); [revert H0; by open_rd w0|].
      by open_rd w0.
    + destruct (onload _) as [[k]|] eqn:Ho; intros [= <-]; [|by rewrite Ho].
      intros _. by open_rd w0.
    + by intros [= <-].
Qed.

Lemma frame_load_disarms w g t :
  reachable (kiosk redirect) w ->
  timers (Redirect.host w) !! g = Some t -> kind_of (tm_callback t) = Grace ->
  location_href (Redirect.host w) = None ->
  exists w',
    Redirect.step FrameLoads w = Some w' /\
    Redirect.iframeLoadTimer (Redirect.state w') = None /\
    timers (Redirect.host w') = delete g (timers (Redirect.host w)) /\
    (forall id t', timers (Redirect.host w') !! id = Some t' ->
                   kind_of (tm_callback t') <> Grace) /\
    displayState (Redirect.host w') = ActiveLoaded /\
    Redirect.session w' = Redirect.session w /\
    location_href (Redirect.host w') = None.
Proof.
  intros Hw Hid Hk Hloc. pose proof (reachable_Inv redirect w Hw) as HI. cbn [Inv] in HI.
  destruct (redirect_grace_slot w g t HI Hid Hk) as (u & since & Hg & Hu & Hs & ->).
  destruct (redirect_onload_set w Hw) as [[k] Ho]; [by rewrite Hu|].
  pose proof (redirect_live_grace_active w g _ HI Hid Hk) as Hact.
  unfold Redirect.step. rewrite Hloc, Ho. eexists. split; [reflexivity|].
  destruct HI as [_ _ [_ Hgr] _ _ _ _ _ _ _ _].
  revert Hg Hact Hloc Hgr. clear. intros Hg Hact Hloc Hgr.
  destruct w as [[li lu sn a gr rd] h]; cbn in Hg; subst gr.
  open_host h. cbn in *. subst.
  split; [done|]. split; [done|]. split; [|done].
  intros id t' [Hne Hid]%lookup_delete_Some Hk. apply (Hgr _ _ Hid) in Hk. congruence.
Qed.

(** ** Polls that leave the screen alone *)

Lemma badge_observable v b t (w : world (kiosk v)) :
  match v return world (kiosk v) -> Prop with
  | redirect => fun w =>
      observable (kiosk redirect) (Redirect.on_host (setBadge b t) w)
      = observable (kiosk redirect) w
  | iframe_only => fun w =>
      observable (kiosk iframe_only) (IframeOnly.on_host (setBadge b t) w)
      = observable (kiosk iframe_only) w
  | adaptive => fun w =>
      observable (kiosk adaptive) (Adaptive.on_host (setBadge b t) w)
      = observable (kiosk adaptive) w
  | fast_mode => fun w =>
      observable (kiosk fast_mode) (FastMode.on_host (setBadge b t) w)
      = observable (kiosk fast_mode) w
  end w.
Proof. destruct v, b; destruct w as [s h]; by open_host h. Qed.

(** What a cycle without an active record with URL comes down to. *)
Lemma quiet_cycle v (w : world (kiosk v)) r :
  reports_inactive r \/ fetch_fails r \/ (reports_active_without_url r /\ v <> fast_mode) ->
  observable (kiosk v) (after_poll (kiosk v) r w) = observable (kiosk v) (on_timeout (kiosk v) w)
  \/ (v = fast_mode /\ observable (kiosk v) (after_poll (kiosk v) r w) = observable (kiosk v) w).
Proof.
  intros Hr. rewrite after_poll_eq.
  destruct Hr as [[Hr|(d & Hr & Ha)]|[[e Hr]|[(d & Hr & Ha & Hu) Hv]]];
    destruct v; try done;
    unfold redirect_cycle, iframe_only_cycle, adaptive_cycle, fast_mode_cycle;
    rewrite Hr, ?Ha, ?Hu; cbn [negb kiosk on_timeout];
    first [ by left
          | left; apply (badge_observable redirect)
          | left; apply (badge_observable iframe_only)
          | left; apply (badge_observable adaptive)
          | right; split; [done|]; apply (badge_observable fast_mode) ].
Qed.

Lemma idle_poll_noop v (w : world (kiosk v)) r :
  Inv v w -> display (kiosk v) w = Idle ->
  reports_inactive r \/ fetch_fails r \/ (reports_active_without_url r /\ v <> fast_mode) ->
  observable (kiosk v) (after_poll (kiosk v) r w) = observable (kiosk v) w.
Proof.
  intros HI Hd Hr. destruct (quiet_cycle v w r Hr) as [->|[_ ->]]; [|done].
  by apply idle_timeout_noop.
Qed.

(** ** A record for another item *)

Lemma item_change v (w : world (kiosk v)) r d u :
  v <> fast_mode -> Inv v w -> reports_active r d -> formUrl d = Some u ->
  session_of_record (kiosk v) d <> session_of (kiosk v) w ->
  session_of (kiosk v) (after_poll (kiosk v) r w) = session_of_record (kiosk v) d /\
  display (kiosk v) (after_poll (kiosk v) r w) = ActiveLoading /\
  onload (host_of (kiosk v) (after_poll (kiosk v) r w))
    = Some (onload_for (accepted_id (kiosk v) (itemId d))) /\
  frame_attr (host_of (kiosk v) (after_poll (kiosk v) r w)) =
    (if keeps_frame_warm v && bool_decide (get_src (host_of (kiosk v) w) = u)
     then frame_attr (host_of (kiosk v) w)
     else Some u) /\
  writes (host_of (kiosk v) (after_poll (kiosk v) r w)) =
    (if keeps_frame_warm v && bool_decide (get_src (host_of (kiosk v) w) = u)
     then writes (host_of (kiosk v) w)
     else u :: writes (host_of (kiosk v) w)).
Proof.
  intros Hv HI (Hr & Hact & (u' & Hu' & Hne)%truthy_Some) Hu Hc. rewrite after_poll_eq.
  destruct d as [act it fu]. simpl in Hact, Hu, Hu'. subst act fu. simplify_eq.
  unfold session_of_record in *.
  destruct v; [| | |done];
    cbn [kiosk accepted_id formUrl itemId session_of host_of display keeps_frame_warm] in *;
    unfold redirect_cycle, iframe_only_cycle, adaptive_cycle;
    rewrite Hr; cbn [active formUrl itemId negb truthy default from_option];
    rewrite ?bool_decide_eq_false_2 by done; cbn [negb].
  - unfold Redirect.showActive, strict_eq, Redirect.session in *.
    open_rd w; cbn_host; cbn in Hc; repeat (case_bool_decide; cbn_host);
      try (exfalso; apply Hc; subst; reflexivity); done.
  - unfold IframeOnly.showActive, strict_eq, IframeOnly.session in *.
    open_io w; cbn_host; cbn in Hc; repeat (case_bool_decide; cbn_host);
      try (exfalso; apply Hc; subst; reflexivity); done.
  - destruct HI as [Hf Ha Hp Ht Hv' Hi Hs].
    unfold Adaptive.showActive, strict_eq, Adaptive.session in *.
    open_ad w; cbn_host; unfold get_src; cbn_host; cbn in Hc;
      repeat (case_bool_decide; cbn_host);
      try (exfalso; apply Hc; subst; reflexivity); try done.
    all: subst; repeat split; try done.
Qed.

(** ** An active record without URL *)

Lemma no_url_goes_idle v (w : world (kiosk v)) r :
  v <> fast_mode -> Inv v w -> reports_active_without_url r ->
  idle_and_empty v (after_poll (kiosk v) r w).
Proof.
  intros Hv HI (d & Hr & Ha & Hu). rewrite after_poll_eq.
  destruct v; [| | |done];
    unfold redirect_cycle, iframe_only_cycle, adaptive_cycle;
    rewrite Hr, Ha, Hu; cbn [negb].
  - apply (badge_idle_and_empty redirect), redirect_showIdle_idle.
  - apply (badge_idle_and_empty iframe_only), iframe_only_showIdle_idle.
  - apply (badge_idle_and_empty adaptive), adaptive_showIdle_idle, HI.
Qed.

Lemma fast_mode_no_url w r :
  FastMode_Inv w -> reports_active_without_url r ->
  displayState (FastMode.host (fast_mode_cycle r w)) = ActiveLoading /\
  FastMode.session (fast_mode_cycle r w) = FastMode.session w /\
  surface (FastMode.host (fast_mode_cycle r w)) = surface (FastMode.host w) /\
  exists id,
    FastMode.activeTimer (FastMode.state (fast_mode_cycle r w)) = Some id /\
    timers (FastMode.host (fast_mode_cycle r w)) !! id
      = Some (mkTimer cb_showIdle
                (now (FastMode.host (fast_mode_cycle r w)) + FastMode.ACTIVE_TIMEOUT_MS) None).
Proof.
  intros HI (d & Hr & Ha & Hu). unfold fast_mode_cycle. rewrite Hr, Ha.
  destruct HI as [Hf Hal Hp Ht Hc Hv Hact Hi Hw].
  unfold FastMode.showActive. rewrite Hu.
  open_fm w; cbn_host; repeat (case_bool_decide; cbn_host); red_host;
    (split; [done|]); (split; [done|]); (split; [done|]);
    eexists; (split; [reflexivity|]); slot_facts; lookup_norm; done.
Qed.

(** ** The debug badge *)

Lemma fire_classes id h cb h' : fire id h = Some (cb, h') -> hidden h' = hidden h.
Proof. intros H. rewrite (fire_only_timers _ _ _ _ H). by open_host h. Qed.

Lemma cycle_badge v (w : world (kiosk v)) r :
  hid_badge (hidden (host_of (kiosk v) w)) = false ->
  hid_badge (hidden (host_of (kiosk v) (after_poll (kiosk v) r w))) = false.
Proof.
  intros Hb. rewrite after_poll_eq. revert Hb.
  destruct v; cbn [host_of kiosk] in *;
    unfold redirect_cycle, iframe_only_cycle, adaptive_cycle, fast_mode_cycle;
    repeat case_match.
  all: try by open_rd w.
  all: try by open_io w.
  all: try by open_fm w.
  all: try by (unfold FastMode.showActive, truthy; repeat case_match;
               open_fm w; cbn_host; repeat (case_bool_decide; cbn_host); red_host).
  all: try by (unfold Redirect.showActive; case_match; open_rd w).
  all: try by (unfold IframeOnly.showActive; case_match; open_io w).
  all: try by (unfold Adaptive.showIdle; case_match; open_ad w).
  all: unfold Adaptive.showActive; case_match; [by open_ad w|].
  all: open_ad w; cbn_host; repeat (case_bool_decide; cbn_host); by red_host.
Qed.

Lemma step_badge v (w w' : world (kiosk v)) ev :
  step_of (kiosk v) ev w = Some w' ->
  hid_badge (hidden (host_of (kiosk v) w)) = false ->
  hid_badge (hidden (host_of (kiosk v) w')) = false.
Proof.
  intros Hstep Hb.
  destruct ev as [dt|id|r| |vis].
  - destruct v; cbn [kiosk step_of host_of] in *;
      unfold Redirect.step, IframeOnly.step, Adaptive.step, FastMode.step in Hstep;
      repeat case_match; simplify_eq; revert Hb.
    + by open_rd w.
    + by open_io w.
    + by open_ad w.
    + by open_fm w.
  - assert (exists cb h', fire id (host_of (kiosk v) w) = Some (cb, h') /\
              w' = match v return world (kiosk v) -> Host -> world (kiosk v) with
                   | redirect => fun w h' =>
                       Redirect.run_callback cb (Redirect.mkWorld (Redirect.state w) h')
                   | iframe_only => fun w h' =>
                       IframeOnly.run_callback cb (IframeOnly.mkWorld (IframeOnly.state w) h')
                   | adaptive => fun w h' =>
                       Adaptive.run_callback cb (Adaptive.mkWorld (Adaptive.state w) h')
                   | fast_mode => fun w h' =>
                       FastMode.run_callback cb (FastMode.mkWorld (FastMode.state w) h')
                   end w h') as (cb & h' & Hfire & ->).
    { destruct v; cbn [kiosk step_of host_of] in *;
        unfold Redirect.step, IframeOnly.step, Adaptive.step, FastMode.step in Hstep;
        repeat case_match; simplify_eq; eauto. }
    rewrite <- (fire_classes _ _ _ _ Hfire) in Hb. clear Hfire. revert Hb.
    destruct v, cb as [|u|]; cbn [kiosk host_of Redirect.run_callback IframeOnly.run_callback
                                  Adaptive.run_callback FastMode.run_callback].
    all: try by open_host h'.
    all: try by (destruct w as [[] ?]; open_host h').
    + unfold Redirect.grace_callback. cbn [Redirect.state Redirect.redirecting].
      destruct (Redirect.redirecting _); cbn [negb]; [done|].
      destruct w as [[] ?]; by open_host h'.
    + unfold Adaptive.showIdle. case_match; [done|].
      destruct w as [[? ? [?|] [?|] ? ?] ?]; by open_host h'.
  - assert (exists w1, hid_badge (hidden (host_of (kiosk v) w1)) = false /\
                       w' = after_poll (kiosk v) r w1) as (w1 & Hb1 & ->).
    { destruct v; cbn [kiosk step_of host_of] in *;
        unfold Redirect.step, IframeOnly.step, Adaptive.step, FastMode.step in Hstep;
        repeat case_match; simplify_eq; (eexists; split; [|reflexivity]); revert Hb.
      - by open_rd w.
      - by open_io w.
      - by open_ad w.
      - by open_fm w. }
    by apply cycle_badge.
  - destruct v; cbn [kiosk step_of host_of] in *;
      unfold Redirect.step, IframeOnly.step, Adaptive.step, FastMode.step in Hstep;
      repeat case_match; simplify_eq; try done; revert Hb;
      repeat match goal with k : Handler |- _ => destruct k end.
    + by open_rd w.
    + by open_io w.
    + by open_ad w.
    + by open_fm w.
  - destruct v; cbn [kiosk step_of host_of] in *;
      unfold Redirect.step, IframeOnly.step, Adaptive.step, FastMode.step in Hstep;
      repeat case_match; simplify_eq; try done; revert Hb.
    + destruct vis; by open_ad w.
    + destruct vis; by open_fm w.
Qed.

Lemma boot_badge v p :
  v <> adaptive -> hid_badge (hidden (host_of (kiosk v) (boot (kiosk v) p))) = false.
Proof.
  intros Hv. destruct p as [[[|] ha hl hf hr hb] bt fa lk t0 rs]; by destruct v.
Qed.

(** ** The poll interval *)

Lemma poll_tick v (w : world (kiosk v)) id t :
  Inv v w -> live (kiosk v) w Poll id t ->
  location_href (host_of (kiosk v) w) = None ->
  tm_due t <= now (host_of (kiosk v) w) ->
  exists w' c,
    step_of (kiosk v) (TimerFires id) w = Some w' /\
    tm_every t = Some c /\
    timers (host_of (kiosk v) w')
      = <[id := mkTimer cb_poll (now (host_of (kiosk v) w) + c) (Some c)]>
          (timers (host_of (kiosk v) w)) /\
    inflight (host_of (kiosk v) w') = S (inflight (host_of (kiosk v) w)) /\
    display (kiosk v) w' = display (kiosk v) w /\
    session_of (kiosk v) w' = session_of (kiosk v) w /\
    surface (host_of (kiosk v) w') = surface (host_of (kiosk v) w).
Proof.
  intros HI [Hid Hk] Hloc Hdue.
  pose proof (timed_poll _ _ _ _ (Inv_timed v w HI) Hid Hk) as He.
  destruct (tm_callback t) eqn:Hcb; try done.
  destruct v; cbn [step_of kiosk host_of] in *;
    unfold Redirect.step, IframeOnly.step, Adaptive.step, FastMode.step, fire;
    rewrite ?Hloc, Hid, bool_decide_eq_true_2 by done; rewrite Hcb, He;
    eexists _, _; (split; [reflexivity|]); (split; [reflexivity|]);
    cbn [Redirect.run_callback IframeOnly.run_callback Adaptive.run_callback
         FastMode.run_callback]; clear.
  - destruct w as [s h]; by open_host h.
  - destruct w as [s h]; by open_host h.
  - destruct w as [s h]; by open_host h.
  - destruct w as [s h]; by open_host h.
Qed.

(** ** A failed fetch in the fourth version *)

Lemma fast_mode_failure w r :
  fetch_fails r ->
  observable (kiosk fast_mode) (fast_mode_cycle r w) = observable (kiosk fast_mode) w /\
  FastMode.state (fast_mode_cycle r w) = FastMode.state w /\
  badge_text (FastMode.host (fast_mode_cycle r w)) = "Connection Error - Retrying..."%string.
Proof.
  intros [e He]. unfold fast_mode_cycle. rewrite He.
  split; [apply (badge_observable fast_mode)|]. destruct w as [s h]. by open_host h.
Qed.

(** C1, as the code has it. A poll cycle that reports no activity (no
    record, or a record with [active = false]) leaves the display Idle and
    the session empty from every reachable state, in all four versions. A
    failed fetch (transport error, non-success status, unparsable body) does
    the same in the two versions of src/script.js and in part_000; in
    part_001 the [catch] only sets the badge, and the display state and the
    session stay what they were. *)
Theorem poll_without_activity_goes_idle v (w : world (kiosk v)) r :
  reachable (kiosk v) w ->
  (reports_inactive r \/ (fetch_fails r /\ v <> fast_mode) ->
   display (kiosk v) (after_poll (kiosk v) r w) = Idle /\
   session_of (kiosk v) (after_poll (kiosk v) r w) = empty_session) /\
  (fetch_fails r -> v = fast_mode ->
   display (kiosk v) (after_poll (kiosk v) r w) = display (kiosk v) w /\
   session_of (kiosk v) (after_poll (kiosk v) r w) = session_of (kiosk v) w).
Proof.
  intros HI%reachable_Inv. split.
  - intros [Hr|[Hr Hv]].
    + by apply inactive_poll_idles.
    + by apply failed_poll_idles.
  - intros Hr ->. destruct (failed_poll_fast_mode w r Hr) as (? & ? & _). done.
Qed.

Lemma poll_without_activity_goes_idle_witness :
  display (kiosk adaptive)
    (after_poll (kiosk adaptive) NetworkFailure
       (replay (kiosk adaptive) [FetchSettles (answer form_f)] blank_page)) = Idle /\
  session_of (kiosk adaptive)
    (after_poll (kiosk adaptive) NetworkFailure
       (replay (kiosk adaptive) [FetchSettles (answer form_f)] blank_page)) = empty_session.
Proof.
  refine (proj1 (poll_without_activity_goes_idle adaptive
                   (replay (kiosk adaptive) [FetchSettles (answer form_f)] blank_page)
                   NetworkFailure _) _).
  - exists blank_page, [FetchSettles (answer form_f)]. vm_compute. reflexivity.
  - right. split; [exists FetchRejected; reflexivity | discriminate].
Defined.

(** In part_001 a failed fetch leaves an active session on screen. *)
Lemma fast_mode_failed_poll_stays_active :
  reachable (kiosk fast_mode)
    (replay (kiosk fast_mode) [FetchSettles (answer form_f)] blank_page) /\
  fetch_fails NetworkFailure /\
  display (kiosk fast_mode)
    (after_poll (kiosk fast_mode) NetworkFailure
       (replay (kiosk fast_mode) [FetchSettles (answer form_f)] blank_page)) = ActiveLoading /\
  session_of (kiosk fast_mode)
    (after_poll (kiosk fast_mode) NetworkFailure
       (replay (kiosk fast_mode) [FetchSettles (answer form_f)] blank_page))
    = (Some "42"%string, Some "https://x/f"%string).
Proof.
  split; [|split; [|split]].
  - exists blank_page, [FetchSettles (answer form_f)]. vm_compute. reflexivity.
  - exists FetchRejected. reflexivity.
  - vm_compute. reflexivity.
  - vm_compute. reflexivity.
Qed.

(** C2. A poll cycle whose active record names the session on screen issues
    no assignment to the iframe's [src] and leaves the surface (its [src],
    its [onload], its visibility) as it was, in every version; display state
    and session stay the same, and so the same record processed once more
    again changes nothing on the surface. *)
Theorem same_session_leaves_surface v (w : world (kiosk v)) r d :
  reachable (kiosk v) w -> reports_active r d ->
  session_of_record (kiosk v) d = session_of (kiosk v) w ->
  surface (host_of (kiosk v) (after_poll (kiosk v) r w)) = surface (host_of (kiosk v) w) /\
  display (kiosk v) (after_poll (kiosk v) r w) = display (kiosk v) w /\
  session_of (kiosk v) (after_poll (kiosk v) r w) = session_of (kiosk v) w /\
  surface (host_of (kiosk v) (after_poll (kiosk v) r (after_poll (kiosk v) r w)))
    = surface (host_of (kiosk v) (after_poll (kiosk v) r w)).
Proof.
  intros HI%reachable_Inv Hr Hs.
  pose proof (after_poll_Inv v r w HI) as HI'.
  pose proof (refresh_eq v w r d HI Hr (same_session_on_screen _ _ _ Hs)) as E.
  destruct (refresh_display_session v w) as [Hd Hs'].
  assert (session_of_record (kiosk v) d = session_of (kiosk v) (after_poll (kiosk v) r w)) as Hs2
    by (by rewrite E, Hs').
  rewrite (refresh_eq v _ r d HI' Hr (same_session_on_screen _ _ _ Hs2)).
  rewrite E. rewrite !refresh_surface. done.
Qed.

Lemma same_session_leaves_surface_witness :
  surface (host_of (kiosk adaptive)
             (after_poll (kiosk adaptive) (answer form_f) (first_form_shown adaptive)))
    = surface (host_of (kiosk adaptive) (first_form_shown adaptive)) /\
  display (kiosk adaptive)
    (after_poll (kiosk adaptive) (answer form_f) (first_form_shown adaptive))
    = display (kiosk adaptive) (first_form_shown adaptive) /\
  session_of (kiosk adaptive)
    (after_poll (kiosk adaptive) (answer form_f) (first_form_shown adaptive))
    = session_of (kiosk adaptive) (first_form_shown adaptive) /\
  surface (host_of (kiosk adaptive)
             (after_poll (kiosk adaptive) (answer form_f)
                (after_poll (kiosk adaptive) (answer form_f) (first_form_shown adaptive))))
    = surface (host_of (kiosk adaptive)
                 (after_poll (kiosk adaptive) (answer form_f) (first_form_shown adaptive))).
Proof.
  refine (same_session_leaves_surface adaptive (first_form_shown adaptive)
            (answer form_f) form_f _ _ _).
  - exists blank_page, [FetchSettles (answer form_f)]. vm_compute. reflexivity.
  - vm_compute. repeat split; reflexivity.
  - vm_compute. reflexivity.
Defined.

(** C5, as the code has it. In the second script.js version, in part_000
    and in part_001 a poll cycle whose active record names the session on
    screen re-arms the inactivity timer: afterwards [state.activeTimer]
    holds the one live inactivity timer, a timeout due [ACTIVE_TIMEOUT_MS]
    after the cycle. In the first script.js version the cycle returns
    before touching anything: the world, and with it the timer and its due
    time, is unchanged. *)
Theorem refresh_rearms_inactivity_timer v (w : world (kiosk v)) r d :
  reachable (kiosk v) w -> reports_active r d ->
  session_of_record (kiosk v) d = session_of (kiosk v) w ->
  (v <> redirect ->
   exists id,
     alive_slot (kiosk v) (after_poll (kiosk v) r w) = Some id /\
     timers (host_of (kiosk v) (after_poll (kiosk v) r w)) !! id =
       Some (mkTimer cb_showIdle
               (now (host_of (kiosk v) (after_poll (kiosk v) r w)) + inactivityTimeoutMs (kiosk v))
               None) /\
     forall id' t', live (kiosk v) (after_poll (kiosk v) r w) Inactivity id' t' -> id' = id) /\
  (v = redirect -> after_poll (kiosk v) r w = w).
Proof.
  intros HI%reachable_Inv Hr Hs.
  pose proof (after_poll_Inv v r w HI) as HI'.
  pose proof (refresh_eq v w r d HI Hr (same_session_on_screen _ _ _ Hs)) as E.
  split.
  - intros Hv. destruct (refresh_rearms v w Hv) as [H1 H2]. rewrite <- E in H1, H2.
    eexists. split; [exact H1|]. split; [exact H2|].
    intros id' t' Hl. pose proof (Inv_alive_unique v _ _ _ HI' Hl) as H3. congruence.
  - intros ->. exact E.
Qed.

Lemma refresh_rearms_inactivity_timer_witness :
  exists id,
    alive_slot (kiosk iframe_only)
      (after_poll (kiosk iframe_only) (answer form_f) (first_form_shown iframe_only)) = Some id /\
    timers (host_of (kiosk iframe_only)
      (after_poll (kiosk iframe_only) (answer form_f) (first_form_shown iframe_only))) !! id =
      Some (mkTimer cb_showIdle
              (now (host_of (kiosk iframe_only)
                 (after_poll (kiosk iframe_only) (answer form_f) (first_form_shown iframe_only)))
               + inactivityTimeoutMs (kiosk iframe_only))
              None) /\
    forall id' t',
      live (kiosk iframe_only)
        (after_poll (kiosk iframe_only) (answer form_f) (first_form_shown iframe_only))
        Inactivity id' t' -> id' = id.
Proof.
  refine (proj1 (refresh_rearms_inactivity_timer iframe_only (first_form_shown iframe_only)
                   (answer form_f) form_f _ _ _) _).
  - exists blank_page, [FetchSettles (answer form_f)]. vm_compute. reflexivity.
  - vm_compute. repeat split; reflexivity.
  - vm_compute. reflexivity.
  - discriminate.
Defined.

(** In the first script.js version a refresh one second into the session
    leaves the inactivity timer due 120000 ms after the session began, not
    120000 ms after the refresh. *)
Lemma redirect_refresh_keeps_deadline :
  reachable (kiosk redirect) redirect_polling_again /\
  reports_active (answer form_f) form_f /\
  session_of_record (kiosk redirect) form_f = session_of (kiosk redirect) redirect_polling_again /\
  now (host_of (kiosk redirect)
         (after_poll (kiosk redirect) (answer form_f) redirect_polling_again)) = 1000 /\
  alive_slot (kiosk redirect)
    (after_poll (kiosk redirect) (answer form_f) redirect_polling_again) = Some 3%positive /\
  timers (host_of (kiosk redirect)
            (after_poll (kiosk redirect) (answer form_f) redirect_polling_again)) !! 3%positive
    = Some (mkTimer cb_showIdle 120000 None).
Proof.
  split; [|split; [|split; [|split; [|split]]]].
  - exists blank_page, [FetchSettles (answer form_f); Tick 1000; TimerFires 1%positive].
    vm_compute. reflexivity.
  - vm_compute. repeat split; reflexivity.
  - vm_compute. reflexivity.
  - vm_compute. reflexivity.
  - vm_compute. reflexivity.
  - vm_compute. reflexivity.
Qed.

(** C3, as the code has it. A poll cycle whose active record carries a URL
    other than the session's replaces the session by the record's and puts
    the display in ActiveLoading. The two src/script.js versions assign the
    new URL to the iframe's [src] exactly once. part_000 and part_001
    compare what [els.frame.src] reads back (the attribute resolved and
    serialised by the browser, the empty string when it is missing) with
    the new URL: they assign the URL exactly once when the two differ and
    not at all when they are equal, and then leave the attribute as it is.
    Either way the iframe is on the new URL afterwards: its attribute holds
    it or reads back as it. While the tab has not been sent elsewhere the
    iframe's load event then makes the display ActiveLoaded, and no other
    event does, except that in the first version the grace timer hides the
    overlay when it sends the tab to the form. *)
Theorem session_change v (w : world (kiosk v)) r d u :
  reachable (kiosk v) w -> reports_active r d -> formUrl d = Some u ->
  formUrl d <> snd (session_of (kiosk v) w) ->
  writes (host_of (kiosk v) (after_poll (kiosk v) r w)) =
    (if keeps_frame_warm v && bool_decide (get_src (host_of (kiosk v) w) = u)
     then writes (host_of (kiosk v) w)
     else u :: writes (host_of (kiosk v) w)) /\
  frame_attr (host_of (kiosk v) (after_poll (kiosk v) r w)) =
    (if keeps_frame_warm v && bool_decide (get_src (host_of (kiosk v) w) = u)
     then frame_attr (host_of (kiosk v) w)
     else Some u) /\
  (keeps_frame_warm v = false ->
   writes (host_of (kiosk v) (after_poll (kiosk v) r w)) = u :: writes (host_of (kiosk v) w) /\
   frame_attr (host_of (kiosk v) (after_poll (kiosk v) r w)) = Some u) /\
  frame_shows (host_of (kiosk v) (after_poll (kiosk v) r w)) u /\
  session_of (kiosk v) (after_poll (kiosk v) r w) = session_of_record (kiosk v) d /\
  display (kiosk v) (after_poll (kiosk v) r w) = ActiveLoading /\
  (location_href (host_of (kiosk v) w) = None ->
   exists w', step_of (kiosk v) FrameLoads (after_poll (kiosk v) r w) = Some w' /\
              display (kiosk v) w' = ActiveLoaded) /\
  (forall ev w',
     step_of (kiosk v) ev (after_poll (kiosk v) r w) = Some w' ->
     display (kiosk v) w' = ActiveLoaded ->
     ev = FrameLoads \/ (v = redirect /\ is_Some (location_href (host_of (kiosk v) w')))).
Proof.
  intros HI%reachable_Inv Hr Hu Hs.
  pose proof (after_poll_Inv v r w HI) as HI'.
  destruct (change_effect v w r d u HI Hr Hu Hs) as (Hw & Hf & Hs' & Hd & Ho & Hl).
  split; [done|]. split; [done|].
  assert (keeps_frame_warm v = false ->
          writes (host_of (kiosk v) (after_poll (kiosk v) r w))
            = u :: writes (host_of (kiosk v) w) /\
          frame_attr (host_of (kiosk v) (after_poll (kiosk v) r w)) = Some u) as Hcold.
  { intros Hk. rewrite Hw, Hf, Hk. done. }
  split; [done|]. split; [|split; [done|split; [done|split]]].
  - destruct (keeps_frame_warm v) eqn:Hk.
    + apply (warm_frame_is_session v _ u HI' Hk). rewrite Hs'.
      unfold session_of_record. by rewrite Hu.
    + left. by apply Hcold.
  - intros Hloc. eapply load_completes; [exact Ho| |by rewrite Hl].
    by rewrite Hd.
  - intros ev w' Hstep Hw'. eapply loaded_only_by_load; [exact HI'|exact Hstep| |exact Hw'].
    by rewrite Hd.
Qed.

Lemma session_change_witness :
  writes (host_of (kiosk adaptive)
            (after_poll (kiosk adaptive) (answer form_x_slash) adaptive_origin_shown))
  = (if keeps_frame_warm adaptive
        && bool_decide (get_src (host_of (kiosk adaptive) adaptive_origin_shown)
                        = "https://x/"%string)
     then writes (host_of (kiosk adaptive) adaptive_origin_shown)
     else "https://x/"%string :: writes (host_of (kiosk adaptive) adaptive_origin_shown)).
Proof.
  refine (proj1 (session_change adaptive adaptive_origin_shown
                   (answer form_x_slash) form_x_slash "https://x/" _ _ _ _)).
  - exists blank_page, [FetchSettles (answer form_x)]. vm_compute. reflexivity.
  - vm_compute. repeat split; reflexivity.
  - reflexivity.
  - vm_compute. discriminate.
Defined.

(** In part_000, when a session for a form ends and the same form becomes
    active again, its URL being in serialised form, the session changes but
    nothing is assigned to the iframe's [src]. *)
Lemma adaptive_same_form_again_no_assignment :
  reachable (kiosk adaptive) adaptive_back_to_idle /\
  reports_active (answer form_f) form_f /\
  formUrl form_f <> snd (session_of (kiosk adaptive) adaptive_back_to_idle) /\
  writes (host_of (kiosk adaptive)
            (after_poll (kiosk adaptive) (answer form_f) adaptive_back_to_idle))
  = writes (host_of (kiosk adaptive) adaptive_back_to_idle).
Proof.
  split; [|split; [|split]].
  - exists blank_page,
      [FetchSettles (answer form_f); Tick 500; TimerFires 3%positive;
       FetchSettles (answer inactive_record); Tick 3000; TimerFires 4%positive].
    vm_compute. reflexivity.
  - vm_compute. repeat split; reflexivity.
  - vm_compute. discriminate.
  - vm_compute. reflexivity.
Qed.

(** What the comparison with the serialised URL does in part_000. With the
    origin ["https://x"] on screen, a record for ["https://x/"] is a new
    session that assigns nothing: the attribute stays ["https://x"]. And
    when the session for ["https://x"] has ended and the same record comes
    again, the URL is assigned a second time, for the iframe reads back
    ["https://x/"]. *)
Example adaptive_serialised_url_comparison :
  writes (host_of (kiosk adaptive)
            (after_poll (kiosk adaptive) (answer form_x_slash) adaptive_origin_shown))
    = ["https://x"%string] /\
  frame_attr (host_of (kiosk adaptive)
                (after_poll (kiosk adaptive) (answer form_x_slash) adaptive_origin_shown))
    = Some "https://x"%string /\
  session_of (kiosk adaptive)
    (after_poll (kiosk adaptive) (answer form_x_slash) adaptive_origin_shown)
    = (Some "42"%string, Some "https://x/"%string) /\
  writes (host_of (kiosk adaptive)
            (after_poll (kiosk adaptive) (answer form_x)
               (after_poll (kiosk adaptive) (answer inactive_record) adaptive_origin_shown)))
    = ["https://x"%string; "https://x"%string].
Proof. repeat split; vm_compute; reflexivity. Qed.

(** C4, as the code has it. In every reachable state of every version an
    Idle display goes with an empty session; in the two script.js versions
    and in part_000 a display that is not Idle goes with a session that has
    both its item and its URL. (part_001 shows the loading view for an
    active record without URL and leaves the session as it is.) *)
Theorem display_agrees_with_session v (w : world (kiosk v)) :
  reachable (kiosk v) w ->
  (display (kiosk v) w = Idle -> session_of (kiosk v) w = empty_session) /\
  (v <> fast_mode -> display (kiosk v) w <> Idle ->
   exists i u, session_of (kiosk v) w = (Some i, Some u)).
Proof.
  intros HI%reachable_Inv. unfold display, displayState.
  destruct v; simpl in *.
  - destruct (hid_idle (hidden (Redirect.host w))) eqn:E; simpl.
    + split; [by case_match|]. intros _ _. by apply (rd_session _ HI).
    + split; [|done]. intros _. destruct (rd_idle _ HI E) as [Hs _].
      unfold Redirect.session. by rewrite Hs.
  - destruct (hid_idle (hidden (IframeOnly.host w))) eqn:E; simpl.
    + split; [by case_match|]. intros _ _. by apply (io_session _ HI).
    + split; [|done]. intros _. destruct (io_idle _ HI E) as [Hs _].
      unfold IframeOnly.session. by rewrite Hs.
  - rewrite (ad_view _ HI).
    destruct (Adaptive.isActive (Adaptive.state w)) eqn:E; simpl.
    + split; [by case_match|]. intros _ _.
      destruct (ad_session _ HI E) as (i & u & Hs & _). eauto.
    + split; [|done]. intros _. by destruct (ad_idle _ HI E).
  - rewrite (fm_view _ HI).
    destruct (FastMode.isActive (FastMode.state w)) eqn:E; simpl.
    + split; [by case_match|]. done.
    + split; [|done]. intros _. by destruct (fm_idle _ HI E).
Qed.

Lemma display_agrees_with_session_witness :
  exists i u, session_of (kiosk adaptive) (first_form_shown adaptive) = (Some i, Some u).
Proof.
  refine (proj2 (display_agrees_with_session adaptive (first_form_shown adaptive) _) _ _).
  - exists blank_page, [FetchSettles (answer form_f)]. vm_compute. reflexivity.
  - discriminate.
  - vm_compute. discriminate.
Defined.

(** In part_001 an active record without URL gives a display that is not
    Idle with an empty session. *)
Lemma fast_mode_loading_without_session :
  reachable (kiosk fast_mode) fast_mode_waiting_for_url /\
  display (kiosk fast_mode) fast_mode_waiting_for_url = ActiveLoading /\
  session_of (kiosk fast_mode) fast_mode_waiting_for_url = empty_session.
Proof.
  split; [|split].
  - exists blank_page, [FetchSettles (answer active_without_url)]. vm_compute. reflexivity.
  - vm_compute. reflexivity.
  - vm_compute. reflexivity.
Qed.

(** C6. In every reachable state of every version the live poll timer, if
    any, is an interval timer whose period is the idle cadence when the
    display is Idle and the active cadence otherwise (the two script.js
    versions have one cadence, [POLL_INTERVAL_MS], for both), and there is
    at most one live poll timer and at most one live inactivity timer: any
    two live timers of the same of these kinds are the same timer. *)
Theorem poll_cadence_and_single_timers v (w : world (kiosk v)) :
  reachable (kiosk v) w ->
  (forall id t,
     live (kiosk v) w Poll id t ->
     tm_every t = Some (if decide (display (kiosk v) w = Idle)
                        then idlePollIntervalMs (kiosk v)
                        else activePollIntervalMs (kiosk v))) /\
  (forall k i j ti tj,
     k = Poll \/ k = Inactivity ->
     live (kiosk v) w k i ti -> live (kiosk v) w k j tj -> i = j).
Proof.
  intros HI%reachable_Inv. split.
  - intros id t [Hid Hk]. by eapply timed_poll; [apply Inv_timed|..].
  - intros k i j ti tj Hk [Hi Ki] [Hj Kj]. destruct Hk as [->| ->].
    + destruct (Inv_poll v w HI) as [slot Hs]. by eapply keyed_live_unique.
    + pose proof (Inv_alive v w HI). by eapply keyed_live_unique.
Qed.

Lemma poll_cadence_and_single_timers_witness :
  tm_every (mkTimer cb_poll 500 (Some 500)) =
  Some (if decide (display (kiosk adaptive) (first_form_shown adaptive) = Idle)
        then idlePollIntervalMs (kiosk adaptive)
        else activePollIntervalMs (kiosk adaptive)).
Proof.
  refine (proj1 (poll_cadence_and_single_timers adaptive (first_form_shown adaptive) _)
            3%positive (mkTimer cb_poll 500 (Some 500)) _).
  - exists blank_page, [FetchSettles (answer form_f)]. vm_compute. reflexivity.
  - split; vm_compute; reflexivity.
Defined.

(** C7. In every reachable state of every version: (arming) a poll that
    finds an active record with a URL leaves the inactivity timer slot
    holding a one-shot [showIdle] timer due [inactivityTimeoutMs] after the
    poll (in the first version when the record is not the session on
    screen); (firing) a live inactivity timer is the one in the slot, is
    one-shot, cannot fire before it is due, and once due fires whatever the
    display state, without any poll response being consulted, leaving the
    display Idle, the session empty and no inactivity timer live, so that it
    cannot fire again; (no-op) running [showIdle] while the display is Idle
    changes neither display, session, surface nor timers. *)
Theorem inactivity_timeout v (w : world (kiosk v)) :
  reachable (kiosk v) w ->
  (forall r d,
     reports_active r d ->
     v <> redirect \/ session_of_record (kiosk v) d <> session_of (kiosk v) w ->
     exists id,
       alive_slot (kiosk v) (after_poll (kiosk v) r w) = Some id /\
       timers (host_of (kiosk v) (after_poll (kiosk v) r w)) !! id =
         Some (mkTimer cb_showIdle
                 (now (host_of (kiosk v) (after_poll (kiosk v) r w))
                  + inactivityTimeoutMs (kiosk v)) None)) /\
  (forall id t,
     live (kiosk v) w Inactivity id t ->
     location_href (host_of (kiosk v) w) = None ->
     tm_every t = None /\
     alive_slot (kiosk v) w = Some id /\
     (now (host_of (kiosk v) w) < tm_due t ->
      step_of (kiosk v) (TimerFires id) w = None) /\
     (tm_due t <= now (host_of (kiosk v) w) ->
      exists w',
        step_of (kiosk v) (TimerFires id) w = Some w' /\
        display (kiosk v) w' = Idle /\
        session_of (kiosk v) w' = empty_session /\
        (forall j tj, ~ live (kiosk v) w' Inactivity j tj))) /\
  (display (kiosk v) w = Idle ->
   observable (kiosk v) (on_timeout (kiosk v) w) = observable (kiosk v) w).
Proof.
  intros HI%reachable_Inv. split; [|split].
  - intros r d. by apply active_poll_arms.
  - intros id t Hl Hloc.
    destruct (timeout_fires v w id t HI Hl Hloc) as (He & Ha & Hearly & Hdue).
    split; [done|]. split; [done|]. split; [done|].
    intros (w' & Hstep & [Hd Hs] & Hk)%Hdue.
    exists w'. split; [done|]. split; [done|]. split; [done|].
    intros j tj [Hj Hkj]. by eapply keyed_none.
  - by apply idle_timeout_noop.
Qed.

Lemma inactivity_timeout_witness :
  exists w',
    step_of (kiosk adaptive) (TimerFires 2%positive) adaptive_form_left_alone = Some w' /\
    display (kiosk adaptive) w' = Idle /\
    session_of (kiosk adaptive) w' = empty_session /\
    (forall j tj, ~ live (kiosk adaptive) w' Inactivity j tj).
Proof.
  refine (proj2 (proj2 (proj2
            (proj1 (proj2 (inactivity_timeout adaptive adaptive_form_left_alone _))
               2%positive (mkTimer cb_showIdle 120000 None) _ _))) _).
  - exists blank_page, [FetchSettles (answer form_f); Tick 120000]. vm_compute. reflexivity.
  - split; vm_compute; reflexivity.
  - vm_compute. reflexivity.
  - vm_compute. discriminate.
Defined.

(** C8. In every version a poll cycle that meets a transport failure, a
    non-success status, an unparsable body or an active record without URL
    completes normally: [pollLoop]/[pollOnce] returns without an uncaught
    exception, the tab is not sent elsewhere, a poll timer that was live is
    still live afterwards, and when that timer is next due it fires and
    sends the next request. *)
Theorem poll_errors_are_recovered v (w : world (kiosk v)) r :
  reachable (kiosk v) w ->
  fetch_fails r \/ reports_active_without_url r ->
  fst (poll (kiosk v) r w) = inr tt /\
  location_href (host_of (kiosk v) (after_poll (kiosk v) r w))
    = location_href (host_of (kiosk v) w) /\
  (has_poll_timer (host_of (kiosk v) w) ->
   has_poll_timer (host_of (kiosk v) (after_poll (kiosk v) r w))) /\
  (forall id t,
     live (kiosk v) (after_poll (kiosk v) r w) Poll id t ->
     location_href (host_of (kiosk v) w) = None ->
     tm_due t <= now (host_of (kiosk v) (after_poll (kiosk v) r w)) ->
     exists w',
       step_of (kiosk v) (TimerFires id) (after_poll (kiosk v) r w) = Some w' /\
       inflight (host_of (kiosk v) w')
         = S (inflight (host_of (kiosk v) (after_poll (kiosk v) r w)))).
Proof.
  intros HI%reachable_Inv Hr.
  split; [apply poll_returns|]. split; [apply cycle_location|]. split.
  - by apply recovered_has_poll.
  - intros id t Hl Hloc Hdue. apply (poll_timer_fires v _ id t); [done| |done].
    by rewrite cycle_location.
Qed.

Lemma poll_errors_are_recovered_witness :
  fst (poll (kiosk fast_mode) NetworkFailure (first_form_shown fast_mode)) = inr tt /\
  location_href (host_of (kiosk fast_mode)
                   (after_poll (kiosk fast_mode) NetworkFailure (first_form_shown fast_mode)))
    = location_href (host_of (kiosk fast_mode) (first_form_shown fast_mode)) /\
  (has_poll_timer (host_of (kiosk fast_mode) (first_form_shown fast_mode)) ->
   has_poll_timer (host_of (kiosk fast_mode)
                     (after_poll (kiosk fast_mode) NetworkFailure (first_form_shown fast_mode)))) /\
  (forall id t,
     live (kiosk fast_mode)
       (after_poll (kiosk fast_mode) NetworkFailure (first_form_shown fast_mode)) Poll id t ->
     location_href (host_of (kiosk fast_mode) (first_form_shown fast_mode)) = None ->
     tm_due t <= now (host_of (kiosk fast_mode)
                        (after_poll (kiosk fast_mode) NetworkFailure (first_form_shown fast_mode))) ->
     exists w',
       step_of (kiosk fast_mode) (TimerFires id)
         (after_poll (kiosk fast_mode) NetworkFailure (first_form_shown fast_mode)) = Some w' /\
       inflight (host_of (kiosk fast_mode) w')
         = S (inflight (host_of (kiosk fast_mode)
                (after_poll (kiosk fast_mode) NetworkFailure (first_form_shown fast_mode))))).
Proof.
  refine (poll_errors_are_recovered fast_mode (first_form_shown fast_mode) NetworkFailure _ _).
  - exists blank_page, [FetchSettles (answer form_f)]. vm_compute. reflexivity.
  - left. exists FetchRejected. reflexivity.
Defined.

(** C9. In every reachable state of the first script.js version: (arming)
    a poll that finds an active record whose session differs from the one
    on screen assigns the record's URL to the iframe and leaves
    [state.iframeLoadTimer] holding a one-shot timer for the grace callback
    of that URL, due [IFRAME_LOAD_GRACE_MS] later; (firing) a live grace
    timer is the one armed for the current session's URL when the session
    began, cannot fire earlier than [IFRAME_LOAD_GRACE_MS] after that, and
    once due its callback runs [switchToRedirect], which sets
    [window.location.href] to the URL, after which no event is handled any
    more: the polling loop has ended; (persistence) any event other than the
    iframe's load event that leaves the session unchanged leaves the timer
    live. *)
Theorem grace_period_ends_in_navigation (w : world (kiosk redirect)) :
  reachable (kiosk redirect) w ->
  (forall r d u,
     reports_active r d -> formUrl d = Some u ->
     session_of_record (kiosk redirect) d <> session_of (kiosk redirect) w ->
     writes (Redirect.host (after_poll (kiosk redirect) r w)) = u :: writes (Redirect.host w) /\
     exists g,
       Redirect.iframeLoadTimer (Redirect.state (after_poll (kiosk redirect) r w)) = Some g /\
       timers (Redirect.host (after_poll (kiosk redirect) r w)) !! g =
         Some (mkTimer (cb_grace u)
                 (now (Redirect.host (after_poll (kiosk redirect) r w))
                  + Redirect.IFRAME_LOAD_GRACE_MS) None)) /\
  (forall g t,
     live (kiosk redirect) w Grace g t ->
     location_href (Redirect.host w) = None ->
     exists u since,
       Redirect.lastFormUrl (Redirect.state w) = Some u /\
       Redirect.activeSince (Redirect.state w) = Some since /\
       t = mkTimer (cb_grace u) (since + Redirect.IFRAME_LOAD_GRACE_MS) None /\
       (now (Redirect.host w) < since + Redirect.IFRAME_LOAD_GRACE_MS ->
        Redirect.step (TimerFires g) w = None) /\
       (since + Redirect.IFRAME_LOAD_GRACE_MS <= now (Redirect.host w) ->
        exists w',
          Redirect.step (TimerFires g) w = Some w' /\
          w' = Redirect.switchToRedirect u
                 (Redirect.on_host (fun h => set_timers (delete g (timers h)) h) w) /\
          location_href (Redirect.host w') = Some u /\
          terminated (kiosk redirect) w') /\
       (forall ev w',
          Redirect.step ev w = Some w' ->
          ev <> FrameLoads -> ev <> TimerFires g ->
          Redirect.session w' = Redirect.session w ->
          live (kiosk redirect) w' Grace g t)).
Proof.
  intros HI%reachable_Inv. cbn [Inv] in HI. split.
  - intros r d u Hr Hu Hc. rewrite (after_poll_eq redirect).
    by apply session_change_arms_grace with d.
  - intros g t [Hid Hk] Hloc. cbn [kiosk host_of] in Hid.
    destruct (grace_fires w g t HI Hid Hk Hloc) as (u & since & Hu & Hs & Ht & Hearly & Hdue).
    exists u, since. split; [done|]. split; [done|]. split; [done|]. split; [done|]. split.
    + intros Hd%Hdue. eexists. split; [exact Hd|]. split; [reflexivity|].
      destruct (switchToRedirect_terminal u
                  (Redirect.on_host (fun h => set_timers (delete g (timers h)) h) w))
        as (Hl & _ & Hterm).
      done.
    + intros ev w' Hstep Hnl Hnf Hsess. split; [|done]. cbn [kiosk host_of].
      by eapply grace_persists.
Qed.

Lemma grace_period_ends_in_navigation_witness :
  exists u since,
    Redirect.lastFormUrl (Redirect.state redirect_frame_stalled) = Some u /\
    Redirect.activeSince (Redirect.state redirect_frame_stalled) = Some since /\
    mkTimer (cb_grace "https://x/f") 2500 None
      = mkTimer (cb_grace u) (since + Redirect.IFRAME_LOAD_GRACE_MS) None /\
    (now (Redirect.host redirect_frame_stalled) < since + Redirect.IFRAME_LOAD_GRACE_MS ->
     Redirect.step (TimerFires 2%positive) redirect_frame_stalled = None) /\
    (since + Redirect.IFRAME_LOAD_GRACE_MS <= now (Redirect.host redirect_frame_stalled) ->
     exists w',
       Redirect.step (TimerFires 2%positive) redirect_frame_stalled = Some w' /\
       w' = Redirect.switchToRedirect u
              (Redirect.on_host (fun h => set_timers (delete 2%positive (timers h)) h)
                 redirect_frame_stalled) /\
       location_href (Redirect.host w') = Some u /\
       terminated (kiosk redirect) w') /\
    (forall ev w',
       Redirect.step ev redirect_frame_stalled = Some w' ->
       ev <> FrameLoads -> ev <> TimerFires 2%positive ->
       Redirect.session w' = Redirect.session redirect_frame_stalled ->
       live (kiosk redirect) w' Grace 2%positive (mkTimer (cb_grace "https://x/f") 2500 None)).
Proof.
  refine (proj2 (grace_period_ends_in_navigation redirect_frame_stalled _)
            2%positive (mkTimer (cb_grace "https://x/f") 2500 None) _ _).
  - exists blank_page, [FetchSettles (answer form_f); Tick 5000]. vm_compute. reflexivity.
  - split; vm_compute; reflexivity.
  - vm_compute. reflexivity.
Defined.

(** C10. In every version, on every page, the script starts by running
    [showIdle] and only then schedules and issues its first poll: when the
    first fetch is in flight the screen and the session are those the Idle
    transition left, the display is Idle, the session is empty and nothing
    has been assigned to the iframe; and whatever happens before the first
    response is processed (time passing, timers firing, the iframe's load
    event, visibility changes), the display stays Idle and the session
    empty. *)
Theorem starts_idle v p :
  hidden (host_of (kiosk v) (boot (kiosk v) p))
    = hidden (host_of (kiosk v) (on_timeout (kiosk v) (script_loaded v p))) /\
  session_of (kiosk v) (boot (kiosk v) p)
    = session_of (kiosk v) (on_timeout (kiosk v) (script_loaded v p)) /\
  writes (host_of (kiosk v) (boot (kiosk v) p)) = [] /\
  inflight (host_of (kiosk v) (boot (kiosk v) p)) = 1%nat /\
  display (kiosk v) (boot (kiosk v) p) = Idle /\
  session_of (kiosk v) (boot (kiosk v) p) = empty_session /\
  (forall evs w,
     forallb (fun ev => negb (brings_response ev)) evs = true ->
     run (kiosk v) evs (boot (kiosk v) p) = Some w ->
     display (kiosk v) w = Idle /\ session_of (kiosk v) w = empty_session).
Proof.
  destruct (boot_idle v p) as [[Hd Hs] Hfl].
  split; [|split; [|split; [|split; [done|split; [done|split; [done|]]]]]].
  - destruct p as [[[|] ha hl hf hr hb] bt fa lk t0 rs]; destruct v; vm_compute; reflexivity.
  - destruct p as [[[|] ha hl hf hr hb] bt fa lk t0 rs]; destruct v; vm_compute; reflexivity.
  - destruct p as [[[|] ha hl hf hr hb] bt fa lk t0 rs]; destruct v; vm_compute; reflexivity.
  - intros evs w Hq Hrun.
    eapply (quiet_run_idle v evs (boot (kiosk v) p) w); [|done..].
    apply reachable_Inv. by exists p, [].
Qed.

Lemma starts_idle_witness :
  display (kiosk adaptive)
    (replay (kiosk adaptive)
       [Tick 3000; TimerFires 1%positive; FrameLoads; VisibilityChanges true] blank_page)
  = Idle /\
  session_of (kiosk adaptive)
    (replay (kiosk adaptive)
       [Tick 3000; TimerFires 1%positive; FrameLoads; VisibilityChanges true] blank_page)
  = empty_session.
Proof.
  refine (proj2 (proj2 (proj2 (proj2 (proj2 (proj2 (starts_idle adaptive blank_page))))))
            [Tick 3000; TimerFires 1%positive; FrameLoads; VisibilityChanges true] _ _ _).
  - reflexivity.
  - vm_compute. reflexivity.
Defined.

(** ** What a poll cycle does not distinguish *)

(** X1. [fetchActive] throws exactly when the request is rejected, the
    status is outside 200..299, or the body does not parse; and in every
    version the world a failed cycle leaves does not depend on which of
    these happened: the [catch] ignores the error but for logging it. *)
Theorem failure_kind_is_irrelevant v (w : world (kiosk v)) r r' :
  (fetch_fails r <->
   r = NetworkFailure \/
   exists status body, r = HttpResponse status body /\
     (status < 200 \/ 299 < status \/ body = Unparsable)) /\
  (fetch_fails r -> fetch_fails r' ->
   after_poll (kiosk v) r w = after_poll (kiosk v) r' w).
Proof.
  split.
  - unfold fetch_fails, fetchActive, ok. split.
    + intros [e He]. destruct r as [|st b]; [by left|right].
      exists st, b. split; [done|].
      destruct (bool_decide (200 <= st)) eqn:E1; [|apply bool_decide_eq_false in E1; lia].
      destruct (bool_decide (st <= 299)) eqn:E2; [|apply bool_decide_eq_false in E2; lia].
      destruct b; [auto|done].
    + intros [->|(st & b & -> & H)]; [by eexists|].
      destruct H as [H|[H| ->]].
      * rewrite (bool_decide_eq_false_2 (200 <= st)) by lia. by eexists.
      * rewrite (bool_decide_eq_false_2 (st <= 299)) by lia.
        rewrite andb_false_r. by eexists.
      * destruct (_ && _); by eexists.
  - intros [e He] [e' He']. rewrite !after_poll_eq.
    destruct v; unfold redirect_cycle, iframe_only_cycle, adaptive_cycle, fast_mode_cycle;
      by rewrite He, He'.
Qed.

Lemma failure_kind_is_irrelevant_witness :
  after_poll (kiosk redirect) NetworkFailure (first_form_shown redirect)
  = after_poll (kiosk redirect) (HttpResponse 503 Unparsable) (first_form_shown redirect).
Proof.
  refine (proj2 (failure_kind_is_irrelevant redirect (first_form_shown redirect)
                   NetworkFailure (HttpResponse 503 Unparsable)) _ _).
  - exists FetchRejected. reflexivity.
  - exists (HttpError 503). reflexivity.
Defined.

(** X2. A [null] body and a record whose [active] is not [true] are handled
    alike in every version, whatever [itemId] and [formUrl] the record
    carries: both run [showIdle] and nothing else. *)
Theorem inactive_answers_are_alike v (w : world (kiosk v)) r r' :
  reports_inactive r -> reports_inactive r' ->
  after_poll (kiosk v) r w = after_poll (kiosk v) r' w /\
  after_poll (kiosk v) r w = on_timeout (kiosk v) w.
Proof.
  assert (forall r0, reports_inactive r0 ->
            after_poll (kiosk v) r0 w = on_timeout (kiosk v) w) as H.
  { intros r0 Hr. rewrite after_poll_eq.
    destruct v; unfold redirect_cycle, iframe_only_cycle, adaptive_cycle, fast_mode_cycle;
      cbn [kiosk on_timeout];
      destruct Hr as [->|(d & -> & ->)]; reflexivity. }
  intros Hr Hr'. split; [|by apply H]. by rewrite !H.
Qed.

Lemma inactive_answers_are_alike_witness :
  after_poll (kiosk adaptive) (HttpResponse 200 (JsonValue None)) (first_form_shown adaptive)
  = after_poll (kiosk adaptive)
      (answer (mkStatus false (Some "42"%string) (Some "https://x/f"%string)))
      (first_form_shown adaptive).
Proof.
  refine (proj1 (inactive_answers_are_alike adaptive (first_form_shown adaptive)
                   (HttpResponse 200 (JsonValue None))
                   (answer (mkStatus false (Some "42"%string) (Some "https://x/f"%string)))
                   _ _)).
  - left. reflexivity.
  - right. eexists. split; reflexivity.
Defined.

(** X3. [data.itemId || "unknown"]: in the two script.js versions and in
    part_000 a record is processed with the item id ["unknown"] when its
    [itemId] is missing or the empty string, so that two records that differ
    only in item ids with the same default leave the same world. *)
Theorem missing_item_id_is_unknown v (w : world (kiosk v)) act i i' u :
  v <> fast_mode ->
  or_unknown i = or_unknown i' ->
  or_unknown None = "unknown"%string /\
  or_unknown (Some EmptyString) = "unknown"%string /\
  after_poll (kiosk v) (answer (mkStatus act i u)) w
  = after_poll (kiosk v) (answer (mkStatus act i' u)) w.
Proof.
  intros Hv Hi. split; [done|]. split; [done|]. rewrite !after_poll_eq.
  destruct v; [| | |done];
    unfold redirect_cycle, iframe_only_cycle, adaptive_cycle;
    cbn [fetchActive answer ok bool_decide]; simpl; by rewrite Hi.
Qed.

Lemma missing_item_id_is_unknown_witness :
  after_poll (kiosk iframe_only)
    (answer (mkStatus true None (Some "https://x/f"%string))) (first_form_shown iframe_only)
  = after_poll (kiosk iframe_only)
      (answer (mkStatus true (Some "unknown"%string) (Some "https://x/f"%string)))
      (first_form_shown iframe_only).
Proof.
  refine (proj2 (proj2 (missing_item_id_is_unknown iframe_only (first_form_shown iframe_only)
                          true None (Some "unknown"%string) (Some "https://x/f"%string) _ _))).
  - discriminate.
  - reflexivity.
Defined.

(** X4. [!formUrl]: in every version a record whose [formUrl] is the empty
    string is processed exactly like one without [formUrl]. *)
Theorem empty_url_is_missing v (w : world (kiosk v)) act i :
  after_poll (kiosk v) (answer (mkStatus act i (Some EmptyString))) w
  = after_poll (kiosk v) (answer (mkStatus act i None)) w.
Proof.
  rewrite !after_poll_eq.
  destruct v; unfold redirect_cycle, iframe_only_cycle, adaptive_cycle, fast_mode_cycle;
    destruct act; reflexivity.
Qed.

(** X5. In part_000 and part_001 the [visibilitychange] listener runs
    [stopPolling] when the tab becomes hidden: in every reachable state the
    event is handled and afterwards no poll timer is live, while the
    inactivity timer, the display, the session, the iframe and the requests
    in flight are as before. *)
Theorem hiding_the_tab_pauses_polling v (w : world (kiosk v)) :
  pauses_when_hidden v = true -> reachable (kiosk v) w ->
  exists w',
    step_of (kiosk v) (VisibilityChanges true) w = Some w' /\
    (forall id t, ~ live (kiosk v) w' Poll id t) /\
    (forall id t, live (kiosk v) w' Inactivity id t <-> live (kiosk v) w Inactivity id t) /\
    display (kiosk v) w' = display (kiosk v) w /\
    session_of (kiosk v) w' = session_of (kiosk v) w /\
    surface (host_of (kiosk v) w') = surface (host_of (kiosk v) w) /\
    inflight (host_of (kiosk v) w') = inflight (host_of (kiosk v) w).
Proof. intros Hv HI%reachable_Inv. by apply stopPolling_effect. Qed.

Lemma hiding_the_tab_pauses_polling_witness :
  exists w',
    step_of (kiosk fast_mode) (VisibilityChanges true) (first_form_shown fast_mode) = Some w' /\
    (forall id t, ~ live (kiosk fast_mode) w' Poll id t) /\
    (forall id t, live (kiosk fast_mode) w' Inactivity id t
                  <-> live (kiosk fast_mode) (first_form_shown fast_mode) Inactivity id t) /\
    display (kiosk fast_mode) w' = display (kiosk fast_mode) (first_form_shown fast_mode) /\
    session_of (kiosk fast_mode) w' = session_of (kiosk fast_mode) (first_form_shown fast_mode) /\
    surface (host_of (kiosk fast_mode) w')
      = surface (host_of (kiosk fast_mode) (first_form_shown fast_mode)) /\
    inflight (host_of (kiosk fast_mode) w')
      = inflight (host_of (kiosk fast_mode) (first_form_shown fast_mode)).
Proof.
  refine (hiding_the_tab_pauses_polling fast_mode (first_form_shown fast_mode) _ _).
  - reflexivity.
  - exists blank_page, [FetchSettles (answer form_f)]. vm_compute. reflexivity.
Defined.

(** X6. In part_000 and part_001 the listener runs [startPolling] when the
    tab becomes visible: afterwards exactly one poll timer is live, a new
    interval whose period is [ACTIVE_POLL_MS] if a session is on screen and
    [IDLE_POLL_MS] if the display is Idle, first due one period after the
    event; nothing else changes. *)
Theorem showing_the_tab_resumes_polling v (w : world (kiosk v)) :
  pauses_when_hidden v = true -> reachable (kiosk v) w ->
  exists w' p,
    step_of (kiosk v) (VisibilityChanges false) w = Some w' /\
    live (kiosk v) w' Poll p
      (mkTimer cb_poll
         (now (host_of (kiosk v) w')
          + (if decide (display (kiosk v) w = Idle)
             then idlePollIntervalMs (kiosk v) else activePollIntervalMs (kiosk v)))
         (Some (if decide (display (kiosk v) w = Idle)
                then idlePollIntervalMs (kiosk v) else activePollIntervalMs (kiosk v)))) /\
    (forall id t, live (kiosk v) w' Poll id t -> id = p) /\
    (forall id t, live (kiosk v) w' Inactivity id t <-> live (kiosk v) w Inactivity id t) /\
    display (kiosk v) w' = display (kiosk v) w /\
    session_of (kiosk v) w' = session_of (kiosk v) w /\
    surface (host_of (kiosk v) w') = surface (host_of (kiosk v) w) /\
    inflight (host_of (kiosk v) w') = inflight (host_of (kiosk v) w).
Proof. intros Hv HI%reachable_Inv. by apply startPolling_effect. Qed.

Lemma showing_the_tab_resumes_polling_witness :
  exists w' p,
    step_of (kiosk adaptive) (VisibilityChanges false) adaptive_hidden_and_left_alone = Some w' /\
    live (kiosk adaptive) w' Poll p
      (mkTimer cb_poll
         (now (host_of (kiosk adaptive) w')
          + (if decide (display (kiosk adaptive) adaptive_hidden_and_left_alone = Idle)
             then idlePollIntervalMs (kiosk adaptive) else activePollIntervalMs (kiosk adaptive)))
         (Some (if decide (display (kiosk adaptive) adaptive_hidden_and_left_alone = Idle)
                then idlePollIntervalMs (kiosk adaptive)
                else activePollIntervalMs (kiosk adaptive)))) /\
    (forall id t, live (kiosk adaptive) w' Poll id t -> id = p) /\
    (forall id t, live (kiosk adaptive) w' Inactivity id t
                  <-> live (kiosk adaptive) adaptive_hidden_and_left_alone Inactivity id t) /\
    display (kiosk adaptive) w' = display (kiosk adaptive) adaptive_hidden_and_left_alone /\
    session_of (kiosk adaptive) w' = session_of (kiosk adaptive) adaptive_hidden_and_left_alone /\
    surface (host_of (kiosk adaptive) w')
      = surface (host_of (kiosk adaptive) adaptive_hidden_and_left_alone) /\
    inflight (host_of (kiosk adaptive) w')
      = inflight (host_of (kiosk adaptive) adaptive_hidden_and_left_alone).
Proof.
  refine (showing_the_tab_resumes_polling adaptive adaptive_hidden_and_left_alone _ _).
  - reflexivity.
  - exists blank_page, [FetchSettles (answer form_f); VisibilityChanges true; Tick 120000].
    vm_compute. reflexivity.
Defined.

(** X7. In part_000 and part_001 [showIdle] ends with
    [startPolling(IDLE_POLL_MS)]: when the inactivity timer fires, a poll
    interval of period [IDLE_POLL_MS] is live afterwards, first due one
    period later, whether or not a poll timer was live before; so a timeout
    in a hidden tab, where polling had been paused, sets polling going
    again. *)
Theorem timeout_in_hidden_tab_restarts_polling v (w : world (kiosk v)) id t :
  pauses_when_hidden v = true -> reachable (kiosk v) w ->
  live (kiosk v) w Inactivity id t -> tm_due t <= now (host_of (kiosk v) w) ->
  exists w',
    step_of (kiosk v) (TimerFires id) w = Some w' /\
    live (kiosk v) w' Poll (next_handle (host_of (kiosk v) w))
      (mkTimer cb_poll (now (host_of (kiosk v) w') + idlePollIntervalMs (kiosk v))
         (Some (idlePollIntervalMs (kiosk v)))).
Proof. intros Hv HI%reachable_Inv. by apply timeout_restarts_polling. Qed.

Lemma timeout_in_hidden_tab_restarts_polling_witness :
  (forall id t, ~ live (kiosk adaptive) adaptive_hidden_and_left_alone Poll id t) /\
  exists w',
    step_of (kiosk adaptive) (TimerFires 2%positive) adaptive_hidden_and_left_alone = Some w' /\
    live (kiosk adaptive) w' Poll
      (next_handle (host_of (kiosk adaptive) adaptive_hidden_and_left_alone))
      (mkTimer cb_poll (now (host_of (kiosk adaptive) w') + idlePollIntervalMs (kiosk adaptive))
         (Some (idlePollIntervalMs (kiosk adaptive)))).
Proof.
  split.
  - intros id t [Hid Hk]. vm_compute in Hid.
    destruct id as [[id|id|]|[id|id|]|]; try discriminate Hid.
    injection Hid as <-. discriminate Hk.
  - refine (timeout_in_hidden_tab_restarts_polling adaptive adaptive_hidden_and_left_alone
              2%positive (mkTimer cb_showIdle 120000 None) _ _ _ _).
    + reflexivity.
    + exists blank_page, [FetchSettles (answer form_f); VisibilityChanges true; Tick 120000].
      vm_compute. reflexivity.
    + split; vm_compute; reflexivity.
    + vm_compute. discriminate.
Defined.

(** X8. The second script.js version, part_000 and part_001 never assign
    [window.location.href]: in every reachable state the tab is still on
    the kiosk page, and the loop is not terminated (the passing of time, at
    least, is always handled). *)
Theorem iframe_versions_never_navigate v (w : world (kiosk v)) :
  v <> redirect -> reachable (kiosk v) w ->
  location_href (host_of (kiosk v) w) = None /\ ~ terminated (kiosk v) w.
Proof.
  intros Hv Hw. split; [by apply never_navigates|].
  intros Ht. specialize (Ht (Tick 0)). by destruct v.
Qed.

Lemma iframe_versions_never_navigate_witness :
  location_href (host_of (kiosk fast_mode) (first_form_shown fast_mode)) = None /\
  ~ terminated (kiosk fast_mode) (first_form_shown fast_mode).
Proof.
  refine (iframe_versions_never_navigate fast_mode (first_form_shown fast_mode) _ _).
  - discriminate.
  - exists blank_page, [FetchSettles (answer form_f)]. vm_compute. reflexivity.
Defined.



(** X10. In the first script.js version the iframe's [onload] handler
    cancels the pending redirect: when the load event arrives while the
    grace timer is live, the timer is cleared and [state.iframeLoadTimer]
    reset, the loading overlay goes away (the display is ActiveLoaded), the
    session stays, and whatever event comes next does not send the tab
    away. *)
Theorem frame_load_cancels_redirect (w : world (kiosk redirect)) g t :
  reachable (kiosk redirect) w ->
  live (kiosk redirect) w Grace g t ->
  location_href (Redirect.host w) = None ->
  exists w',
    Redirect.step FrameLoads w = Some w' /\
    Redirect.iframeLoadTimer (Redirect.state w') = None /\
    (forall id t', ~ live (kiosk redirect) w' Grace id t') /\
    display (kiosk redirect) w' = ActiveLoaded /\
    Redirect.session w' = Redirect.session w /\
    (forall ev w'', Redirect.step ev w' = Some w'' ->
                    location_href (Redirect.host w'') = None).
Proof.
  intros Hw [Hid Hk] Hloc.
  destruct (frame_load_disarms w g t Hw Hid Hk Hloc)
    as (w' & Hstep & Hslot & Htm & Hno & Hd & Hs & Hloc').
  exists w'. split; [done|]. split; [done|]. split; [|split; [done|split; [done|]]].
  - intros id t' [Hid' Hk']. by apply (Hno _ _ Hid').
  - intros ev w'' Hstep'.
    destruct (redirect_step_location _ _ _ Hstep') as [?|(g' & u & h' & -> & Hfire & _)]; [done|].
    apply fire_Some in Hfire as (t' & Hid' & _ & Hcb & _).
    exfalso. apply (Hno _ _ Hid'). by rewrite <- Hcb.
Qed.

Lemma frame_load_cancels_redirect_witness :
  exists w',
    Redirect.step FrameLoads (first_form_shown redirect) = Some w' /\
    Redirect.iframeLoadTimer (Redirect.state w') = None /\
    (forall id t', ~ live (kiosk redirect) w' Grace id t') /\
    display (kiosk redirect) w' = ActiveLoaded /\
    Redirect.session w' = Redirect.session (first_form_shown redirect) /\
    (forall ev w'', Redirect.step ev w' = Some w'' ->
                    location_href (Redirect.host w'') = None).
Proof.
  refine (frame_load_cancels_redirect (first_form_shown redirect) 2%positive
            (mkTimer (cb_grace "https://x/f") 2500 None) _ _ _).
  - exists blank_page, [FetchSettles (answer form_f)]. vm_compute. reflexivity.
  - split; vm_compute; reflexivity.
  - vm_compute. reflexivity.
Defined.

(** X11. While the display is Idle, a poll that fails or reports no
    activity (and, except in part_001, one that reports an active record
    without URL) changes nothing but the debug badge: display, session,
    iframe and the timer table, with the due time of the poll timer, are as
    before. *)
Theorem idle_poll_changes_nothing v (w : world (kiosk v)) r :
  reachable (kiosk v) w -> display (kiosk v) w = Idle ->
  reports_inactive r \/ fetch_fails r \/ (reports_active_without_url r /\ v <> fast_mode) ->
  observable (kiosk v) (after_poll (kiosk v) r w) = observable (kiosk v) w.
Proof. intros HI%reachable_Inv. by apply idle_poll_noop. Qed.

Lemma idle_poll_changes_nothing_witness :
  observable (kiosk adaptive) (after_poll (kiosk adaptive) NetworkFailure adaptive_back_to_idle)
  = observable (kiosk adaptive) adaptive_back_to_idle.
Proof.
  refine (idle_poll_changes_nothing adaptive adaptive_back_to_idle NetworkFailure _ _ _).
  - exists blank_page,
      [FetchSettles (answer form_f); Tick 500; TimerFires 3%positive;
       FetchSettles (answer inactive_record); Tick 3000; TimerFires 4%positive].
    vm_compute. reflexivity.
  - vm_compute. reflexivity.
  - right. left. exists FetchRejected. reflexivity.
Defined.

(** X12. When the script has started, on any page, exactly one timer
    exists: the poll interval, with the idle period, first due one period
    after the start; and [state.activeTimer] is empty. *)
Theorem startup_schedules_one_poll_timer v p :
  (exists id,
     timers (host_of (kiosk v) (boot (kiosk v) p))
     = {[ id := mkTimer cb_poll (page_time p + idlePollIntervalMs (kiosk v))
                  (Some (idlePollIntervalMs (kiosk v))) ]}) /\
  alive_slot (kiosk v) (boot (kiosk v) p) = None.
Proof.
  destruct p as [[[|] ha hl hf hr hb] bt fa lk t0 rs]; destruct v;
    (split; [|reflexivity]);
    first [ by exists 1%positive; vm_compute | by exists 2%positive; vm_compute ].
Qed.

(** X13. In the two script.js versions and in part_000 an active record
    that differs from the session on screen in its item only is a session
    change like any other: the session becomes the record's, the loading
    overlay is shown again and [onload] is replaced by a handler for the new
    item. The two script.js versions assign the URL to the iframe once
    more, reloading the form; part_000 assigns it only if [els.frame.src]
    does not read back as the URL, and otherwise leaves the attribute as it
    is. *)
Theorem item_change_is_a_session_change v (w : world (kiosk v)) r d u :
  v <> fast_mode -> reachable (kiosk v) w -> reports_active r d -> formUrl d = Some u ->
  session_of_record (kiosk v) d <> session_of (kiosk v) w ->
  session_of (kiosk v) (after_poll (kiosk v) r w) = session_of_record (kiosk v) d /\
  display (kiosk v) (after_poll (kiosk v) r w) = ActiveLoading /\
  onload (host_of (kiosk v) (after_poll (kiosk v) r w))
    = Some (onload_for (accepted_id (kiosk v) (itemId d))) /\
  frame_attr (host_of (kiosk v) (after_poll (kiosk v) r w)) =
    (if keeps_frame_warm v && bool_decide (get_src (host_of (kiosk v) w) = u)
     then frame_attr (host_of (kiosk v) w)
     else Some u) /\
  writes (host_of (kiosk v) (after_poll (kiosk v) r w)) =
    (if keeps_frame_warm v && bool_decide (get_src (host_of (kiosk v) w) = u)
     then writes (host_of (kiosk v) w)
     else u :: writes (host_of (kiosk v) w)).
Proof. intros Hv HI%reachable_Inv. by apply item_change. Qed.

Lemma item_change_is_a_session_change_witness :
  session_of (kiosk iframe_only)
    (after_poll (kiosk iframe_only)
       (answer (mkStatus true (Some "43"%string) (Some "https://x/f"%string)))
       (first_form_shown iframe_only))
  = (Some "43"%string, Some "https://x/f"%string).
Proof.
  refine (proj1 (item_change_is_a_session_change iframe_only (first_form_shown iframe_only)
                   (answer (mkStatus true (Some "43"%string) (Some "https://x/f"%string)))
                   (mkStatus true (Some "43"%string) (Some "https://x/f"%string))
                   "https://x/f" _ _ _ _ _)).
  - discriminate.
  - exists blank_page, [FetchSettles (answer form_f)]. vm_compute. reflexivity.
  - vm_compute. repeat split; reflexivity.
  - reflexivity.
  - vm_compute. discriminate.
Defined.

(** X14. part_001 compares URLs only: an active record whose [formUrl] is
    the session's leaves session, display and iframe as they are whatever
    its [itemId], so [state.lastItemId] and the [onload] handler stay those
    of the record that opened the session. *)
Theorem fast_mode_compares_urls_only (w : world (kiosk fast_mode)) r d :
  reachable (kiosk fast_mode) w -> reports_active r d ->
  formUrl d = FastMode.lastFormUrl (FastMode.state w) ->
  FastMode.session (after_poll (kiosk fast_mode) r w) = FastMode.session w /\
  surface (FastMode.host (after_poll (kiosk fast_mode) r w)) = surface (FastMode.host w) /\
  display (kiosk fast_mode) (after_poll (kiosk fast_mode) r w) = display (kiosk fast_mode) w.
Proof.
  intros HI%reachable_Inv Hr Hu.
  assert (on_screen fast_mode d w) as Hon by (by split).
  rewrite (refresh_eq fast_mode w r d HI Hr Hon).
  destruct (refresh_display_session fast_mode w) as [Hd Hs].
  split; [exact Hs|]. split; [exact (refresh_surface fast_mode w)|exact Hd].
Qed.

Lemma fast_mode_compares_urls_only_witness :
  FastMode.session
    (after_poll (kiosk fast_mode)
       (answer (mkStatus true (Some "43"%string) (Some "https://x/f"%string)))
       (first_form_shown fast_mode))
  = FastMode.session (first_form_shown fast_mode).
Proof.
  refine (proj1 (fast_mode_compares_urls_only (first_form_shown fast_mode)
                   (answer (mkStatus true (Some "43"%string) (Some "https://x/f"%string)))
                   (mkStatus true (Some "43"%string) (Some "https://x/f"%string)) _ _ _)).
  - exists blank_page, [FetchSettles (answer form_f)]. vm_compute. reflexivity.
  - vm_compute. repeat split; reflexivity.
  - vm_compute. reflexivity.
Defined.

(** X15. An active record without URL. The two script.js versions and
    part_000 treat it as the end of the session: the display is Idle and
    the session empty afterwards. part_001 shows the loading overlay
    instead, keeps the session and the iframe as they are, and arms the
    inactivity timer, due [ACTIVE_TIMEOUT_MS] after the cycle. *)
Theorem active_record_without_url v (w : world (kiosk v)) r :
  reachable (kiosk v) w -> reports_active_without_url r ->
  (v <> fast_mode ->
   display (kiosk v) (after_poll (kiosk v) r w) = Idle /\
   session_of (kiosk v) (after_poll (kiosk v) r w) = empty_session) /\
  (v = fast_mode ->
   display (kiosk v) (after_poll (kiosk v) r w) = ActiveLoading /\
   session_of (kiosk v) (after_poll (kiosk v) r w) = session_of (kiosk v) w /\
   surface (host_of (kiosk v) (after_poll (kiosk v) r w)) = surface (host_of (kiosk v) w) /\
   exists id,
     alive_slot (kiosk v) (after_poll (kiosk v) r w) = Some id /\
     timers (host_of (kiosk v) (after_poll (kiosk v) r w)) !! id
       = Some (mkTimer cb_showIdle
                 (now (host_of (kiosk v) (after_poll (kiosk v) r w))
                  + inactivityTimeoutMs (kiosk v)) None)).
Proof.
  intros HI%reachable_Inv Hr. split.
  - intros Hv. by apply no_url_goes_idle.
  - intros ->. rewrite (after_poll_eq fast_mode). by apply fast_mode_no_url.
Qed.

Lemma active_record_without_url_witness :
  display (kiosk redirect)
    (after_poll (kiosk redirect) (answer active_without_url) (first_form_shown redirect)) = Idle /\
  session_of (kiosk redirect)
    (after_poll (kiosk redirect) (answer active_without_url) (first_form_shown redirect))
  = empty_session.
Proof.
  refine (proj1 (active_record_without_url redirect (first_form_shown redirect)
                   (answer active_without_url) _ _) _).
  - exists blank_page, [FetchSettles (answer form_f)]. vm_compute. reflexivity.
  - exists active_without_url. vm_compute. repeat split; reflexivity.
  - discriminate.
Defined.

(** X16. When a poll reports no activity, the two script.js versions
    remove the iframe's [src] attribute, while part_000 and part_001 leave
    the iframe's [src] as it is (the iframe is kept warm); no version
    assigns [src]. *)
Theorem idle_clears_or_keeps_the_frame v (w : world (kiosk v)) r :
  reports_inactive r ->
  frame_attr (host_of (kiosk v) (after_poll (kiosk v) r w))
    = (if keeps_frame_warm v then frame_attr (host_of (kiosk v) w) else None) /\
  writes (host_of (kiosk v) (after_poll (kiosk v) r w)) = writes (host_of (kiosk v) w).
Proof.
  intros Hr. rewrite after_poll_eq.
  destruct v; unfold redirect_cycle, iframe_only_cycle, adaptive_cycle, fast_mode_cycle;
    cbn [kiosk host_of keeps_frame_warm];
    destruct Hr as [->|(d & -> & ->)]; cbn [negb].
  all: first [ by open_rd w | by open_io w
             | by (unfold Adaptive.showIdle; case_match; open_ad w) | by open_fm w ].
Qed.

Lemma idle_clears_or_keeps_the_frame_witness :
  frame_attr (host_of (kiosk adaptive)
                (after_poll (kiosk adaptive) (answer inactive_record) (first_form_shown adaptive)))
    = (if keeps_frame_warm adaptive
       then frame_attr (host_of (kiosk adaptive) (first_form_shown adaptive)) else None) /\
  writes (host_of (kiosk adaptive)
            (after_poll (kiosk adaptive) (answer inactive_record) (first_form_shown adaptive)))
    = writes (host_of (kiosk adaptive) (first_form_shown adaptive)).
Proof.
  refine (idle_clears_or_keeps_the_frame adaptive (first_form_shown adaptive)
            (answer inactive_record) _).
  right. exists inactive_record. split; reflexivity.
Defined.

(** X17. In the two script.js versions and in part_001, in every reachable
    state exactly one of the idle view and the active view is shown:
    [els.active] carries the class [hidden] exactly when [els.idle] does
    not. *)
Theorem one_view_is_shown v (w : world (kiosk v)) :
  v <> adaptive -> reachable (kiosk v) w ->
  hid_active (hidden (host_of (kiosk v) w)) = negb (hid_idle (hidden (host_of (kiosk v) w))).
Proof.
  intros Hv HI%reachable_Inv. destruct v; [| |done|]; cbn [kiosk host_of Inv] in *.
  - apply (rd_view _ HI).
  - apply (io_view _ HI).
  - by rewrite (fm_active _ HI), (fm_view _ HI).
Qed.

Lemma one_view_is_shown_witness :
  hid_active (hidden (host_of (kiosk fast_mode) fast_mode_waiting_for_url))
  = negb (hid_idle (hidden (host_of (kiosk fast_mode) fast_mode_waiting_for_url))).
Proof.
  refine (one_view_is_shown fast_mode fast_mode_waiting_for_url _ _).
  - discriminate.
  - exists blank_page, [FetchSettles (answer active_without_url)]. vm_compute. reflexivity.
Defined.

(** X18. No version ever hides the debug badge: an event handled while the
    badge is shown leaves it shown. The two script.js versions and part_001
    set the badge when they start, so there it is shown in every reachable
    state. *)
Theorem badge_stays_visible v (w : world (kiosk v)) :
  (forall ev w',
     step_of (kiosk v) ev w = Some w' ->
     hid_badge (hidden (host_of (kiosk v) w)) = false ->
     hid_badge (hidden (host_of (kiosk v) w')) = false) /\
  (v <> adaptive -> reachable (kiosk v) w ->
   hid_badge (hidden (host_of (kiosk v) w)) = false).
Proof.
  split.
  - intros ev w' Hstep Hb. by eapply step_badge.
  - intros Hv. revert w.
    apply (run_invariant (kiosk v)
             (fun w => hid_badge (hidden (host_of (kiosk v) w)) = false)).
    + intros p. by apply boot_badge.
    + intros ev w0 w1 H0 Hstep. by eapply step_badge.
Qed.

Lemma badge_stays_visible_witness :
  hid_badge (hidden (host_of (kiosk redirect) redirect_frame_stalled)) = false.
Proof.
  refine (proj2 (badge_stays_visible redirect redirect_frame_stalled) _ _).
  - discriminate.
  - exists blank_page, [FetchSettles (answer form_f); Tick 5000]. vm_compute. reflexivity.
Defined.

(** X19. When a due poll timer fires, in any version, the script sends a
    request and does nothing else before the response: display, session and
    iframe are unchanged, and the interval stays in the timer table under
    the same handle, due one period later. The number of requests in flight
    grows by one however many are in flight already: a poll does not wait
    for the response to the one before. *)
Theorem poll_timer_issues_request v (w : world (kiosk v)) id t :
  reachable (kiosk v) w -> live (kiosk v) w Poll id t ->
  location_href (host_of (kiosk v) w) = None ->
  tm_due t <= now (host_of (kiosk v) w) ->
  exists w' c,
    step_of (kiosk v) (TimerFires id) w = Some w' /\
    tm_every t = Some c /\
    timers (host_of (kiosk v) w')
      = <[id := mkTimer cb_poll (now (host_of (kiosk v) w) + c) (Some c)]>
          (timers (host_of (kiosk v) w)) /\
    inflight (host_of (kiosk v) w') = S (inflight (host_of (kiosk v) w)) /\
    display (kiosk v) w' = display (kiosk v) w /\
    session_of (kiosk v) w' = session_of (kiosk v) w /\
    surface (host_of (kiosk v) w') = surface (host_of (kiosk v) w).
Proof. intros HI%reachable_Inv. by apply poll_tick. Qed.

Lemma poll_timer_issues_request_witness :
  exists w' c,
    step_of (kiosk adaptive) (TimerFires 3%positive) adaptive_form_left_alone = Some w' /\
    tm_every (mkTimer cb_poll 500 (Some 500)) = Some c /\
    timers (host_of (kiosk adaptive) w')
      = <[3%positive :=
            mkTimer cb_poll (now (host_of (kiosk adaptive) adaptive_form_left_alone) + c)
              (Some c)]>
          (timers (host_of (kiosk adaptive) adaptive_form_left_alone)) /\
    inflight (host_of (kiosk adaptive) w')
      = S (inflight (host_of (kiosk adaptive) adaptive_form_left_alone)) /\
    display (kiosk adaptive) w' = display (kiosk adaptive) adaptive_form_left_alone /\
    session_of (kiosk adaptive) w' = session_of (kiosk adaptive) adaptive_form_left_alone /\
    surface (host_of (kiosk adaptive) w')
      = surface (host_of (kiosk adaptive) adaptive_form_left_alone).
Proof.
  refine (poll_timer_issues_request adaptive adaptive_form_left_alone 3%positive
            (mkTimer cb_poll 500 (Some 500)) _ _ _ _).
  - exists blank_page, [FetchSettles (answer form_f); Tick 120000]. vm_compute. reflexivity.
  - split; vm_compute; reflexivity.
  - vm_compute. reflexivity.
  - vm_compute. discriminate.
Defined.

(** X20. In part_001 a failed fetch changes the debug badge and nothing
    else, in whatever state it arrives: display, session, iframe, [state]
    and the timer table are as before. In particular the inactivity timer is
    not re-armed, so a session whose source cannot be reached still ends
    when the timer armed by the last active record fires. *)
Theorem fast_mode_failed_fetch_changes_only_badge (w : world (kiosk fast_mode)) r :
  fetch_fails r ->
  observable (kiosk fast_mode) (after_poll (kiosk fast_mode) r w)
    = observable (kiosk fast_mode) w /\
  FastMode.state (after_poll (kiosk fast_mode) r w) = FastMode.state w /\
  badge_text (FastMode.host (after_poll (kiosk fast_mode) r w))
    = "Connection Error - Retrying..."%string.
Proof. intros Hr. rewrite (after_poll_eq fast_mode). by apply fast_mode_failure. Qed.

Lemma fast_mode_failed_fetch_changes_only_badge_witness :
  observable (kiosk fast_mode)
    (after_poll (kiosk fast_mode) (HttpResponse 500 Unparsable) (first_form_shown fast_mode))
    = observable (kiosk fast_mode) (first_form_shown fast_mode) /\
  FastMode.state
    (after_poll (kiosk fast_mode) (HttpResponse 500 Unparsable) (first_form_shown fast_mode))
    = FastMode.state (first_form_shown fast_mode) /\
  badge_text (FastMode.host
    (after_poll (kiosk fast_mode) (HttpResponse 500 Unparsable) (first_form_shown fast_mode)))
    = "Connection Error - Retrying..."%string.
Proof.
  refine (fast_mode_failed_fetch_changes_only_badge (first_form_shown fast_mode)
            (HttpResponse 500 Unparsable) _).
  exists (HttpError 500). reflexivity.
Defined.
